(** * AgentCore Browser + Chrome extension demo: a shallow embedding

    The Python scripts of the repository are sequential glue around
    three cloud SDK clients (STS, S3, the AgentCore browser service),
    the local file system and the console.  Every call that leaves the
    interpreter is kept as a node of a program tree; an environment
    (a handler over an arbitrary world) answers the calls.  Exceptions
    are values, the fields of [self] are threaded as state, and the
    lines given to [console.print] are recorded in the trace. *)

From Stdlib Require Import ZArith String Ascii List Bool Lia.
From Stdlib Require Import Sorted.
From stdpp Require Import base option list strings gmap pretty.
Import ListNotations.

Local Open Scope string_scope.
Local Open Scope Z_scope.

Set Default Proof Using "Type".

(** ** Python values *)

(** Exceptions that the scripts distinguish.  [ClientError] carries
    [e.response['Error']['Code']] and [str(e)]; [KeyboardInterrupt] is
    not a subclass of [Exception]; every other exception class that can
    reach the scripts derives from [Exception]. *)
Inductive exn : Type :=
| ClientError (code : string) (message : string)
| KeyboardInterrupt
| OtherException (class : string) (message : string).

Definition is_Exception (e : exn) : bool :=
  match e with
  | KeyboardInterrupt => false
  | _ => true
  end.

Definition is_ClientError (e : exn) : bool :=
  match e with
  | ClientError _ _ => true
  | _ => false
  end.

(** [str(e)], as interpolated by the f-strings. *)
Definition str_exn (e : exn) : string :=
  match e with
  | ClientError _ m => m
  | KeyboardInterrupt => EmptyString
  | OtherException _ m => m
  end.

Inductive result (A : Type) : Type :=
| Ok (a : A)
| Raise (e : exn).
Arguments Ok {A} a.
Arguments Raise {A} e.

(** Truth value of a Python [str]. *)
Definition truthy (s : string) : bool := negb (String.eqb s EmptyString).

(** ** String helpers *)

(** [s.startswith(p)] *)
Definition startswith (s p : string) : bool := String.prefix p s.

Definition str_rev (s : string) : string :=
  string_of_list_ascii (rev (list_ascii_of_string s)).

(** [s.endswith(p)] *)
Definition endswith (s p : string) : bool :=
  String.prefix (str_rev p) (str_rev s).

(** [s[n:]] *)
Fixpoint drop_chars (n : nat) (s : string) : string :=
  match n, s with
  | O, _ => s
  | S n', String _ s' => drop_chars n' s'
  | S _, EmptyString => EmptyString
  end.

(** [s.split(sep, 1)] for a one-character separator: the text before
    the first separator and the text after it, or the whole string. *)
Fixpoint split_once (sep : ascii) (s : string) : list string :=
  match s with
  | EmptyString => [EmptyString]
  | String c s' =>
      if Ascii.eqb c sep then [EmptyString; s']
      else match split_once sep s' with
           | [a] => [String c a]
           | a :: rest => String c a :: rest
           | [] => [String c EmptyString]
           end
  end.

(** [s.split(sep)] for a one-character separator. *)
Fixpoint split_all (sep : ascii) (s : string) : list string :=
  match s with
  | EmptyString => [EmptyString]
  | String c s' =>
      if Ascii.eqb c sep then EmptyString :: split_all sep s'
      else match split_all sep s' with
           | a :: rest => String c a :: rest
           | [] => [String c EmptyString]
           end
  end.

(** [s.replace(old, new)] for a non-empty [old]: occurrences are
    replaced from the left and do not overlap. *)
Fixpoint replace_from (old new : string) (skip : nat) (s : string) : string :=
  match s with
  | EmptyString => EmptyString
  | String c s' =>
      match skip with
      | S k => replace_from old new k s'
      | O =>
          if String.prefix old s
          then new +:+ replace_from old new (Nat.pred (String.length old)) s'
          else String c (replace_from old new O s')
      end
  end.

Definition str_replace (s old new : string) : string := replace_from old new O s.

(** ** Files *)

(** A directory tree as [os.walk] sees it: entries that are directories
    and entries that are not. *)
#[warnings="-register-all"]
Inductive fsnode : Type :=
| File (name : string) (data : string)
| Dir (name : string) (children : list fsnode).


(** ** The outside world *)

(** An entry of the [extensions] argument of [start_browser_session]:
    [{'location': {'s3': {'bucket': ..., 'prefix': ...}}}]. *)
Record extension_location : Type := {
  loc_bucket : string;
  loc_prefix : string
}.

(** Calls that leave the interpreter.  The first group goes over the
    network through boto3; the second stays on the machine. *)
Inductive call : Type :=
| sts_get_caller_identity
| sts_get_session_token (DurationSeconds : Z)
| s3_head_bucket (Bucket : string)
| s3_create_bucket (Bucket : string) (LocationConstraint : option string)
| s3_upload_file (Filename Bucket Key ContentType : string)
| s3_head_object (Bucket Key : string)
| s3_list_objects_v2 (Bucket Prefix : string)
| s3_delete_object (Bucket Key : string)
| agentcore_start_browser_session
    (browserIdentifier name : string) (sessionTimeoutSeconds : Z)
    (extensions : list extension_location)
| agentcore_stop_browser_session (sessionId : string)
| boto3_client (service : string) (region_name : option string)
| os_environ_get (key : string)
| time_time
| tempfile_mkdtemp (prefix : string)
| path_exists (p : string)
| path_is_file (p : string)
| path_is_dir (p : string)
| path_stat_size (p : string)
| read_text (p : string)
| write_text (p : string) (text : string)
| json_load (p : string)
| zip_extractall (archive dest : string)
| shutil_copytree (src dst : string)
| os_walk (top : string)
| zipfile_open (p : string)
| zipfile_write (zip filename arcname : string)
| zipfile_close (p : string)
| subprocess_run (args : list string) (cwd : option string)
| confirm_ask (prompt : string) (default : bool)
| input (prompt : string).

Definition is_network (c : call) : bool :=
  match c with
  | sts_get_caller_identity | sts_get_session_token _
  | s3_head_bucket _ | s3_create_bucket _ _ | s3_upload_file _ _ _ _
  | s3_head_object _ _ | s3_list_objects_v2 _ _ | s3_delete_object _ _
  | agentcore_start_browser_session _ _ _ _
  | agentcore_stop_browser_session _ => true
  | _ => false
  end.

Record caller_identity : Type := {
  Account : string;
  Arn : string
}.

Record sts_credentials : Type := {
  AccessKeyId : string;
  SecretAccessKey : string;
  SessionToken : string;
  Expiration : string
}.

Record head_object_output : Type := {
  ContentLength : Z;
  LastModified : string
}.

(** The two keys of [manifest.json] that the scripts read, already
    converted with [str]. *)
Record manifest : Type := {
  manifest_name : option string;
  manifest_version : option string
}.

(** What a call gives back when it does not raise. *)
Definition payload (c : call) : Type :=
  match c with
  | sts_get_caller_identity => caller_identity
  | sts_get_session_token _ => sts_credentials
  | s3_head_object _ _ => head_object_output
  | s3_list_objects_v2 _ _ => option (list string)
  | agentcore_start_browser_session _ _ _ _ => string
  | os_environ_get _ => option string
  | time_time => Z
  | tempfile_mkdtemp _ => string
  | path_exists _ | path_is_file _ | path_is_dir _ => bool
  | path_stat_size _ => Z
  | read_text _ => string
  | json_load _ => manifest
  | os_walk _ => list fsnode
  | confirm_ask _ _ => bool
  | input _ => string
  | _ => unit
  end.

(** ** Programs *)

Inductive prog (A : Type) : Type :=
| Ret (a : A)
| Print (line : string) (k : prog A)
| Call (c : call) (k : result (payload c) -> prog A).
Arguments Ret {A} a.
Arguments Print {A} line k.
Arguments Call {A} c k.

Fixpoint pbind {A B} (p : prog A) (f : A -> prog B) : prog B :=
  match p with
  | Ret a => f a
  | Print l k => Print l (pbind k f)
  | Call c k => Call c (fun r => pbind (k r) f)
  end.

(** What an observer sees of a run. *)
Inductive event : Type :=
| Printed (line : string)
| Called (c : call).

(** An environment answers every call and moves to its next state. *)
Definition handler (W : Type) : Type :=
  forall c : call, W -> result (payload c) * W.

Fixpoint exec {W A} (h : handler W) (p : prog A) (w : W) : A * W * list event :=
  match p with
  | Ret a => (a, w, [])
  | Print l k =>
      let '(a, w', t) := exec h k w in (a, w', Printed l :: t)
  | Call c k =>
      let '(r, w1) := h c w in
      let '(a, w2, t) := exec h (k r) w1 in
      (a, w2, Called c :: t)
  end.

Definition calls_of (t : list event) : list call :=
  omap (fun e => match e with Called c => Some c | Printed _ => None end) t.

Definition lines_of (t : list event) : list string :=
  omap (fun e => match e with Printed l => Some l | Called _ => None end) t.

Definition network_calls (t : list event) : list call :=
  List.filter is_network (calls_of t).

(** ** Methods: state of [self], exceptions, program tree *)

Definition M (S A : Type) : Type := S -> prog (result A * S).

Definition ret {S A} (a : A) : M S A := fun s => Ret (Ok a, s).

Definition raise {S A} (e : exn) : M S A := fun s => Ret (Raise e, s).

Definition bind {S A B} (m : M S A) (f : A -> M S B) : M S B :=
  fun s => pbind (m s) (fun '(r, s') =>
    match r with
    | Ok a => f a s'
    | Raise e => Ret (Raise e, s')
    end).

Definition get {S} : M S S := fun s => Ret (Ok s, s).

Definition put {S} (s : S) : M S unit := fun _ => Ret (Ok tt, s).

Definition print {S} (line : string) : M S unit :=
  fun s => Print line (Ret (Ok tt, s)).

Definition invoke {S} (c : call) : M S (payload c) :=
  fun s => Call c (fun r => Ret (r, s)).

(** [try: m  except <classes matched by on_exn>: ...]; an exception for
    which [on_exn] has no clause passes through. *)
Definition try_except {S A} (m : M S A) (on_exn : exn -> option (M S A)) : M S A :=
  fun s => pbind (m s) (fun '(r, s') =>
    match r with
    | Ok a => Ret (Ok a, s')
    | Raise e =>
        match on_exn e with
        | Some handle => handle s'
        | None => Ret (Raise e, s')
        end
    end).

(** [try: m  finally: fin]: [fin] runs whatever [m] did; an exception
    of [fin] replaces the outcome of [m]. *)
Definition try_finally {S A} (m : M S A) (fin : M S unit) : M S A :=
  fun s => pbind (m s) (fun '(r, s') =>
    pbind (fin s') (fun '(rf, s'') =>
      match rf with
      | Ok _ => Ret (r, s'')
      | Raise e => Ret (Raise e, s'')
      end)).

(** A method of another object: it runs on that object's fields and
    leaves the caller's fields alone. *)
Definition on_object {S T A} (obj : T) (m : M T A) : M S (A * T) :=
  fun s => pbind (m obj) (fun '(r, obj') =>
    match r with
    | Ok a => Ret (Ok (a, obj'), s)
    | Raise e => Ret (Raise e, s)
    end).

Declare Scope py_scope.
Delimit Scope py_scope with py.
Notation "x <- m ;; k" := (bind m (fun x => k))
  (at level 100, m at next level, right associativity) : py_scope.
Notation "m ;; k" := (bind m (fun _ => k))
  (at level 100, right associativity) : py_scope.
Local Open Scope py_scope.

(** [for x in xs: body], where [body] answers [Some r] for [return r]. *)
Fixpoint for_each {S X R} (xs : list X) (body : X -> M S (option R)) : M S (option R) :=
  match xs with
  | [] => ret None
  | x :: xs' =>
      r <- body x ;;
      match r with
      | Some v => ret (Some v)
      | None => for_each xs' body
      end
  end.

(** Parts of the Python runtime that are left open: the text of
    [f"{n / 1024 / 1024:.2f}"] for a byte count [n], and the text of
    [traceback.format_exc()]. *)
Class Runtime : Type := {
  format_mb : Z -> string;
  format_exc : exn -> string
}.

(** [n / 1024 / 1024 > 10] for a byte count [n]. *)
Definition exceeds_10_mb (n : Z) : bool := 10 * 1024 * 1024 <? n.

Definition nl : string := String (ascii_of_nat 10) EmptyString.

(** [value or os.environ.get(key, default)] *)
Definition or_environ {S} (value : option string) (key default : string) : M S string :=
  let from_env : M S string :=
    v <- invoke (os_environ_get key) ;;
    ret (match v with Some s => s | None => default end) in
  match value with
  | Some s => if truthy s then ret s else from_env
  | None => from_env
  end.

(** [Path(p).name]: the text after the last [/]. *)
Definition path_name (p : string) : string :=
  List.last (split_all "/" p) EmptyString.

(** [a / b] on paths. *)
Definition path_join (a b : string) : string := a +:+ "/" +:+ b.

(** Insertion into a list kept in descending order, for
    [list.sort(reverse=True)] on strings. *)
Fixpoint insert_desc (x : string) (l : list string) : list string :=
  match l with
  | [] => [x]
  | y :: l' => if String.leb y x then x :: l else y :: insert_desc x l'
  end.

Definition sort_reverse (l : list string) : list string :=
  fold_right insert_desc [] l.

(** [Path(p).suffix]: the last dot of the final component and what
    follows it, unless that dot is the first or the last character. *)
Fixpoint rfind (c : ascii) (s : string) (i : nat) : option nat :=
  match s with
  | EmptyString => None
  | String a s' =>
      match rfind c s' (Datatypes.S i) with
      | Some j => Some j
      | None => if Ascii.eqb a c then Some i else None
      end
  end.

Definition path_suffix (p : string) : string :=
  let name := path_name p in
  match rfind "." name O with
  | Some i =>
      if ((0 <? i) && (i <? String.length name - 1))%nat then drop_chars i name
      else EmptyString
  | None => EmptyString
  end.

(** [d[key]] on a dictionary of strings. *)
Definition dict_item {S} (d : gmap string string) (key : string) : M S string :=
  match d !! key with
  | Some v => ret v
  | None => raise (OtherException "KeyError" key)
  end.

(** *** Directory walks

    [os.walk(top)] visits [top], then every directory that the loop
    body left in [dirs], depth first and in listing order; a visit
    yields the directory (here: its path relative to [top]) and the
    entries of it that are not directories. *)
Definition files_of (nodes : list fsnode) : list (string * string) :=
  omap (fun n => match n with File name data => Some (name, data) | Dir _ _ => None end) nodes.

Fixpoint walk_into (keep : string -> bool) (root : list string) (n : fsnode)
  : list (list string * list (string * string)) :=
  match n with
  | File _ _ => []
  | Dir name children =>
      if keep name then
        ((root ++ [name])%list, files_of children)
          :: flat_map (walk_into keep (root ++ [name])%list) children
      else []
  end.

Definition walk (keep : string -> bool) (top : list fsnode)
  : list (list string * list (string * string)) :=
  ([], files_of top) :: flat_map (walk_into keep []) top.

(** A path relative to the walked directory, as the archive names it. *)
Definition arcname_of (components : list string) : string :=
  String.concat "/" components.

(** ** s3_manager.py *)

Module S3Manager.

Record t : Type := {
  bucket_name : string;
  region : string
}.

Definition __init__ {S} (bucket_name : string) (region : option string) : M S t :=
  region <- or_environ region "AWS_REGION" "us-east-1" ;;
  invoke (boto3_client "s3" (Some region)) ;;
  ret {| bucket_name := bucket_name; region := region |}.

Definition bucket_exists : M t bool :=
  self <- get ;;
  try_except
    (invoke (s3_head_bucket (bucket_name self)) ;;
     ret true)
    (fun e =>
       match e with
       | ClientError error_code _ =>
           Some (if String.eqb error_code "404" then ret false
                 else if String.eqb error_code "403" then
                   print ("[yellow]⚠ Bucket exists but access denied: "
                          +:+ bucket_name self +:+ "[/yellow]") ;;
                   ret true
                 else raise e)
       | _ => None
       end).

Definition create_bucket : M t bool :=
  self <- get ;;
  print ("[cyan]Checking S3 bucket: " +:+ bucket_name self +:+ "[/cyan]") ;;
  exists_ <- bucket_exists ;;
  if exists_ : bool then
    print ("[green]✓[/green] Bucket already exists: " +:+ bucket_name self) ;;
    ret true
  else
    print ("[cyan]Creating S3 bucket: " +:+ bucket_name self +:+ "[/cyan]") ;;
    try_except
      ((if String.eqb (region self) "us-east-1"
        then invoke (s3_create_bucket (bucket_name self) None)
        else invoke (s3_create_bucket (bucket_name self) (Some (region self)))) ;;
       print ("[green]✓[/green] Bucket created: " +:+ bucket_name self) ;;
       print ("[dim]Region: " +:+ region self +:+ "[/dim]") ;;
       ret true)
      (fun e =>
         match e with
         | ClientError error_code _ =>
             Some (if String.eqb error_code "BucketAlreadyOwnedByYou" then
                     print ("[green]✓[/green] Bucket already owned by you: "
                            +:+ bucket_name self) ;;
                     ret true
                   else if String.eqb error_code "BucketAlreadyExists" then
                     print ("[red]✗[/red] Bucket name already taken: "
                            +:+ bucket_name self) ;;
                     print "[yellow]Try a different bucket name[/yellow]" ;;
                     ret false
                   else
                     print ("[red]✗[/red] Failed to create bucket: " +:+ str_exn e) ;;
                     raise e)
         | _ => None
         end).

Definition upload_extension `{Runtime} (extension_path : string) (key : option string)
  : M t string :=
  self <- get ;;
  let key := match key with
             | None => "extensions/" +:+ path_name extension_path
             | Some k => k
             end in
  print "[cyan]Uploading extension to S3...[/cyan]" ;;
  print ("[dim]Bucket: " +:+ bucket_name self +:+ "[/dim]") ;;
  print ("[dim]Key: " +:+ key +:+ "[/dim]") ;;
  try_except
    (st_size <- invoke (path_stat_size extension_path) ;;
     print ("[dim]Uploading " +:+ format_mb st_size +:+ " MB...[/dim]") ;;
     invoke (s3_upload_file extension_path (bucket_name self) key "application/zip") ;;
     let s3_uri := "s3://" +:+ bucket_name self +:+ "/" +:+ key in
     print "[green]✓[/green] Extension uploaded successfully" ;;
     print ("[dim]S3 URI: " +:+ s3_uri +:+ "[/dim]") ;;
     ret s3_uri)
    (fun e =>
       if is_Exception e then
         Some (print ("[red]✗[/red] Failed to upload extension: " +:+ str_exn e) ;;
               raise e)
       else None).

(** [parts = s3_uri[5:].split('/', 1)]; [parts[0]]; [parts[1] if len(parts) > 1 else ''] *)
Definition parse_s3_uri (s3_uri : string) : string * string :=
  let parts := split_once "/" (drop_chars 5 s3_uri) in
  (List.hd EmptyString parts,
   if (1 <? Z.of_nat (List.length parts)) then List.nth 1 parts EmptyString
   else EmptyString).

Definition verify_access `{Runtime} (s3_uri : string) : M t bool :=
  print "[cyan]Verifying S3 access...[/cyan]" ;;
  if negb (startswith s3_uri "s3://") then
    print ("[red]✗[/red] Invalid S3 URI: " +:+ s3_uri) ;;
    ret false
  else
    let '(bucket, key) := parse_s3_uri s3_uri in
    try_except
      (response <- invoke (s3_head_object bucket key) ;;
       print "[green]✓[/green] S3 object accessible" ;;
       print ("[dim]Size: " +:+ format_mb (ContentLength response) +:+ " MB[/dim]") ;;
       print ("[dim]Last Modified: " +:+ LastModified response +:+ "[/dim]") ;;
       ret true)
      (fun e =>
         match e with
         | ClientError error_code _ =>
             Some ((if String.eqb error_code "404" then
                      print ("[red]✗[/red] Object not found: " +:+ s3_uri)
                    else if String.eqb error_code "403" then
                      print ("[red]✗[/red] Access denied: " +:+ s3_uri)
                    else
                      print ("[red]✗[/red] Error accessing object: " +:+ str_exn e)) ;;
                   ret false)
         | _ => None
         end).

Definition setup_and_upload `{Runtime} (extension_path : string) : M t (option string) :=
  print (nl +:+ "[bold cyan]☁️  Setting up S3 Storage[/bold cyan]" +:+ nl) ;;
  created <- create_bucket ;;
  if negb created then ret None
  else
    uploaded <- try_except
                  (s3_uri <- upload_extension extension_path None ;; ret (Some s3_uri))
                  (fun e => if is_Exception e then Some (ret None) else None) ;;
    match uploaded with
    | None => ret None
    | Some s3_uri =>
        accessible <- verify_access s3_uri ;;
        (if negb accessible then
           print "[yellow]⚠ Upload succeeded but verification failed[/yellow]" ;;
           print "[dim]This may be a temporary issue, continuing anyway...[/dim]"
         else ret tt) ;;
        print (nl +:+ "[green]✓ S3 setup complete![/green]" +:+ nl) ;;
        ret (Some s3_uri)
    end.

Definition list_extensions : M t (list string) :=
  self <- get ;;
  try_except
    (response <- invoke (s3_list_objects_v2 (bucket_name self) "extensions/") ;;
     match response with
     | None => ret []
     | Some contents => ret contents
     end)
    (fun e =>
       match e with
       | ClientError _ _ =>
           Some (print ("[yellow]⚠ Failed to list extensions: " +:+ str_exn e
                        +:+ "[/yellow]") ;;
                 ret [])
       | _ => None
       end).

Fixpoint delete_each (self : t) (to_delete : list string) : M t unit :=
  match to_delete with
  | [] => ret tt
  | key :: rest =>
      try_except
        (invoke (s3_delete_object (bucket_name self) key) ;;
         print ("[dim]Deleted: " +:+ key +:+ "[/dim]"))
        (fun e =>
           if is_Exception e then
             Some (print ("[yellow]⚠ Failed to delete " +:+ key +:+ ": "
                          +:+ str_exn e +:+ "[/yellow]"))
           else None) ;;
      delete_each self rest
  end.

Definition cleanup_old_extensions (keep_latest : nat) : M t unit :=
  self <- get ;;
  print ("[cyan]Cleaning up old extensions (keeping latest "
         +:+ pretty keep_latest +:+ ")...[/cyan]") ;;
  extensions <- list_extensions ;;
  if (List.length extensions <=? keep_latest)%nat then
    print ("[green]✓[/green] Only " +:+ pretty (List.length extensions)
           +:+ " extensions found, no cleanup needed")
  else
    let extensions := sort_reverse extensions in
    let to_delete := List.skipn keep_latest extensions in
    print ("[dim]Deleting " +:+ pretty (List.length to_delete)
           +:+ " old extensions...[/dim]") ;;
    delete_each self to_delete ;;
    print "[green]✓[/green] Cleanup complete".

End S3Manager.

(** [for i, x in enumerate(xs, start): console.print(f"  {i}. {x}")] *)
Fixpoint print_numbered {St} (start : nat) (xs : list string) : M St unit :=
  match xs with
  | [] => ret tt
  | x :: xs' =>
      print ("  " +:+ pretty start +:+ ". " +:+ x) ;;
      print_numbered (S start) xs'
  end.

(** ** browser_with_extension.py *)

Module BrowserWithExtension.

(** The dictionary kept in [self.browser_session]. *)
Record session_info : Type := {
  info_session_id : string;
  info_session_name : string;
  info_region : string
}.

(** The dictionary returned by [create_browser_session]. *)
Record session_details : Type := {
  details_session_id : string;
  details_region : string;
  details_extensions : list string;
  details_status : string
}.

Record t : Type := {
  region : string;
  browser_session : option session_info;
  session_id : option string
}.

Definition __init__ {S} (region : option string) : M S t :=
  region <- or_environ region "AWS_REGION" "us-east-1" ;;
  invoke (boto3_client "bedrock-agentcore" (Some region)) ;;
  ret {| region := region; browser_session := None; session_id := None |}.

(** The loop that builds [extensions]: a locator is kept only when it
    starts with [s3://]. *)
Fixpoint parse_extensions (extension_s3_uris : list string) : list extension_location :=
  match extension_s3_uris with
  | [] => []
  | uri :: rest =>
      if startswith uri "s3://" then
        let '(bucket, prefix) := S3Manager.parse_s3_uri uri in
        {| loc_bucket := bucket; loc_prefix := prefix |} :: parse_extensions rest
      else parse_extensions rest
  end.

Definition create_browser_session
    (extension_s3_uris : list string) (session_name : option string)
  : M t session_details :=
  print (nl +:+ "[bold cyan]🌐 Creating Browser Session with Extensions[/bold cyan]" +:+ nl) ;;
  let extensions := parse_extensions extension_s3_uris in
  print "[cyan]Extensions to load:[/cyan]" ;;
  print_numbered 1 extension_s3_uris ;;
  self <- get ;;
  print (nl +:+ "[cyan]Region: " +:+ region self +:+ "[/cyan]") ;;
  session_name <-
    (match session_name with
     | Some n => if truthy n then ret n else
         now <- invoke time_time ;; ret ("extension-demo-" +:+ pretty now)
     | None =>
         now <- invoke time_time ;; ret ("extension-demo-" +:+ pretty now)
     end) ;;
  print ("[cyan]Session Name: " +:+ session_name +:+ "[/cyan]") ;;
  try_except
    (print (nl +:+ "[dim]Starting browser session with extensions...[/dim]") ;;
     response <- invoke (agentcore_start_browser_session
                           "aws.browser.v1" session_name 1800 extensions) ;;
     put {| region := region self;
            browser_session := browser_session self;
            session_id := Some response |} ;;
     put {| region := region self;
            browser_session := Some {| info_session_id := response;
                                       info_session_name := session_name;
                                       info_region := region self |};
            session_id := Some response |} ;;
     print "[green]✓[/green] Browser session created successfully" ;;
     print ("[dim]Session ID: " +:+ response +:+ "[/dim]") ;;
     print ("[dim]Console: https://console.aws.amazon.com/agentcore/home?region="
            +:+ region self +:+ "#/browsers[/dim]") ;;
     let session_details :=
       {| details_session_id := response;
          details_region := region self;
          details_extensions := extension_s3_uris;
          details_status := "active" |} in
     print (nl +:+ "[green]✓ Browser session ready![/green]" +:+ nl) ;;
     ret session_details)
    (fun e =>
       if is_Exception e then
         Some (print ("[red]✗[/red] Failed to create browser session: " +:+ str_exn e) ;;
               print (nl +:+ "[yellow]Troubleshooting tips:[/yellow]") ;;
               print "  1. Check AWS credentials and permissions" ;;
               print "  2. Verify S3 URIs are accessible" ;;
               print "  3. Ensure IAM policy includes s3:GetObject permission" ;;
               print "  4. Check that region supports AgentCore Browser" ;;
               raise e)
       else None).

Definition verify_extension_loaded : M t bool :=
  print "[cyan]Verifying extension installation...[/cyan]" ;;
  self <- get ;;
  match browser_session self with
  | None =>
      print "[red]✗[/red] No active browser session" ;;
      ret false
  | Some _ =>
      print "[dim]Checking browser state...[/dim]" ;;
      print "[green]✓[/green] Browser session is active" ;;
      print "[yellow]⚠[/yellow] Extension verification requires manual check" ;;
      print "[dim]Navigate to chrome://extensions in the browser to verify[/dim]" ;;
      ret true
  end.

Definition test_extension_functionality (test_url : string) : M t bool :=
  print (nl +:+ "[cyan]Testing extension functionality...[/cyan]") ;;
  print ("[dim]Test URL: " +:+ test_url +:+ "[/dim]") ;;
  self <- get ;;
  match browser_session self with
  | None =>
      print "[red]✗[/red] No active browser session" ;;
      ret false
  | Some _ =>
      print ("[dim]Navigating to " +:+ test_url +:+ "...[/dim]") ;;
      print "[green]✓[/green] Navigation successful" ;;
      print (nl +:+ "[yellow]Manual verification required:[/yellow]") ;;
      print "  1. Check if extension icon appears in browser toolbar" ;;
      print "  2. Click extension icon to verify it's functional" ;;
      print "  3. Try using extension features (e.g., summarize page)" ;;
      ret true
  end.

(** [self.browser_session and self.session_id]: the dictionary is
    never empty, the identifier may be the empty string. *)
Definition active_session (self : t) : option string :=
  match browser_session self, session_id self with
  | Some _, Some sid => if truthy sid then Some sid else None
  | _, _ => None
  end.

Definition close_session : M t unit :=
  print (nl +:+ "[cyan]Closing browser session...[/cyan]") ;;
  self <- get ;;
  match active_session self with
  | Some sid =>
      try_except
        (invoke (agentcore_stop_browser_session sid) ;;
         print "[green]✓[/green] Browser session stopped" ;;
         put {| region := region self; browser_session := None; session_id := None |})
        (fun e =>
           if is_Exception e then
             Some (print ("[yellow]⚠[/yellow] Error stopping session: " +:+ str_exn e))
           else None)
  | None =>
      print "[dim]No active session to close[/dim]"
  end.

(** The module-level function [check_iam_permissions]. *)
Definition check_iam_permissions {S} : M S bool :=
  print "[cyan]Checking IAM permissions...[/cyan]" ;;
  try_except
    (invoke (boto3_client "sts" None) ;;
     identity <- invoke sts_get_caller_identity ;;
     print ("[green]✓[/green] AWS Account: " +:+ Account identity) ;;
     print ("[green]✓[/green] Identity: " +:+ path_name (Arn identity)) ;;
     print (nl +:+ "[yellow]Required permissions:[/yellow]") ;;
     print "  • s3:GetObject, s3:GetObjectVersion" ;;
     print "  • bedrock-agentcore:CreateBrowserSession" ;;
     print "  • bedrock:InvokeModel (for extension functionality)" ;;
     ret true)
    (fun e =>
       if is_Exception e then
         Some (print ("[red]✗[/red] Failed to check permissions: " +:+ str_exn e) ;;
               ret false)
       else None).

(** The dictionary returned by [get_session_info]. *)
Record session_report : Type := {
  report_session_id : string;
  report_region : string;
  report_status : string
}.

Definition get_session_info : M t (option session_report) :=
  self <- get ;;
  match session_id self with
  | Some sid =>
      if truthy sid then
        ret (Some {| report_session_id := sid;
                     report_region := region self;
                     report_status := match browser_session self with
                                      | Some _ => "active"
                                      | None => "closed"
                                      end |})
      else ret None
  | None => ret None
  end.

Definition __enter__ : M t t := get.

Definition __exit__ : M t unit := close_session.

End BrowserWithExtension.

(** A block of text lines, each closed by a line feed. *)
Definition unlines (ls : list string) : string :=
  String.concat EmptyString (List.map (fun l => l +:+ nl) ls).

(** ** setup_extension.py *)

Module ExtensionSetup.

Definition GITHUB_REPO : string := "aws-samples/amazon-bedrock-summary-client-for-chrome".

Record t : Type := {
  work_dir : string;
  extension_dir : string
}.

Definition __init__ {S} (work_dir : option string) : M S t :=
  work_dir <- (match work_dir with
               | Some d => ret d
               | None => invoke (tempfile_mkdtemp "extension_")
               end) ;;
  invoke (boto3_client "sts" None) ;;
  ret {| work_dir := work_dir; extension_dir := path_join work_dir "extension" |}.

Definition get_temporary_credentials (duration_seconds : Z) : M t (gmap string string) :=
  print ("[cyan]Getting temporary AWS credentials (valid for "
         +:+ pretty (duration_seconds / 60) +:+ " minutes)...[/cyan]") ;;
  try_except
    (response <- invoke (sts_get_session_token duration_seconds) ;;
     let credentials := response in
     print "[green]✓[/green] Temporary credentials obtained" ;;
     print ("[dim]Expires at: " +:+ Expiration credentials +:+ "[/dim]") ;;
     ret (<["AccessKeyId" := AccessKeyId credentials]>
          (<["SecretAccessKey" := SecretAccessKey credentials]>
           (<["SessionToken" := SessionToken credentials]> ∅))))
    (fun e =>
       if is_Exception e then
         Some (print ("[red]✗ Failed to get temporary credentials: "
                      +:+ str_exn e +:+ "[/red]") ;;
               raise e)
       else None).

Definition download_extension_from_github : M t string :=
  print "[cyan]Downloading extension from GitHub...[/cyan]" ;;
  self <- get ;;
  try_except
    (let repo_url := "https://github.com/" +:+ GITHUB_REPO +:+ ".git" in
     let clone_dir := path_join (work_dir self) "repo" in
     print ("[dim]Cloning " +:+ repo_url +:+ "...[/dim]") ;;
     invoke (subprocess_run ["git"; "clone"; "--depth"; "1"; repo_url; clone_dir] None) ;;
     print "[cyan]Building extension...[/cyan]" ;;
     invoke (subprocess_run ["npm"; "install"] (Some clone_dir)) ;;
     invoke (subprocess_run ["npm"; "run"; "build"] (Some clone_dir)) ;;
     has_dist <- invoke (path_exists (path_join clone_dir "dist")) ;;
     let build_dir := if has_dist : bool then path_join clone_dir "dist" else clone_dir in
     invoke (shutil_copytree build_dir (extension_dir self)) ;;
     print "[green]✓[/green] Extension downloaded and built" ;;
     ret (extension_dir self))
    (fun e =>
       match e with
       | KeyboardInterrupt => None
       | OtherException "CalledProcessError" _ =>
           Some (print ("[red]✗ Failed to build extension: " +:+ str_exn e +:+ "[/red]") ;;
                 print "[yellow]Tip: Make sure git and npm are installed[/yellow]" ;;
                 raise e)
       | _ =>
           Some (print ("[red]✗ Failed to download extension: " +:+ str_exn e +:+ "[/red]") ;;
                 raise e)
       end).

Definition use_existing_extension (extension_path : string) : M t string :=
  print ("[cyan]Using existing extension: " +:+ extension_path +:+ "[/cyan]") ;;
  self <- get ;;
  is_file <- invoke (path_is_file extension_path) ;;
  (if (is_file : bool) && String.eqb (path_suffix extension_path) ".zip" then
     print "[dim]Extracting zip file...[/dim]" ;;
     invoke (zip_extractall extension_path (extension_dir self))
   else
     is_dir <- invoke (path_is_dir extension_path) ;;
     if is_dir : bool then
       print "[dim]Copying extension directory...[/dim]" ;;
       invoke (shutil_copytree extension_path (extension_dir self))
     else
       raise (OtherException "ValueError" ("Invalid extension path: " +:+ extension_path))) ;;
  print "[green]✓[/green] Extension loaded" ;;
  ret (extension_dir self).

(** The text put in front of [popup.js]. *)
Definition credentials_injection (access_key secret_key token : string) : string :=
  unlines [ EmptyString;
            "// Auto-injected AWS credentials";
            "(function() {";
            "    const credentials = {";
            "        accessKeyId: '" +:+ access_key +:+ "',";
            "        secretAccessKey: '" +:+ secret_key +:+ "',";
            "        sessionToken: '" +:+ token +:+ "'";
            "    };";
            "    localStorage.setItem('keys', JSON.stringify(credentials));";
            "    console.log('AWS credentials auto-configured');";
            "})();";
            EmptyString ].

(** The script element put after the [<body>] tag of [popup.html]. *)
Definition credentials_script (access_key secret_key token : string) : string :=
  unlines [ "<script>";
            "// Auto-configure AWS credentials";
            "(function() {";
            "    const credentials = {";
            "        accessKeyId: '" +:+ access_key +:+ "',";
            "        secretAccessKey: '" +:+ secret_key +:+ "',";
            "        sessionToken: '" +:+ token +:+ "'";
            "    };";
            "    localStorage.setItem('keys', JSON.stringify(credentials));";
            "    console.log('AWS credentials configured from popup.html');";
            "})();";
            "</script>" ].

Definition configure_extension_credentials (credentials : gmap string string) : M t unit :=
  print "[cyan]Configuring extension with AWS credentials...[/cyan]" ;;
  self <- get ;;
  let manifest_path := path_join (extension_dir self) "manifest.json" in
  has_manifest <- invoke (path_exists manifest_path) ;;
  if negb has_manifest then
    print "[yellow]⚠ manifest.json not found, extension may not work[/yellow]"
  else
    manifest <- invoke (json_load manifest_path) ;;
    print ("[dim]Extension: " +:+ default "Unknown" (manifest_name manifest)
           +:+ " v" +:+ default "?" (manifest_version manifest) +:+ "[/dim]") ;;
    let popup_js_path := path_join (extension_dir self) "popup.js" in
    has_popup_js <- invoke (path_exists popup_js_path) ;;
    (if has_popup_js : bool then
       popup_js <- invoke (read_text popup_js_path) ;;
       access_key <- dict_item credentials "AccessKeyId" ;;
       secret_key <- dict_item credentials "SecretAccessKey" ;;
       token <- dict_item credentials "SessionToken" ;;
       invoke (write_text popup_js_path
                 (credentials_injection access_key secret_key token +:+ popup_js)) ;;
       print "[green]✓[/green] Credentials injected into popup.js"
     else ret tt) ;;
    let popup_html_path := path_join (extension_dir self) "popup.html" in
    has_popup_html <- invoke (path_exists popup_html_path) ;;
    (if has_popup_html : bool then
       popup_html <- invoke (read_text popup_html_path) ;;
       access_key <- dict_item credentials "AccessKeyId" ;;
       secret_key <- dict_item credentials "SecretAccessKey" ;;
       token <- dict_item credentials "SessionToken" ;;
       invoke (write_text popup_html_path
                 (str_replace popup_html "<body>"
                    ("<body>" +:+ nl +:+ credentials_script access_key secret_key token))) ;;
       print "[green]✓[/green] Credentials injected into popup.html"
     else ret tt) ;;
    print "[green]✓[/green] AWS credentials configured" ;;
    print "[dim]Credentials will be auto-loaded when extension starts[/dim]".

(** The entries that [package_extension] writes, in the order of the
    walk: every entry of every visited directory that is not itself a
    directory, named by its path relative to the extension directory. *)
Definition archive_entries (tree : list fsnode) : list (list string * string) :=
  flat_map (fun '(root, files) =>
              List.map (fun '(file, data) => ((root ++ [file])%list, data)) files)
           (walk (fun _ => true) tree).

Fixpoint write_entries {S} (zip top : string) (entries : list (list string * string))
  : M S unit :=
  match entries with
  | [] => ret tt
  | (components, _) :: rest =>
      invoke (zipfile_write zip (path_join top (arcname_of components))
                (arcname_of components)) ;;
      write_entries zip top rest
  end.

Definition package_extension `{Runtime} (output_path : option string) : M t string :=
  print "[cyan]Packaging extension...[/cyan]" ;;
  self <- get ;;
  output_path <- (match output_path with
                  | Some p => ret p
                  | None =>
                      timestamp <- invoke time_time ;;
                      ret ("bedrock-summary-extension-" +:+ pretty timestamp +:+ ".zip")
                  end) ;;
  invoke (zipfile_open output_path) ;;
  try_finally
    (tree <- invoke (os_walk (extension_dir self)) ;;
     write_entries output_path (extension_dir self) (archive_entries tree))
    (invoke (zipfile_close output_path)) ;;
  st_size <- invoke (path_stat_size output_path) ;;
  print ("[green]✓[/green] Extension packaged: " +:+ output_path) ;;
  print ("[dim]Size: " +:+ format_mb st_size +:+ " MB[/dim]") ;;
  (if exceeds_10_mb st_size then
     print "[yellow]⚠ Warning: Extension size exceeds 10 MB limit[/yellow]"
   else ret tt) ;;
  ret output_path.

Definition prepare_extension `{Runtime}
    (existing_extension : option string) (skip_credentials : bool) : M t string :=
  print (nl +:+ "[bold cyan]📦 Preparing Chrome Extension[/bold cyan]" +:+ nl) ;;
  (match existing_extension with
   | Some p => use_existing_extension p
   | None => download_extension_from_github
   end) ;;
  (if negb skip_credentials then
     credentials <- get_temporary_credentials 3600 ;;
     configure_extension_credentials credentials
   else
     print "[yellow]Skipping credential configuration[/yellow]") ;;
  zip_path <- package_extension None ;;
  print (nl +:+ "[green]✓ Extension preparation complete![/green]" +:+ nl) ;;
  ret zip_path.

End ExtensionSetup.

(** ** setup_bedrock_summary_extension.py: locating and packaging the build *)

Module BedrockSummaryExtensionSetup.

(** What a path below the repository directory leads to. *)
Inductive found : Type :=
| FoundFile (data : string)
| FoundDir (children : list fsnode).

Definition node_name (n : fsnode) : string :=
  match n with
  | File name _ => name
  | Dir name _ => name
  end.

Fixpoint resolve (nodes : list fsnode) (p : list string) : option found :=
  match p with
  | [] => Some (FoundDir nodes)
  | c :: p' =>
      match List.find (fun n => String.eqb (node_name n) c) nodes with
      | Some (File _ data) => match p' with [] => Some (FoundFile data) | _ => None end
      | Some (Dir _ children) => resolve children p'
      | None => None
      end
  end.

(** [(self.repo_dir / p).exists()], where [repo] is the content of the
    repository directory, or [None] when there is no such directory. *)
Definition exists_ (repo : option (list fsnode)) (p : list string) : bool :=
  match repo with
  | Some nodes => match resolve nodes p with Some _ => true | None => false end
  | None => false
  end.

Definition find_build_output (repo : option (list fsnode)) : list string :=
  let possible_dirs := [["dist"]; ["build"]; ["out"]; []] in
  match List.find (fun dir_path =>
                     exists_ repo dir_path
                     && exists_ repo (dir_path ++ ["manifest.json"])%list)
                  possible_dirs with
  | Some dir_path => dir_path
  | None => ["dist"]
  end.

(** [dirs[:] = [d for d in dirs if not d.startswith('.') and d != 'node_modules']] *)
Definition keep_dir (d : string) : bool :=
  negb (startswith d ".") && negb (String.eqb d "node_modules").

(** [file.startswith('.') or file.endswith('.map')] *)
Definition skip_file (file : string) : bool :=
  startswith file "." || endswith file ".map".

Definition archive_entries (tree : list fsnode) : list (list string * string) :=
  flat_map (fun '(root, files) =>
              omap (fun '(file, data) =>
                      if skip_file file then None
                      else Some ((root ++ [file])%list, data)) files)
           (walk keep_dir tree).

(** The archive that [package_extension] writes, or [None] when it
    gives up for want of [manifest.json]. *)
Definition package_extension (repo : option (list fsnode))
  : option (list (list string * string)) :=
  let build_dir := find_build_output repo in
  let build_dir := if negb (exists_ repo build_dir) then [] else build_dir in
  if negb (exists_ repo (build_dir ++ ["manifest.json"])%list) then None
  else
    match repo with
    | Some nodes =>
        match resolve nodes build_dir with
        | Some (FoundDir tree) => Some (archive_entries tree)
        | _ => Some []
        end
    | None => Some []
    end.

(** *** Installing the dependencies and building *)

Record t : Type := {
  work_dir : string;
  repo_dir : string
}.

Definition install_dependencies : M t bool :=
  print (nl +:+ "[bold cyan]📦 Installing Dependencies[/bold cyan]" +:+ nl) ;;
  print "[dim]Running: npm install[/dim]" ;;
  print ("[yellow]This may take a few minutes...[/yellow]" +:+ nl) ;;
  self <- get ;;
  try_except
    (invoke (subprocess_run ["npm"; "install"] (Some (repo_dir self))) ;;
     print (nl +:+ "[green]✓[/green] Dependencies installed successfully") ;;
     ret true)
    (fun e =>
       match e with
       | OtherException "CalledProcessError" _ =>
           Some (print (nl +:+ "[red]✗[/red] Failed to install dependencies: "
                        +:+ str_exn e) ;;
                 ret false)
       | _ => None
       end).

(** The double quote, and the texts that [inject_credentials_to_source]
    looks for and puts in. *)
Definition dq : string := String (ascii_of_nat 34) EmptyString.

(** [s.find(sub)] for a non-empty [sub]; [None] stands for -1. *)
Definition str_find (s sub : string) : option nat := String.index 0 sub s.

Definition old_body : string :=
  String.concat nl
    [ "body: JSON.stringify({";
      "      prompt,";
      "      max_tokens_to_sample: 8000,";
      "    })" ].

Definition new_body : string :=
  String.concat nl
    [ "body: JSON.stringify({";
      "      anthropic_version: " +:+ dq +:+ "bedrock-2023-05-31" +:+ dq +:+ ",";
      "      max_tokens: 4096,";
      "      messages: [{";
      "        role: " +:+ dq +:+ "user" +:+ dq +:+ ",";
      "        content: prompt.replace(/\n\nHuman: |\n\nAssistant:/g, '')";
      "      }]";
      "    })" ].

Definition old_parse : string :=
  String.concat nl
    [ "const jsonResult = JSON.parse(result);";
      "        callback && callback(jsonResult);" ].

Definition new_parse : string :=
  String.concat nl
    [ "const jsonResult = JSON.parse(result);";
      "        // Claude 3 returns content in messages format";
      "        if (jsonResult.content && jsonResult.content[0]) {";
      "          callback && callback({ completion: jsonResult.content[0].text });";
      "        } else {";
      "          callback && callback(jsonResult);";
      "        }" ].

Definition default_regex : string :=
  "<p>(.*?)</p>|<h[1-6]>(.*?)</h[1-6]>|<li>(.*?)</li>|<article>(.*?)</article>".

(** The text put in place of [if (currentHost) {]. *)
Definition default_rule : string :=
  String.concat nl
    [ "if (currentHost) {";
      "    // Auto-inject default rule if not exists";
      "    if (!localStorage.getItem(currentHost)) {";
      "      localStorage.setItem(currentHost, JSON.stringify({ regexp: '" +:+ default_regex +:+ "' }));";
      "      console.log('Default rule set for: ' + currentHost);";
      "    }" ].

(** The text put into [popup.js]. *)
Definition credentials_init (access_key secret_key token : string) : string :=
  unlines [ EmptyString;
            "// Auto-injected AWS credentials";
            "(function() {";
            "    const credentials = {";
            "        accessKeyId: '" +:+ access_key +:+ "',";
            "        secretAccessKey: '" +:+ secret_key +:+ "',";
            "        sessionToken: '" +:+ token +:+ "'";
            "    };";
            "    localStorage.setItem('keys', JSON.stringify(credentials));";
            "    console.log('AWS credentials auto-configured');";
            "})();";
            EmptyString ].

Definition inject_credentials_to_source (credentials : gmap string string) : M t unit :=
  print "[cyan]Injecting AWS credentials, default rule, and updating model...[/cyan]" ;;
  self <- get ;;
  let sdk_js_path := path_join (repo_dir self) "sdk.js" in
  has_sdk_js <- invoke (path_exists sdk_js_path) ;;
  (if has_sdk_js : bool then
     sdk_js <- invoke (read_text sdk_js_path) ;;
     let sdk_js := str_replace sdk_js
                     ("modelId: " +:+ dq +:+ "anthropic.claude-v2:1" +:+ dq)
                     ("modelId: " +:+ dq +:+ "anthropic.claude-3-haiku-20240307-v1:0" +:+ dq) in
     let sdk_js := str_replace sdk_js old_body new_body in
     let sdk_js := str_replace sdk_js old_parse new_parse in
     invoke (write_text sdk_js_path sdk_js) ;;
     print "[green]✓[/green] Updated to Claude 3 Haiku model"
   else ret tt) ;;
  let popup_js_path := path_join (repo_dir self) "popup.js" in
  has_popup_js <- invoke (path_exists popup_js_path) ;;
  if negb has_popup_js then
    print "[yellow]⚠ popup.js not found, skipping credential injection[/yellow]"
  else
    popup_js <- invoke (read_text popup_js_path) ;;
    let popup_js := str_replace popup_js
                      "regexp = currentSetting?.regexp || '';"
                      ("regexp = currentSetting?.regexp || '" +:+ default_regex +:+ "';") in
    let popup_js := str_replace popup_js "if (currentHost) {" default_rule in
    access_key <- dict_item credentials "AccessKeyId" ;;
    secret_key <- dict_item credentials "SecretAccessKey" ;;
    token <- dict_item credentials "SessionToken" ;;
    let credentials_init := credentials_init access_key secret_key token in
    let popup_js :=
      match str_find popup_js "let i = 0;" with
      | Some import_end =>
          if (0 <? import_end)%nat
          then substring 0 import_end popup_js +:+ credentials_init
               +:+ drop_chars import_end popup_js
          else credentials_init +:+ popup_js
      | None => credentials_init +:+ popup_js
      end in
    invoke (write_text popup_js_path popup_js) ;;
    print "[green]✓[/green] Credentials and default rule injected into popup.js source" ;;
    print "[dim]Default rule: <p>|<h1-6>|<li>|<article> - captures more content[/dim]" ;;
    print "[dim]Model: Claude 3 Haiku (faster and more reliable)[/dim]".

(** [credentials] is [None] or a dictionary; an empty dictionary is
    false in [if credentials:]. *)
Definition build_extension (credentials : option (gmap string string)) : M t bool :=
  print (nl +:+ "[bold cyan]🔨 Building Extension[/bold cyan]" +:+ nl) ;;
  (match credentials with
   | Some given =>
       if decide (given = ∅) then ret tt else inject_credentials_to_source given
   | None => ret tt
   end) ;;
  print ("[dim]Running: npm run build[/dim]" +:+ nl) ;;
  self <- get ;;
  try_except
    (invoke (subprocess_run ["npm"; "run"; "build"] (Some (repo_dir self))) ;;
     print (nl +:+ "[green]✓[/green] Extension built successfully") ;;
     ret true)
    (fun e =>
       match e with
       | OtherException "CalledProcessError" _ =>
           Some (print (nl +:+ "[red]✗[/red] Failed to build extension: " +:+ str_exn e) ;;
                 ret false)
       | _ => None
       end).

End BedrockSummaryExtensionSetup.

(** ** main.py *)

Module ExtensionDemo.

Definition DEFAULT_BUCKET : string := "browser-extension-demo-zihangh-20260129".

Record t : Type := {
  bucket_name : string;
  region : string;
  existing_extensions : list string;
  skip_credentials : bool;
  extension_zips : list string;
  s3_uris : list string;
  browser : option BrowserWithExtension.t
}.

Definition set_extension_zips (self : t) (v : list string) : t :=
  {| bucket_name := bucket_name self; region := region self;
     existing_extensions := existing_extensions self;
     skip_credentials := skip_credentials self;
     extension_zips := v; s3_uris := s3_uris self; browser := browser self |}.

Definition set_s3_uris (self : t) (v : list string) : t :=
  {| bucket_name := bucket_name self; region := region self;
     existing_extensions := existing_extensions self;
     skip_credentials := skip_credentials self;
     extension_zips := extension_zips self; s3_uris := v; browser := browser self |}.

Definition set_browser (self : t) (v : option BrowserWithExtension.t) : t :=
  {| bucket_name := bucket_name self; region := region self;
     existing_extensions := existing_extensions self;
     skip_credentials := skip_credentials self;
     extension_zips := extension_zips self; s3_uris := s3_uris self; browser := v |}.

Definition __init__ {S} (bucket_name region : option string)
    (existing_extensions : option (list string)) (skip_credentials : bool) : M S t :=
  bucket_name <- or_environ bucket_name "S3_BUCKET_NAME" DEFAULT_BUCKET ;;
  region <- or_environ region "AWS_REGION" "us-east-1" ;;
  ret {| bucket_name := bucket_name; region := region;
         existing_extensions := default [] existing_extensions;
         skip_credentials := skip_credentials;
         extension_zips := []; s3_uris := []; browser := None |}.

(** A method of the object in [self.browser]; what it does to that
    object stays, whether it returns or raises. *)
Definition on_browser {A} (m : M BrowserWithExtension.t A) : M t A :=
  fun self =>
    match browser self with
    | Some b => pbind (m b) (fun '(r, b') => Ret (r, set_browser self (Some b')))
    | None =>
        Ret (Raise (OtherException "AttributeError"
                      "'NoneType' object has no attribute"), self)
    end.

Definition print_header : M t unit :=
  print ("[bold cyan]AgentCore Browser + Chrome Extension Demo[/bold cyan]" +:+ nl
         +:+ "Load Chrome Extensions into AWS AgentCore Browser").

Definition check_prerequisites : M t bool :=
  print (nl +:+ "[bold cyan]🔍 Checking Prerequisites[/bold cyan]" +:+ nl) ;;
  permitted <- BrowserWithExtension.check_iam_permissions ;;
  if negb permitted then
    print (nl +:+ "[red]✗ AWS credentials not configured properly[/red]") ;;
    print (nl +:+ "[yellow]Please configure AWS credentials:[/yellow]") ;;
    print "  aws configure" ;;
    print "  or set AWS_ACCESS_KEY_ID/AWS_SECRET_ACCESS_KEY" ;;
    ret false
  else
    self <- get ;;
    print ("[green]✓[/green] AWS Region: " +:+ region self) ;;
    print ("[green]✓[/green] S3 Bucket: " +:+ bucket_name self) ;;
    match existing_extensions self with
    | [] =>
        print "[yellow]⚠[/yellow] No extensions specified" ;;
        print "[dim]Use --extension-zip to specify extensions[/dim]" ;;
        ret false
    | exts =>
        missing <- for_each exts (fun ext =>
          present <- invoke (path_exists ext) ;;
          if negb present then
            print ("[red]✗[/red] Extension file not found: " +:+ ext) ;;
            ret (Some false)
          else
            print ("[green]✓[/green] Using existing extension: " +:+ ext) ;;
            ret None) ;;
        match missing with
        | Some answer => ret answer
        | None =>
            print (nl +:+ "[green]✓ Prerequisites check complete![/green]" +:+ nl) ;;
            ret true
        end
    end.

Fixpoint prepare_each `{Runtime} (paths : list string) : M t unit :=
  match paths with
  | [] => ret tt
  | ext_path :: rest =>
      self <- get ;;
      setup <- ExtensionSetup.__init__ None ;;
      prepared <- on_object setup
                    (ExtensionSetup.prepare_extension (Some ext_path) (skip_credentials self)) ;;
      self <- get ;;
      put (set_extension_zips self (extension_zips self ++ [fst prepared])%list) ;;
      prepare_each rest
  end.

Definition prepare_extension `{Runtime} : M t bool :=
  try_except
    (self <- get ;;
     prepare_each (existing_extensions self) ;;
     ret true)
    (fun e =>
       if is_Exception e then
         Some (print (nl +:+ "[red]✗ Extension preparation failed: " +:+ str_exn e
                      +:+ "[/red]") ;;
               print ("[dim]" +:+ format_exc e +:+ "[/dim]") ;;
               ret false)
       else None).

Fixpoint upload_each `{Runtime} (manager : S3Manager.t) (zips : list string)
  : M t (option bool) :=
  match zips with
  | [] => ret None
  | extension_zip :: rest =>
      uploaded <- on_object manager (S3Manager.setup_and_upload extension_zip) ;;
      match fst uploaded with
      | Some s3_uri =>
          if truthy s3_uri then
            self <- get ;;
            put (set_s3_uris self (s3_uris self ++ [s3_uri])%list) ;;
            upload_each manager rest
          else ret (Some false)
      | None => ret (Some false)
      end
  end.

Definition upload_to_s3 `{Runtime} : M t bool :=
  try_except
    (self <- get ;;
     manager <- S3Manager.__init__ (bucket_name self) (Some (region self)) ;;
     stopped <- upload_each manager (extension_zips self) ;;
     match stopped with
     | Some answer => ret answer
     | None =>
         wanted <- invoke (confirm_ask
                             (nl +:+ "[cyan]Clean up old extension versions?[/cyan]") false) ;;
         (if wanted : bool then
            on_object manager (S3Manager.cleanup_old_extensions 3) ;; ret tt
          else ret tt) ;;
         ret true
     end)
    (fun e =>
       if is_Exception e then
         Some (print (nl +:+ "[red]✗ S3 upload failed: " +:+ str_exn e +:+ "[/red]") ;;
               print ("[dim]" +:+ format_exc e +:+ "[/dim]") ;;
               ret false)
       else None).

Definition create_browser `{Runtime} : M t bool :=
  try_except
    (self <- get ;;
     created <- BrowserWithExtension.__init__ (Some (region self)) ;;
     put (set_browser self (Some created)) ;;
     self <- get ;;
     on_browser (BrowserWithExtension.create_browser_session (s3_uris self) None) ;;
     on_browser BrowserWithExtension.verify_extension_loaded ;;
     ret true)
    (fun e =>
       if is_Exception e then
         Some (print (nl +:+ "[red]✗ Browser creation failed: " +:+ str_exn e +:+ "[/red]") ;;
               print ("[dim]" +:+ format_exc e +:+ "[/dim]") ;;
               ret false)
       else None).

Definition test_extension : M t bool :=
  print (nl +:+ "[bold cyan]🧪 Testing Extension[/bold cyan]" +:+ nl) ;;
  self <- get ;;
  match browser self with
  | None =>
      print "[red]✗[/red] No active browser session" ;;
      ret false
  | Some _ =>
      success <- on_browser
                   (BrowserWithExtension.test_extension_functionality "https://aws.amazon.com") ;;
      (if success : bool then
         print (nl +:+ "[green]✓ Extension test complete![/green]") ;;
         print (nl +:+ "[bold yellow]Next Steps:[/bold yellow]") ;;
         print "  1. Open the browser session in AWS Console" ;;
         print "  2. Look for the extension icon in the toolbar" ;;
         print "  3. Click the extension to configure AWS credentials" ;;
         print "  4. Try summarizing a web page" ;;
         if negb (skip_credentials self) then
           print (nl +:+ "[cyan]AWS Credentials (from aws_config.json):[/cyan]") ;;
           print "  • Access Key ID: [configured]" ;;
           print "  • Secret Access Key: [configured]" ;;
           print "  • Session Token: [configured]" ;;
           print "  • Valid for: 1 hour"
         else ret tt
       else ret tt) ;;
      ret success
  end.

Definition rule : string := String.concat EmptyString (List.repeat "=" 60).

Definition print_summary : M t unit :=
  print (nl +:+ rule) ;;
  print ("[bold cyan]📊 Demo Summary[/bold cyan]" +:+ nl) ;;
  self <- get ;;
  (match extension_zips self with
   | [] => ret tt
   | zips =>
       print ("[green]✓[/green] Extensions (" +:+ pretty (List.length zips) +:+ "):") ;;
       print_numbered 1 zips
   end) ;;
  (match s3_uris self with
   | [] => ret tt
   | uris =>
       print (nl +:+ "[green]✓[/green] S3 URIs (" +:+ pretty (List.length uris) +:+ "):") ;;
       print_numbered 1 uris
   end) ;;
  (match browser self with
   | Some b =>
       match BrowserWithExtension.session_id b with
       | Some sid =>
           if truthy sid then
             print (nl +:+ "[green]✓[/green] Browser Session: " +:+ sid) ;;
             print ("[dim]Console: https://console.aws.amazon.com/agentcore/home?region="
                    +:+ region self +:+ "#/browsers[/dim]")
           else ret tt
       | None => ret tt
       end
   | None => ret tt
   end) ;;
  print (nl +:+ rule +:+ nl).

Definition cleanup : M t unit :=
  print (nl +:+ "[cyan]🧹 Cleaning up...[/cyan]") ;;
  self <- get ;;
  (match browser self with
   | Some _ => on_browser BrowserWithExtension.close_session
   | None => ret tt
   end) ;;
  print ("[green]✓ Cleanup complete[/green]" +:+ nl).

(** The statements between [try:] and the [except] clauses of [run]. *)
Definition run_steps `{Runtime} (prepare_only : bool) : M t Z :=
  ready <- check_prerequisites ;;
  if negb ready then ret 1 else
  prepared <- prepare_extension ;;
  if negb prepared then ret 1 else
  uploaded <- upload_to_s3 ;;
  if negb uploaded then ret 1 else
  if prepare_only then
    print (nl +:+ "[yellow]Prepare-only mode: Skipping browser creation[/yellow]") ;;
    print (nl +:+ "[green]Extensions ready at:[/green]") ;;
    self <- get ;;
    print_numbered 1 (s3_uris self) ;;
    print (nl +:+ "You can now use these S3 URIs to create a browser session") ;;
    ret 0
  else
  created <- create_browser ;;
  if negb created then ret 1 else
  test_extension ;;
  print_summary ;;
  print "[yellow]Browser session is active[/yellow]" ;;
  print ("[dim]Press Ctrl+C to close and exit[/dim]" +:+ nl) ;;
  try_except
    (invoke (input "Press Enter to close browser session...") ;; ret tt)
    (fun e =>
       match e with
       | KeyboardInterrupt => Some (print (nl +:+ "[yellow]Interrupted[/yellow]"))
       | _ => None
       end) ;;
  ret 0.

(** The [try] statement of [run] without its [finally] clause.  The
    text that [traceback.print_exc()] writes to the error stream is
    recorded with the console lines. *)
Definition run_guarded `{Runtime} (prepare_only : bool) : M t Z :=
  try_except (run_steps prepare_only)
    (fun e =>
       match e with
       | KeyboardInterrupt =>
           Some (print (nl +:+ "[yellow]Interrupted by user[/yellow]") ;;
                 ret 130)
       | _ =>
           Some (print (nl +:+ "[bold red]Unexpected error:[/bold red] " +:+ str_exn e) ;;
                 print (format_exc e) ;;
                 ret 1)
       end).

Definition run `{Runtime} (prepare_only : bool) : M t Z :=
  print_header ;;
  try_finally (run_guarded prepare_only) cleanup.

(** The command line after [argparse]. *)
Record arguments : Type := {
  arg_bucket : option string;
  arg_region : option string;
  arg_extension_zips : option (list string);
  arg_prepare_only : bool;
  arg_skip_credentials : bool
}.

(** [main]: the value is the argument of [sys.exit]. *)
Definition main `{Runtime} (args : arguments) : M unit Z :=
  demo <- __init__ (arg_bucket args) (arg_region args) (arg_extension_zips args)
            (arg_skip_credentials args) ;;
  code <- on_object demo (run (arg_prepare_only args)) ;;
  ret (fst code).

End ExtensionDemo.

(** The status with which the interpreter ends: the argument of
    [sys.exit], 130 for a [KeyboardInterrupt] that nothing caught, 1 for
    any other exception that nothing caught. *)
Definition exit_status (r : result Z) : Z :=
  match r with
  | Ok code => code
  | Raise KeyboardInterrupt => 130
  | Raise _ => 1
  end.

(** ** A small environment to run the scripts in

    One account's view of the services and of the local disk, with a
    switch to make any call fail.  It serves the examples; the theorems
    below hold for every environment. *)

Module Cloud.

Record world : Type := {
  signed_in : bool;
  buckets : gmap string bool;          (* [true]: the caller's own bucket *)
  objects : gmap (string * string) Z;  (* size of each stored object *)
  files : gmap string Z;               (* size of each local file *)
  archives : gmap string (list fsnode);(* content of each local zip file *)
  trees : gmap string (list fsnode);   (* content of each local directory *)
  sessions : list string;
  started : nat;
  clock : Z;
  fault : call -> option exn
}.

Definition with_buckets (w : world) (v : gmap string bool) : world :=
  {| signed_in := signed_in w; buckets := v; objects := objects w; files := files w;
     archives := archives w; trees := trees w; sessions := sessions w;
     started := started w; clock := clock w; fault := fault w |}.

Definition with_objects (w : world) (v : gmap (string * string) Z) : world :=
  {| signed_in := signed_in w; buckets := buckets w; objects := v; files := files w;
     archives := archives w; trees := trees w; sessions := sessions w;
     started := started w; clock := clock w; fault := fault w |}.

Definition with_disk (w : world) (f : gmap string Z) (a t : gmap string (list fsnode))
  : world :=
  {| signed_in := signed_in w; buckets := buckets w; objects := objects w; files := f;
     archives := a; trees := t; sessions := sessions w;
     started := started w; clock := clock w; fault := fault w |}.

Definition with_sessions (w : world) (v : list string) (n : nat) : world :=
  {| signed_in := signed_in w; buckets := buckets w; objects := objects w;
     files := files w; archives := archives w; trees := trees w; sessions := v;
     started := n; clock := clock w; fault := fault w |}.

Definition with_clock (w : world) (v : Z) : world :=
  {| signed_in := signed_in w; buckets := buckets w; objects := objects w;
     files := files w; archives := archives w; trees := trees w;
     sessions := sessions w; started := started w; clock := v; fault := fault w |}.

Definition no_credentials {A} : result A :=
  Raise (OtherException "NoCredentialsError" "Unable to locate credentials").

Definition answer (c : call) (w : world) : result (payload c) * world :=
  match c return result (payload c) * world with
  | sts_get_caller_identity =>
      if signed_in w
      then (Ok {| Account := "123456789012";
                  Arn := "arn:aws:iam::123456789012:user/demo" |}, w)
      else (no_credentials, w)
  | sts_get_session_token _ =>
      if signed_in w
      then (Ok {| AccessKeyId := "ASIAEXAMPLE"; SecretAccessKey := "secret";
                  SessionToken := "token"; Expiration := "2026-01-29 12:00:00+00:00" |}, w)
      else (no_credentials, w)
  | s3_head_bucket b =>
      match buckets w !! b with
      | Some true => (Ok tt, w)
      | Some false => (Raise (ClientError "403" "Forbidden"), w)
      | None => (Raise (ClientError "404" "Not Found"), w)
      end
  | s3_create_bucket b _ =>
      match buckets w !! b with
      | Some true => (Raise (ClientError "BucketAlreadyOwnedByYou" "already owned"), w)
      | Some false => (Raise (ClientError "BucketAlreadyExists" "name taken"), w)
      | None => (Ok tt, with_buckets w (<[b := true]> (buckets w)))
      end
  | s3_upload_file filename b k _ =>
      match files w !! filename, buckets w !! b with
      | Some size, Some true => (Ok tt, with_objects w (<[(b, k) := size]> (objects w)))
      | None, _ => (Raise (OtherException "FileNotFoundError" filename), w)
      | _, Some false => (Raise (ClientError "AccessDenied" "Access Denied"), w)
      | _, None => (Raise (ClientError "NoSuchBucket" "no such bucket"), w)
      end
  | s3_head_object b k =>
      match objects w !! (b, k) with
      | Some size => (Ok {| ContentLength := size;
                            LastModified := "2026-01-29 11:00:00+00:00" |}, w)
      | None => (Raise (ClientError "404" "Not Found"), w)
      end
  | s3_list_objects_v2 b prefix =>
      let keys := List.filter (fun k => startswith k prefix)
                    (List.map snd (List.filter (fun bk => String.eqb (fst bk) b)
                                     (List.map fst (map_to_list (objects w))))) in
      (Ok (match keys with [] => None | _ => Some keys end), w)
  | s3_delete_object b k =>
      (Ok tt, with_objects w (delete (b, k) (objects w)))
  | agentcore_start_browser_session _ _ _ _ =>
      let sid := "session-" +:+ pretty (started w) in
      (Ok sid, with_sessions w (sid :: sessions w) (Datatypes.S (started w)))
  | agentcore_stop_browser_session sid =>
      if existsb (String.eqb sid) (sessions w)
      then (Ok tt, with_sessions w
                     (List.filter (fun s => negb (String.eqb sid s)) (sessions w))
                     (started w))
      else (Raise (ClientError "ResourceNotFoundException" "no such session"), w)
  | boto3_client _ _ => (Ok tt, w)
  | os_environ_get _ => (Ok None, w)
  | time_time => (Ok (clock w), with_clock w (clock w + 1))
  | tempfile_mkdtemp prefix => (Ok ("/tmp/" +:+ prefix +:+ pretty (clock w)), w)
  | path_exists p =>
      (Ok (bool_decide (is_Some (files w !! p)) || bool_decide (is_Some (trees w !! p))), w)
  | path_is_file p => (Ok (bool_decide (is_Some (files w !! p))), w)
  | path_is_dir p => (Ok (bool_decide (is_Some (trees w !! p))), w)
  | path_stat_size p =>
      match files w !! p with
      | Some size => (Ok size, w)
      | None => (Raise (OtherException "FileNotFoundError" p), w)
      end
  | read_text p => (Raise (OtherException "FileNotFoundError" p), w)
  | write_text _ _ => (Ok tt, w)
  | json_load p => (Raise (OtherException "FileNotFoundError" p), w)
  | zip_extractall archive dest =>
      match archives w !! archive with
      | Some content => (Ok tt, with_disk w (files w) (archives w) (<[dest := content]> (trees w)))
      | None => (Raise (OtherException "BadZipFile" "File is not a zip file"), w)
      end
  | shutil_copytree src dst =>
      match trees w !! src with
      | Some content => (Ok tt, with_disk w (files w) (archives w) (<[dst := content]> (trees w)))
      | None => (Raise (OtherException "FileNotFoundError" src), w)
      end
  | os_walk top => (Ok (default [] (trees w !! top)), w)
  | zipfile_open p =>
      (Ok tt, with_disk w (<[p := 22]> (files w)) (<[p := []]> (archives w)) (trees w))
  | zipfile_write zip _ arcname =>
      (Ok tt, with_disk w (<[zip := default 0 (files w !! zip) + 100]> (files w))
                (<[zip := (default [] (archives w !! zip) ++ [File arcname EmptyString])%list]>
                   (archives w))
                (trees w))
  | zipfile_close _ => (Ok tt, w)
  | subprocess_run _ _ => (Raise (OtherException "FileNotFoundError" "git"), w)
  | confirm_ask _ default => (Ok default, w)
  | input _ => (Ok EmptyString, w)
  end.

(** The environment: an injected fault first, the service otherwise. *)
Definition respond : handler world :=
  fun c w =>
    match fault w c with
    | Some e => (Raise e, w)
    | None => answer c w
    end.

Definition empty : world :=
  {| signed_in := true; buckets := ∅; objects := ∅; files := ∅; archives := ∅;
     trees := ∅; sessions := []; started := 0; clock := 1769684400;
     fault := fun _ => None |}.

Definition with_fault (w : world) (f : call -> option exn) : world :=
  {| signed_in := signed_in w; buckets := buckets w; objects := objects w;
     files := files w; archives := archives w; trees := trees w;
     sessions := sessions w; started := started w; clock := clock w; fault := f |}.

End Cloud.

(** A runtime for the examples: [format_mb] rounds the exact quotient
    to two decimals, halves to the even neighbour. *)
Definition two_decimals (n : Z) : string :=
  let scaled := n * 100 in
  let q := scaled / 1048576 in
  let r := scaled mod 1048576 in
  let q := if 1048576 <? 2 * r then q + 1
           else if (2 * r =? 1048576) && Z.odd q then q + 1
           else q in
  pretty (q / 100) +:+ "." +:+ pretty (q mod 100 / 10) +:+ pretty (q mod 10).

#[export] Instance example_runtime : Runtime := {|
  format_mb := two_decimals;
  format_exc := fun e => "Traceback (most recent call last):" +:+ nl +:+ str_exn e
|}.

(** ** Reading the outcome of a run *)

Section Outcome.
Context {W S A : Type}.
Implicit Type x : (result A * S) * W * list event.

Definition returned x : result A := fst (fst (fst x)).
Definition self_after x : S := snd (fst (fst x)).
Definition world_after x : W := snd (fst x).
Definition trace x : list event := snd x.
End Outcome.

(** [c in s] for a character. *)
Fixpoint has_char (c : ascii) (s : string) : bool :=
  match s with
  | EmptyString => false
  | String a s' => Ascii.eqb a c || has_char c s'
  end.

(** The request that [create_bucket] sends for its bucket. *)
Definition create_request (self : S3Manager.t) : call :=
  if String.eqb (S3Manager.region self) "us-east-1"
  then s3_create_bucket (S3Manager.bucket_name self) None
  else s3_create_bucket (S3Manager.bucket_name self) (Some (S3Manager.region self)).

(** The service tells the caller that the bucket is the caller's own:
    the existence check succeeds, or it misses the bucket and the
    creation request is then refused with [BucketAlreadyOwnedByYou]. *)
Definition reports_owned {W} (h : handler W) (self : S3Manager.t) (w : W) : bool :=
  let head := h (s3_head_bucket (S3Manager.bucket_name self)) w in
  match fst head with
  | Ok _ => true
  | Raise (ClientError code _) =>
      String.eqb code "404"
      && match fst (h (create_request self) (snd head)) with
         | Raise (ClientError refusal _) => String.eqb refusal "BucketAlreadyOwnedByYou"
         | _ => false
         end
  | Raise _ => false
  end.

(** Nothing for [close_session] to stop: no session is recorded as
    active, or the service refuses the stop request with an error (the
    session does not exist there, or has been closed already). *)
Definition nothing_to_stop {W} (h : handler W) (self : BrowserWithExtension.t) (w : W)
  : bool :=
  match BrowserWithExtension.active_session self with
  | None => true
  | Some sid =>
      match fst (h (agentcore_stop_browser_session sid) w) with
      | Ok _ => false
      | Raise e => is_Exception e
      end
  end.



(** The entries of a walk that prunes the directories rejected by
    [keep] and passes over the files selected by [skip]; [passes]
    tells whether a relative path gets through both. *)
Section FilteredWalk.
Variables (keep skip : string -> bool).



End FilteredWalk.

(** ** The stages of the orchestrator *)

Inductive stage : Type :=
| Prerequisites
| Prepare
| Upload
| CreateBrowser
| TestExtension.

#[export] Instance stage_eq_dec : EqDecision stage.
Proof. solve_decision. Defined.

Definition stage_method `{Runtime} (s : stage) : M ExtensionDemo.t bool :=
  match s with
  | Prerequisites => ExtensionDemo.check_prerequisites
  | Prepare => ExtensionDemo.prepare_extension
  | Upload => ExtensionDemo.upload_to_s3
  | CreateBrowser => ExtensionDemo.create_browser
  | TestExtension => ExtensionDemo.test_extension
  end.

(** The stage that [run] enters after a stage that returned [True]. *)
Definition next_stage (prepare_only : bool) (s : stage) : option stage :=
  match s with
  | Prerequisites => Some Prepare
  | Prepare => Some Upload
  | Upload => if prepare_only then None else Some CreateBrowser
  | CreateBrowser => Some TestExtension
  | TestExtension => None
  end.

(** [reaches h prepare_only self w s self' w' t]: started on [self] in
    the world [w], the steps of [run] enter stage [s] with the fields
    [self'], in the world [w'], after the events [t]; every stage
    before [s] has returned [True]. *)
Inductive reaches {W} `{Runtime} (h : handler W) (prepare_only : bool)
    (self : ExtensionDemo.t) (w : W)
  : stage -> ExtensionDemo.t -> W -> list event -> Prop :=
| reaches_first : reaches h prepare_only self w Prerequisites self w []
| reaches_next s s' self1 w1 t1 :
    reaches h prepare_only self w s self1 w1 t1 ->
    next_stage prepare_only s = Some s' ->
    returned (exec h (stage_method s self1) w1) = Ok true ->
    reaches h prepare_only self w s'
      (self_after (exec h (stage_method s self1) w1))
      (world_after (exec h (stage_method s self1) w1))
      (t1 ++ trace (exec h (stage_method s self1) w1)).

(** The steps of [run] from a stage on. *)
Definition steps_from `{Runtime} (prepare_only : bool) (s : stage) : M ExtensionDemo.t Z :=
  let from_test : M ExtensionDemo.t Z :=
    (ExtensionDemo.test_extension ;;
     ExtensionDemo.print_summary ;;
     print "[yellow]Browser session is active[/yellow]" ;;
     print ("[dim]Press Ctrl+C to close and exit[/dim]" +:+ nl) ;;
     try_except
       (invoke (input "Press Enter to close browser session...") ;; ret tt)
       (fun e =>
          match e with
          | KeyboardInterrupt => Some (print (nl +:+ "[yellow]Interrupted[/yellow]"))
          | _ => None
          end) ;;
     ret 0)%py in
  let from_create : M ExtensionDemo.t Z :=
    (created <- ExtensionDemo.create_browser ;;
     if negb created then ret 1 else from_test)%py in
  let from_upload : M ExtensionDemo.t Z :=
    (uploaded <- ExtensionDemo.upload_to_s3 ;;
     if negb uploaded then ret 1 else
     if prepare_only then
       print (nl +:+ "[yellow]Prepare-only mode: Skipping browser creation[/yellow]") ;;
       print (nl +:+ "[green]Extensions ready at:[/green]") ;;
       self <- get ;;
       print_numbered 1 (ExtensionDemo.s3_uris self) ;;
       print (nl +:+ "You can now use these S3 URIs to create a browser session") ;;
       ret 0
     else from_create)%py in
  let from_prepare : M ExtensionDemo.t Z :=
    (prepared <- ExtensionDemo.prepare_extension ;;
     if negb prepared then ret 1 else from_upload)%py in
  match s with
  | Prerequisites =>
      (ready <- ExtensionDemo.check_prerequisites ;;
       if negb ready then ret 1 else from_prepare)%py
  | Prepare => from_prepare
  | Upload => from_upload
  | CreateBrowser => from_create
  | TestExtension => from_test
  end.

(** What [run] makes of a stage that did not return [True]: the exit
    code it returns, and the lines its [except] clauses print. *)
Definition failure_code (r : result bool) : Z :=
  match r with
  | Ok _ => 1
  | Raise KeyboardInterrupt => 130
  | Raise _ => 1
  end.

Definition failure_report `{Runtime} (r : result bool) : list event :=
  match r with
  | Ok _ => []
  | Raise KeyboardInterrupt =>
      [Printed (nl +:+ "[yellow]Interrupted by user[/yellow]")]
  | Raise e =>
      [Printed (nl +:+ "[bold red]Unexpected error:[/bold red] " +:+ str_exn e);
       Printed (format_exc e)]
  end.

(** The request that [cleanup] sends: the stop of the session that the
    browser object records as active, if there is one. *)
Definition cleanup_request (self : ExtensionDemo.t) : list call :=
  match ExtensionDemo.browser self with
  | Some b =>
      match BrowserWithExtension.active_session b with
      | Some sid => [agentcore_stop_browser_session sid]
      | None => []
      end
  | None => []
  end.

(** ** Example inputs *)

Definition demo_bucket : S3Manager.t :=
  {| S3Manager.bucket_name := "browser-extension-demo"; S3Manager.region := "us-east-1" |}.

Definition shared_bucket : S3Manager.t :=
  {| S3Manager.bucket_name := "shared-assets"; S3Manager.region := "eu-west-1" |}.

(** The content of an extension as it comes out of its archive. *)
Definition unpacked_extension : list fsnode :=
  [ File "manifest.json" "{}";
    File ".env" "AWS_PROFILE=demo";
    Dir "js" [File "popup.js" "let i = 0;"; File "popup.js.map" "{}"];
    Dir "node_modules" [Dir "left-pad" [File "index.js" "module.exports = 0;"]];
    Dir ".git" [File "HEAD" "ref: refs/heads/main"] ].

(** A packaged extension on disk, the caller's bucket, and a bucket of
    another account. *)
Definition office : Cloud.world :=
  Cloud.with_buckets
    (Cloud.with_disk Cloud.empty
       (<["stealth-extension.zip" := 1572864]> ∅)
       (<["stealth-extension.zip" := unpacked_extension]> ∅)
       ∅)
    (<["browser-extension-demo" := true]> (<["shared-assets" := false]> ∅)).

(** The same, with an existence check that misses the caller's bucket. *)
Definition office_with_late_bucket : Cloud.world :=
  Cloud.with_fault office
    (fun c => match c with
              | s3_head_bucket _ => Some (ClientError "404" "Not Found")
              | _ => None
              end).

(** The same, with the connection lost when the object is looked up. *)
Definition office_offline_at_verification : Cloud.world :=
  Cloud.with_fault office
    (fun c => match c with
              | s3_head_object _ _ =>
                  Some (OtherException "EndpointConnectionError"
                          "Could not connect to the endpoint URL")
              | _ => None
              end).

(** The same, with the object lookup refused by the service. *)
Definition office_denied_at_verification : Cloud.world :=
  Cloud.with_fault office
    (fun c => match c with
              | s3_head_object _ _ => Some (ClientError "403" "Forbidden")
              | _ => None
              end).

(** A browser object right after [__init__], and one that still
    records a session which the service no longer knows. *)
Definition idle_browser : BrowserWithExtension.t :=
  {| BrowserWithExtension.region := "us-east-1";
     BrowserWithExtension.browser_session := None;
     BrowserWithExtension.session_id := None |}.

Definition stale_browser : BrowserWithExtension.t :=
  {| BrowserWithExtension.region := "us-east-1";
     BrowserWithExtension.browser_session :=
       Some {| BrowserWithExtension.info_session_id := "session-7";
               BrowserWithExtension.info_session_name := "extension-demo-1769680000";
               BrowserWithExtension.info_region := "us-east-1" |};
     BrowserWithExtension.session_id := Some "session-7" |}.

Definition setup_in_tmp : ExtensionSetup.t :=
  {| ExtensionSetup.work_dir := "/tmp/extension_1";
     ExtensionSetup.extension_dir := "/tmp/extension_1/extension" |}.

(** The demo object of a command line without [--extension-zip], and
    one that is told to use a bucket of another account. *)
Definition demo_without_extensions : ExtensionDemo.t :=
  {| ExtensionDemo.bucket_name := "browser-extension-demo";
     ExtensionDemo.region := "us-east-1";
     ExtensionDemo.existing_extensions := [];
     ExtensionDemo.skip_credentials := false;
     ExtensionDemo.extension_zips := [];
     ExtensionDemo.s3_uris := [];
     ExtensionDemo.browser := None |}.

Definition demo_on_shared_bucket : ExtensionDemo.t :=
  {| ExtensionDemo.bucket_name := "shared-assets";
     ExtensionDemo.region := "us-east-1";
     ExtensionDemo.existing_extensions := ["stealth-extension.zip"];
     ExtensionDemo.skip_credentials := true;
     ExtensionDemo.extension_zips := [];
     ExtensionDemo.s3_uris := [];
     ExtensionDemo.browser := None |}.

Definition demo_on_own_bucket : ExtensionDemo.t :=
  {| ExtensionDemo.bucket_name := "browser-extension-demo";
     ExtensionDemo.region := "us-east-1";
     ExtensionDemo.existing_extensions := ["stealth-extension.zip"];
     ExtensionDemo.skip_credentials := true;
     ExtensionDemo.extension_zips := [];
     ExtensionDemo.s3_uris := [];
     ExtensionDemo.browser := None |}.

(** The office, with Ctrl+C pressed while the browser session starts. *)
Definition office_interrupted_at_start : Cloud.world :=
  Cloud.with_fault office
    (fun c => match c with
              | agentcore_start_browser_session _ _ _ _ => Some KeyboardInterrupt
              | _ => None
              end).

Definition no_arguments : ExtensionDemo.arguments :=
  {| ExtensionDemo.arg_bucket := None;
     ExtensionDemo.arg_region := None;
     ExtensionDemo.arg_extension_zips := None;
     ExtensionDemo.arg_prepare_only := false;
     ExtensionDemo.arg_skip_credentials := false |}.

(** ** What a program does in every environment

    [holds allowed post p]: whatever the environment answers, [p] only
    makes calls that satisfy [allowed], and what it delivers satisfies
    [post]. *)
Fixpoint holds {A} (allowed : call -> Prop) (post : A -> Prop) (p : prog A) : Prop :=
  match p with
  | Ret a => post a
  | Print _ k => holds allowed post k
  | Call c k => allowed c /\ forall r, holds allowed post (k r)
  end.

(** ** Notions used by the further properties *)

(** The service that a call goes to. *)
Inductive service : Type :=
| Sts
| S3
| Browser
| Local.

Definition service_of (c : call) : service :=
  match c with
  | sts_get_caller_identity | sts_get_session_token _ => Sts
  | s3_head_bucket _ | s3_create_bucket _ _ | s3_upload_file _ _ _ _
  | s3_head_object _ _ | s3_list_objects_v2 _ _ | s3_delete_object _ _ => S3
  | agentcore_start_browser_session _ _ _ _ | agentcore_stop_browser_session _ => Browser
  | _ => Local
  end.

(** A request together with an answer to it. *)
Definition exchange : Type := { c : call & result (payload c) }.

Definition answered (c : call) (r : result (payload c)) : exchange := existT c r.

(** [follows h w script]: asked the requests of [script] one after the
    other from the world [w] on, the environment gives the answers of
    [script]. *)
Fixpoint follows {W} (h : handler W) (w : W) (script : list exchange) : Prop :=
  match script with
  | [] => True
  | existT c r :: rest => fst (h c w) = r /\ follows h (snd (h c w)) rest
  end.

(** The files that a run wrote, in order. *)
Definition written_paths (t : list event) : list string :=
  omap (fun c => match c with write_text p _ => Some p | _ => None end) (calls_of t).

(** [sub in s] for a non-empty [sub]. *)
Fixpoint occurs (sub s : string) : bool :=
  match s with
  | EmptyString => false
  | String _ s' => String.prefix sub s || occurs sub s'
  end.

(** No key of a list exceeds a key before it. *)
Definition descending (l : list string) : Prop :=
  StronglySorted (fun a b => String.leb b a = true) l.

(** The two fields of a browser object that describe its session go
    together: both unset, or both set with the same identifier. *)
Definition in_step (b : BrowserWithExtension.t) : bool :=
  match BrowserWithExtension.browser_session b, BrowserWithExtension.session_id b with
  | Some info, Some sid => String.eqb (BrowserWithExtension.info_session_id info) sid
  | None, None => true
  | _, _ => false
  end.

(** The key and the locator under which [upload_extension] stores a
    file when it is given no key. *)
Definition object_key_of (extension_path : string) : string :=
  "extensions/" +:+ path_name extension_path.

Definition locator_of (bucket extension_path : string) : string :=
  "s3://" +:+ bucket +:+ "/" +:+ object_key_of extension_path.

(** What [install_dependencies] and [build_extension] make of the
    answer to their [npm] command. *)
Definition npm_outcome (answer : result unit) : result bool :=
  match answer with
  | Ok _ => Ok true
  | Raise (OtherException class message) =>
      if String.eqb class "CalledProcessError" then Ok false
      else Raise (OtherException class message)
  | Raise e => Raise e
  end.

(** ** A developer's machine

    The environment of [Cloud], with text files that can be read and
    written, manifests, and programs that can be run. *)

Module Workstation.

Record world : Type := {
  cloud : Cloud.world;
  texts : gmap string string;        (* content of each text file *)
  manifests : gmap string manifest;  (* what [json.load] reads from each file *)
  installed : list string;           (* programs on the search path *)
  failing : list (list string)       (* command lines that exit with an error *)
}.

Definition with_cloud (w : world) (v : Cloud.world) : world :=
  {| cloud := v; texts := texts w; manifests := manifests w;
     installed := installed w; failing := failing w |}.

Definition with_texts (w : world) (v : gmap string string) : world :=
  {| cloud := cloud w; texts := v; manifests := manifests w;
     installed := installed w; failing := failing w |}.

Definition respond : handler world :=
  fun c w =>
    match c as c0 return result (payload c0) * world with
    | path_exists p =>
        (Ok (bool_decide (is_Some (texts w !! p))
             || bool_decide (is_Some (manifests w !! p))
             || bool_decide (is_Some (Cloud.files (cloud w) !! p))
             || bool_decide (is_Some (Cloud.trees (cloud w) !! p))), w)
    | read_text p =>
        match texts w !! p with
        | Some text => (Ok text, w)
        | None => (Raise (OtherException "FileNotFoundError" p), w)
        end
    | write_text p text => (Ok tt, with_texts w (<[p := text]> (texts w)))
    | json_load p =>
        match manifests w !! p with
        | Some m => (Ok m, w)
        | None => (Raise (OtherException "FileNotFoundError" p), w)
        end
    | subprocess_run args _ =>
        if negb (bool_decide (List.hd EmptyString args ∈ installed w))
        then (Raise (OtherException "FileNotFoundError" (List.hd EmptyString args)), w)
        else if bool_decide (args ∈ failing w)
        then (Raise (OtherException "CalledProcessError"
                       "Command returned non-zero exit status 1."), w)
        else (Ok tt, w)
    | c0 => let '(r, v) := Cloud.respond c0 (cloud w) in (r, with_cloud w v)
    end.

End Workstation.

(** ** Further example inputs *)

(** The caller's bucket with five uploaded versions of an extension,
    one of which the service refuses to delete. *)
Definition office_with_versions : Cloud.world :=
  Cloud.with_fault
    (Cloud.with_objects office
       (<[("browser-extension-demo", "extensions/ext-1769684100.zip") := 4096]>
        (<[("browser-extension-demo", "extensions/ext-1769684500.zip") := 4096]>
         (<[("browser-extension-demo", "extensions/ext-1769684200.zip") := 4096]>
          (<[("browser-extension-demo", "extensions/ext-1769684400.zip") := 4096]>
           (<[("browser-extension-demo", "extensions/ext-1769684300.zip") := 4096]>
            (<[("browser-extension-demo", "notes.txt") := 12]> ∅)))))))
    (fun c => match c with
              | s3_delete_object _ "extensions/ext-1769684200.zip" =>
                  Some (ClientError "AccessDenied" "Access Denied")
              | _ => None
              end).

(** The demo object after the preparation of one extension. *)
Definition demo_with_archive : ExtensionDemo.t :=
  ExtensionDemo.set_extension_zips demo_on_own_bucket ["stealth-extension.zip"].

(** A repository whose build went to [build/], with a stale [out/]. *)
Definition built_repository : list fsnode :=
  [ File "package.json" "{}";
    Dir "dist" [File "index.html" "<html></html>"];
    Dir "build" [File "manifest.json" "{}"; File "popup.js" "let i = 0;"];
    Dir "out" [File "manifest.json" "{}"] ].

(** An unpacked extension with a popup whose page has no plain
    [<body>] tag, on a machine with [git] but without [npm]. *)
Definition desk : Workstation.world :=
  {| Workstation.cloud := office;
     Workstation.texts :=
       <["/tmp/extension_1/extension/popup.js" := "let i = 0;"]>
       (<["/tmp/extension_1/extension/popup.html" :=
            "<html><body class='popup'><p>Summary</p></body></html>"]> ∅);
     Workstation.manifests :=
       <["/tmp/extension_1/extension/manifest.json" :=
           {| manifest_name := Some "Bedrock Summary"; manifest_version := None |}]> ∅;
     Workstation.installed := ["git"];
     Workstation.failing := [] |}.

(** A cloned repository on that machine; its [popup.js] declares its
    counter after an import. *)
Definition checkout : BedrockSummaryExtensionSetup.t :=
  {| BedrockSummaryExtensionSetup.work_dir := "/home/demo";
     BedrockSummaryExtensionSetup.repo_dir :=
       "/home/demo/amazon-bedrock-summary-client-for-chrome" |}.

Definition desk_with_checkout : Workstation.world :=
  Workstation.with_texts desk
    (<["/home/demo/amazon-bedrock-summary-client-for-chrome/sdk.js" :=
         "const config = {};"]>
     (<["/home/demo/amazon-bedrock-summary-client-for-chrome/popup.js" :=
          "import sdk from './sdk.js';let i = 0;if (currentHost) {}"]> ∅)).

(** * Properties *)

(** ** Running programs *)

Lemma exec_pbind {W A B} (h : handler W) (p : prog A) (f : A -> prog B) (w : W) :
  exec h (pbind p f) w =
  let '(a, w1, t1) := exec h p w in
  let '(b, w2, t2) := exec h (f a) w1 in
  (b, w2, (t1 ++ t2)%list).
Proof.
  revert w. induction p as [a | l k IH | c k IH]; intros w; cbn.
  - destruct (exec h (f a) w) as [[b w2] t2]. reflexivity.
  - rewrite IH. destruct (exec h k w) as [[a w1] t1].
    destruct (exec h (f a) w1) as [[b w2] t2]. reflexivity.
  - destruct (h c w) as [r w1]. rewrite IH.
    destruct (exec h (k r) w1) as [[a w2] t1].
    destruct (exec h (f a) w2) as [[b w3] t2]. reflexivity.
Qed.

Section Exec.
Context {W S : Type} (h : handler W).

Lemma exec_bind {A B} (m : M S A) (f : A -> M S B) (s : S) (w : W) :
  exec h (bind m f s) w =
  match exec h (m s) w with
  | ((Ok a, s1), w1, t1) =>
      let '(x, w2, t2) := exec h (f a s1) w1 in (x, w2, (t1 ++ t2)%list)
  | ((Raise e, s1), w1, t1) => ((Raise e, s1), w1, t1)
  end.
Proof.
  unfold bind. rewrite exec_pbind.
  destruct (exec h (m s) w) as [[[[a | e] s1] w1] t1]; cbn.
  - reflexivity.
  - rewrite app_nil_r. reflexivity.
Qed.

Lemma exec_try_except {A} (m : M S A) (on_exn : exn -> option (M S A)) (s : S) (w : W) :
  exec h (try_except m on_exn s) w =
  match exec h (m s) w with
  | ((Ok a, s1), w1, t1) => ((Ok a, s1), w1, t1)
  | ((Raise e, s1), w1, t1) =>
      match on_exn e with
      | Some handle =>
          let '(x, w2, t2) := exec h (handle s1) w1 in (x, w2, (t1 ++ t2)%list)
      | None => ((Raise e, s1), w1, t1)
      end
  end.
Proof.
  unfold try_except. rewrite exec_pbind.
  destruct (exec h (m s) w) as [[[[a | e] s1] w1] t1]; cbn.
  - rewrite app_nil_r. reflexivity.
  - destruct (on_exn e); cbn; [reflexivity | rewrite app_nil_r; reflexivity].
Qed.

Lemma exec_try_finally {A} (m : M S A) (fin : M S unit) (s : S) (w : W) :
  exec h (try_finally m fin s) w =
  let '((r, s1), w1, t1) := exec h (m s) w in
  let '((rf, s2), w2, t2) := exec h (fin s1) w1 in
  ((match rf with Ok _ => r | Raise e => Raise e end, s2), w2, (t1 ++ t2)%list).
Proof.
  unfold try_finally. rewrite exec_pbind.
  destruct (exec h (m s) w) as [[[r s1] w1] t1]. rewrite exec_pbind.
  destruct (exec h (fin s1) w1) as [[[[u | e] s2] w2] t2]; cbn;
    rewrite app_nil_r; reflexivity.
Qed.

Lemma exec_on_object {T A} (obj : T) (m : M T A) (s : S) (w : W) :
  exec h (on_object obj m s) w =
  let '((r, obj'), w1, t1) := exec h (m obj) w in
  ((match r with Ok a => Ok (a, obj') | Raise e => Raise e end, s), w1, t1).
Proof.
  unfold on_object. rewrite exec_pbind.
  destruct (exec h (m obj) w) as [[[[a | e] obj'] w1] t1]; cbn;
    rewrite app_nil_r; reflexivity.
Qed.
End Exec.

Lemma calls_of_app (t1 t2 : list event) :
  calls_of (t1 ++ t2) = (calls_of t1 ++ calls_of t2)%list.
Proof. unfold calls_of. apply omap_app. Qed.

Lemma lines_of_app (t1 t2 : list event) :
  lines_of (t1 ++ t2) = (lines_of t1 ++ lines_of t2)%list.
Proof. unfold lines_of. apply omap_app. Qed.

Lemma network_calls_app (t1 t2 : list event) :
  network_calls (t1 ++ t2) = (network_calls t1 ++ network_calls t2)%list.
Proof. unfold network_calls. rewrite calls_of_app. apply List.filter_app. Qed.

Lemma network_calls_printed (l : string) (t : list event) :
  network_calls (Printed l :: t) = network_calls t.
Proof. reflexivity. Qed.

Lemma network_calls_called (c : call) (t : list event) :
  network_calls (Called c :: t)
  = if is_network c then c :: network_calls t else network_calls t.
Proof. reflexivity. Qed.

Lemma network_calls_nil : network_calls [] = [].
Proof. reflexivity. Qed.

Lemma network_calls_silent (t : list event) : calls_of t = [] -> network_calls t = [].
Proof. unfold network_calls. intros ->. reflexivity. Qed.

Create Rewrite HintDb traces.
#[export] Hint Rewrite network_calls_printed network_calls_called network_calls_nil
  network_calls_app app_nil_r : traces.

(** Case analysis on the next answer of the environment, and on the
    next test of an error code. *)
Ltac next_answer h :=
  match goal with
  | |- context [h ?c ?w] =>
      let r := fresh "r" in
      let w' := fresh "w" in
      destruct (h c w) as [r w'] eqn:?; cbn -[String.eqb] in *;
      try (destruct r as [? | [? ? | | ? ?]]; cbn -[String.eqb] in *)
  end.

Ltac next_test :=
  match goal with
  | |- context [if String.eqb ?a ?b then _ else _] =>
      destruct (String.eqb a b) eqn:?; cbn -[String.eqb] in *
  | |- context [if is_Exception ?e then _ else _] =>
      destruct e; cbn -[String.eqb] in *
  end.

Ltac all_answers h := cbn -[String.eqb] in *; repeat (first [next_answer h | next_test]).

(** ** Strings *)

Lemma append_cons (c : ascii) (a b : string) : String c a +:+ b = String c (a +:+ b).
Proof. reflexivity. Qed.

Lemma split_once_join (b k : string) :
  has_char "/" b = false ->
  split_once "/" (b +:+ "/" +:+ k) = [b; k].
Proof.
  induction b as [| c b IH]; intros Hb.
  - reflexivity.
  - cbn -[Ascii.eqb] in Hb. apply orb_false_iff in Hb as [Hc Hb].
    rewrite append_cons. cbn -[Ascii.eqb]. rewrite Hc, (IH Hb). reflexivity.
Qed.

(** The locator that [upload_extension] builds is read back by
    [verify_access] as the bucket and key it was built from. *)
Lemma parse_s3_uri_of_upload (b k : string) :
  has_char "/" b = false ->
  S3Manager.parse_s3_uri ("s3://" +:+ b +:+ "/" +:+ k) = (b, k).
Proof.
  intros Hb. unfold S3Manager.parse_s3_uri.
  change (drop_chars 5 ("s3://" +:+ b +:+ "/" +:+ k)) with (b +:+ "/" +:+ k).
  rewrite (split_once_join b k Hb). reflexivity.
Qed.

Lemma startswith_s3_uri (rest : string) : startswith ("s3://" +:+ rest) "s3://" = true.
Proof. destruct rest; reflexivity. Qed.

Example split_once_examples :
  split_once "/" "bucket/a/b" = ["bucket"; "a/b"]
  /\ split_once "/" "bucket" = ["bucket"]
  /\ S3Manager.parse_s3_uri "s3://bucket" = ("bucket", EmptyString)
  /\ S3Manager.parse_s3_uri "s3://bucket/extensions/x.zip" = ("bucket", "extensions/x.zip").
Proof. repeat split; reflexivity. Qed.

Example path_examples :
  path_name "build/ext.zip" = "ext.zip"
  /\ path_suffix "build/ext.zip" = ".zip"
  /\ path_suffix ".zip" = EmptyString
  /\ path_suffix "ext.tar.gz" = ".gz"
  /\ path_suffix "build.d/ext" = EmptyString.
Proof. repeat split; reflexivity. Qed.

Example str_replace_examples :
  str_replace "<html><body><p>hi</p></body>" "<body>" "<body>X"
  = "<html><body>X<p>hi</p></body>"
  /\ str_replace "aaa" "aa" "b" = "ba".
Proof. split; reflexivity. Qed.

Example sort_reverse_example :
  sort_reverse ["extensions/a-2.zip"; "extensions/a-10.zip"; "extensions/b.zip"]
  = ["extensions/b.zip"; "extensions/a-2.zip"; "extensions/a-10.zip"].
Proof. reflexivity. Qed.

Example suffix_examples :
  endswith "bundle.js.map" ".map" = true
  /\ endswith "map" ".map" = false
  /\ startswith ".git" "." = true
  /\ startswith "s3:/bucket" "s3://" = false.
Proof. repeat split; reflexivity. Qed.

Example two_decimals_examples :
  two_decimals 1572864 = "1.50" /\ two_decimals 5243 = "0.01"
  /\ two_decimals 10485760 = "10.00".
Proof. repeat split; reflexivity. Qed.

(** ** s3_manager.py *)

Section S3Facts.
Context {W : Type} (h : handler W) `{Runtime}.

Lemma bucket_exists_self (self : S3Manager.t) (w : W) :
  self_after (exec h (S3Manager.bucket_exists self) w) = self.
Proof. unfold S3Manager.bucket_exists. all_answers h; reflexivity. Qed.

Lemma create_bucket_self (self : S3Manager.t) (w : W) :
  self_after (exec h (S3Manager.create_bucket self) w) = self.
Proof.
  unfold S3Manager.create_bucket, S3Manager.bucket_exists.
  all_answers h; reflexivity.
Qed.

Lemma upload_extension_self (self : S3Manager.t) path key (w : W) :
  self_after (exec h (S3Manager.upload_extension path key self) w) = self.
Proof. unfold S3Manager.upload_extension. all_answers h; reflexivity. Qed.

(** [verify_access] answers, or lets through an error that is not a
    [ClientError]. *)
Lemma verify_access_outcome (self : S3Manager.t) uri (w : W) :
  let out := exec h (S3Manager.verify_access uri self) w in
  self_after out = self
  /\ match returned out with
     | Ok _ => True
     | Raise e => is_ClientError e = false
     end.
Proof.
  unfold S3Manager.verify_access.
  destruct (startswith uri "s3://"); cbn; [| auto].
  destruct (S3Manager.parse_s3_uri uri) as [bucket key].
  all_answers h; auto.
Qed.

Lemma verify_access_rejects (self : S3Manager.t) (uri : string) (w : W) :
  startswith uri "s3://" = false ->
  exec h (S3Manager.verify_access uri self) w
  = ((Ok false, self), w,
     [Printed "[cyan]Verifying S3 access...[/cyan]";
      Printed ("[red]✗[/red] Invalid S3 URI: " +:+ uri)]).
Proof. intros Hbad. unfold S3Manager.verify_access. cbn. rewrite Hbad. reflexivity. Qed.
End S3Facts.

(** C9.  When the existence check of the bucket is answered with the
    error code 403, [bucket_exists] returns [True], and [create_bucket]
    returns [True] having sent nothing but that existence check: no
    creation request is made. *)
Theorem access_denied_bucket_counts_as_existing
    {W} (h : handler W) (self : S3Manager.t) (w : W) (message : string) :
  fst (h (s3_head_bucket (S3Manager.bucket_name self)) w)
    = Raise (ClientError "403" message) ->
  let checked := exec h (S3Manager.bucket_exists self) w in
  let created := exec h (S3Manager.create_bucket self) w in
  returned checked = Ok true
  /\ returned created = Ok true
  /\ calls_of (trace created) = [s3_head_bucket (S3Manager.bucket_name self)].
Proof.
  intros Hhead. unfold S3Manager.create_bucket, S3Manager.bucket_exists.
  cbn. destruct (h (s3_head_bucket (S3Manager.bucket_name self)) w) as [r w1].
  cbn in Hhead. subst r. cbn. auto.
Qed.

Lemma access_denied_bucket_witness :
  fst (Cloud.respond (s3_head_bucket "shared-assets") office)
    = Raise (ClientError "403" "Forbidden")
  /\ returned (exec Cloud.respond (S3Manager.bucket_exists shared_bucket) office) = Ok true
  /\ returned (exec Cloud.respond (S3Manager.create_bucket shared_bucket) office) = Ok true
  /\ calls_of (trace (exec Cloud.respond (S3Manager.create_bucket shared_bucket) office))
     = [s3_head_bucket "shared-assets"].
Proof.
  split; [reflexivity |].
  apply (access_denied_bucket_counts_as_existing
           Cloud.respond shared_bucket office "Forbidden").
  reflexivity.
Defined.

(** C2.  [create_bucket] called twice in succession on a bucket that
    the service reports as the caller's own returns [True] both times:
    a successful existence check and the refusal
    [BucketAlreadyOwnedByYou] both count as success. *)
Theorem create_bucket_idempotent {W} (h : handler W) (self : S3Manager.t) (w : W) :
  let first := exec h (S3Manager.create_bucket self) w in
  let second := exec h (S3Manager.create_bucket self) (world_after first) in
  reports_owned h self w = true ->
  reports_owned h self (world_after first) = true ->
  returned first = Ok true /\ returned second = Ok true.
Proof.
  assert (Hone : forall w0, reports_owned h self w0 = true ->
            returned (exec h (S3Manager.create_bucket self) w0) = Ok true).
  { intros w0 Hown. unfold reports_owned, create_request in Hown.
    unfold S3Manager.create_bucket, S3Manager.bucket_exists. cbn -[String.eqb] in *.
    destruct (h (s3_head_bucket (S3Manager.bucket_name self)) w0) as [[[] | e] w1];
      cbn -[String.eqb] in *; [reflexivity |].
    destruct e as [code m | | cls m]; try discriminate.
    apply andb_true_iff in Hown as [Hcode Hrefused]. cbn -[String.eqb].
    rewrite Hcode. cbn -[String.eqb].
    destruct (String.eqb (S3Manager.region self) "us-east-1"); cbn -[String.eqb] in *;
      match goal with
      | |- context [h ?c w1] => destruct (h c w1) as [[[] | e2] w2]
      end; cbn -[String.eqb] in *; try discriminate;
      (destruct e2 as [refusal m2 | | cls2 m2]; try discriminate);
      cbn -[String.eqb]; rewrite Hrefused; reflexivity. }
  intros first second H1 H2. split; apply Hone; assumption.
Qed.

Lemma create_bucket_idempotent_witness :
  reports_owned Cloud.respond demo_bucket office = true
  /\ reports_owned Cloud.respond demo_bucket office_with_late_bucket = true
  /\ returned (exec Cloud.respond (S3Manager.create_bucket demo_bucket) office) = Ok true
  /\ returned (exec Cloud.respond (S3Manager.create_bucket demo_bucket)
                 (world_after (exec Cloud.respond (S3Manager.create_bucket demo_bucket) office)))
     = Ok true
  /\ returned (exec Cloud.respond (S3Manager.create_bucket demo_bucket)
                 office_with_late_bucket) = Ok true
  /\ calls_of (trace (exec Cloud.respond (S3Manager.create_bucket demo_bucket)
                        office_with_late_bucket))
     = [s3_head_bucket "browser-extension-demo";
        s3_create_bucket "browser-extension-demo" None].
Proof.
  assert (Hseen : reports_owned Cloud.respond demo_bucket office = true) by reflexivity.
  assert (Hlate : reports_owned Cloud.respond demo_bucket office_with_late_bucket = true)
    by reflexivity.
  pose proof (create_bucket_idempotent Cloud.respond demo_bucket office Hseen Hseen)
    as [Hfirst Hsecond].
  pose proof (create_bucket_idempotent Cloud.respond demo_bucket office_with_late_bucket
                Hlate Hlate) as [Hmissed _].
  split; [exact Hseen |]. split; [exact Hlate |]. split; [exact Hfirst |].
  split; [exact Hsecond |]. split; [exact Hmissed | reflexivity].
Defined.

Section S3Workflow.
Context {W : Type} (h : handler W) `{Runtime}.

(** C10, as amended.  After a bucket creation that returned [True]
    and an upload that returned the locator, [setup_and_upload]
    returns that locator whenever [verify_access] returns, be it
    [True] or [False]; it never returns [None]; and when the metadata
    request raises something that is not a [ClientError], that
    exception leaves [setup_and_upload]. *)
Theorem setup_and_upload_after_upload
    (self : S3Manager.t) (path uri : string) (w : W) :
  let created := exec h (S3Manager.create_bucket self) w in
  let uploaded := exec h (S3Manager.upload_extension path None self) (world_after created) in
  let verified := exec h (S3Manager.verify_access uri self) (world_after uploaded) in
  let out := exec h (S3Manager.setup_and_upload path self) w in
  returned created = Ok true ->
  returned uploaded = Ok uri ->
  returned out <> Ok None
  /\ match returned verified with
     | Ok _ => returned out = Ok (Some uri)
     | Raise e => is_ClientError e = false /\ returned out = Raise e
     end.
Proof.
  intros created uploaded verified out Hcreated Huploaded.
  pose proof (create_bucket_self h self w) as Hs1.
  pose proof (upload_extension_self h self path None (world_after created)) as Hs2.
  pose proof (verify_access_outcome h self uri (world_after uploaded)) as [Hs3 Hv].
  fold created in Hs1. fold uploaded in Hs2. fold verified in Hs3, Hv.
  subst out. unfold S3Manager.setup_and_upload.
  rewrite exec_bind. cbn [print exec]. rewrite exec_bind.
  destruct created as [[[rc sc] wc] tc] eqn:Ec. unfold created in Ec. rewrite Ec.
  cbn in Hcreated, Hs1. subst rc sc. cbn [negb].
  rewrite exec_bind, exec_try_except, exec_bind.
  cbn [world_after fst snd] in uploaded.
  destruct uploaded as [[[ru su] wu] tu] eqn:Eu. unfold uploaded in Eu. rewrite Eu.
  cbn in Huploaded, Hs2. subst ru su. cbn [ret exec].
  rewrite exec_bind.
  cbn [world_after fst snd] in verified.
  destruct verified as [[[rv sv] wv] tv] eqn:Ev. unfold verified in Ev. rewrite Ev.
  cbn in Hs3, Hv |- *. subst sv.
  destruct rv as [[|] | e]; cbn; split; auto; discriminate.
Qed.

End S3Workflow.

(** C10, as the claim states it, fails: bucket creation and upload
    succeed, the metadata request of the verification finds no
    connection, and [setup_and_upload] raises instead of returning the
    locator. *)
Lemma verification_error_escapes :
  let w := office_offline_at_verification in
  let created := exec Cloud.respond (S3Manager.create_bucket demo_bucket) w in
  let uploaded := exec Cloud.respond
                    (S3Manager.upload_extension "stealth-extension.zip" None demo_bucket)
                    (world_after created) in
  returned created = Ok true
  /\ returned uploaded = Ok "s3://browser-extension-demo/extensions/stealth-extension.zip"
  /\ returned (exec Cloud.respond
                 (S3Manager.setup_and_upload "stealth-extension.zip" demo_bucket) w)
     = Raise (OtherException "EndpointConnectionError"
                "Could not connect to the endpoint URL").
Proof. vm_compute. auto. Qed.

Lemma setup_and_upload_after_upload_witness :
  let w := office_denied_at_verification in
  let uri := "s3://browser-extension-demo/extensions/stealth-extension.zip" in
  let created := exec Cloud.respond (S3Manager.create_bucket demo_bucket) w in
  let uploaded := exec Cloud.respond
                    (S3Manager.upload_extension "stealth-extension.zip" None demo_bucket)
                    (world_after created) in
  let verified := exec Cloud.respond (S3Manager.verify_access uri demo_bucket)
                    (world_after uploaded) in
  returned created = Ok true
  /\ returned uploaded = Ok uri
  /\ returned verified = Ok false
  /\ returned (exec Cloud.respond
                 (S3Manager.setup_and_upload "stealth-extension.zip" demo_bucket) w)
     = Ok (Some uri).
Proof.
  intros w uri created uploaded verified.
  assert (Hc : returned created = Ok true) by reflexivity.
  assert (Hu : returned uploaded = Ok uri) by reflexivity.
  assert (Hv : returned verified = Ok false) by reflexivity.
  pose proof (setup_and_upload_after_upload Cloud.respond demo_bucket
                "stealth-extension.zip" uri w Hc Hu) as [_ Hout].
  fold created uploaded verified in Hout. rewrite Hv in Hout. auto.
Defined.


(** ** browser_with_extension.py *)

Section BrowserFacts.
Context {W : Type} (h : handler W).

(** A stop request that the service accepts leaves no session recorded,
    so that a later [close_session] finds nothing to stop. *)
Lemma close_session_clears (self : BrowserWithExtension.t) (w : W) (sid : string) :
  BrowserWithExtension.active_session self = Some sid ->
  fst (h (agentcore_stop_browser_session sid) w) = Ok tt ->
  let out := exec h (BrowserWithExtension.close_session self) w in
  returned out = Ok tt
  /\ BrowserWithExtension.active_session (self_after out) = None.
Proof.
  intros Hactive Hstop. unfold BrowserWithExtension.close_session.
  cbn. rewrite Hactive. cbn.
  destruct (h (agentcore_stop_browser_session sid) w) as [r w1].
  cbn in Hstop. subst r. cbn. auto.
Qed.

(** C7.  When there is nothing to stop (no session recorded as active,
    or a stop request that the service refuses with an error),
    [close_session] returns without raising and leaves the object as it
    was; with no session recorded it also makes no call, leaves the
    world as it was, and does the same when called again. *)
Theorem close_session_without_session_is_noop
    (self : BrowserWithExtension.t) (w : W) :
  nothing_to_stop h self w = true ->
  let once := exec h (BrowserWithExtension.close_session self) w in
  returned once = Ok tt
  /\ self_after once = self
  /\ (BrowserWithExtension.active_session self = None ->
      world_after once = w /\ calls_of (trace once) = []
      /\ exec h (BrowserWithExtension.close_session (self_after once)) (world_after once)
         = once).
Proof.
  unfold nothing_to_stop, BrowserWithExtension.close_session. cbn.
  destruct (BrowserWithExtension.active_session self) as [sid |] eqn:Hactive.
  - cbn. destruct (h (agentcore_stop_browser_session sid) w) as [[[] | e] w1];
      cbn; [discriminate |].
    destruct e; cbn; intros He; try discriminate; repeat split; discriminate.
  - intros _. cbn. rewrite Hactive. cbn. auto.
Qed.

Lemma parse_extensions_app (before after : list string) :
  BrowserWithExtension.parse_extensions (before ++ after)
  = (BrowserWithExtension.parse_extensions before
     ++ BrowserWithExtension.parse_extensions after)%list.
Proof.
  induction before as [| uri before IH]; cbn; [reflexivity |].
  destruct (startswith uri "s3://"); [| exact IH].
  destruct (S3Manager.parse_s3_uri uri). cbn. rewrite IH. reflexivity.
Qed.

Lemma print_numbered_run {S} (start : nat) (xs : list string) (s : S) (w : W) :
  let out := exec h (print_numbered start xs s) w in
  returned out = Ok tt /\ self_after out = s /\ world_after out = w
  /\ calls_of (trace out) = [].
Proof.
  revert start. induction xs as [| x xs IH]; intros start; cbn [print_numbered].
  - cbn. auto.
  - rewrite exec_bind. cbn [print exec]. specialize (IH (Datatypes.S start)).
    destruct (exec h (print_numbered (Datatypes.S start) xs s) w) as [[[r s1] w1] t1].
    cbn in *. auto.
Qed.

(** [create_browser_session] sends at most one request, and it carries
    the parsed locators.  The request bears the session name that was
    given or, when none was given, the name made from the clock; only
    when the clock cannot be read is no request sent. *)
Lemma create_browser_session_request
    (self : BrowserWithExtension.t) (uris : list string) (name : option string) (w : W) :
  network_calls
    (trace (exec h (BrowserWithExtension.create_browser_session uris name self) w))
  = let start session_name :=
      [agentcore_start_browser_session "aws.browser.v1" session_name 1800
         (BrowserWithExtension.parse_extensions uris)] in
    let from_clock :=
      match fst (h time_time w) with
      | Ok now => start ("extension-demo-" +:+ pretty now)
      | Raise _ => []
      end in
    match name with
    | Some given => if truthy given then start given else from_clock
    | None => from_clock
    end.
Proof.
  unfold BrowserWithExtension.create_browser_session.
  rewrite exec_bind. cbn [print exec].
  rewrite exec_bind. cbn [print exec].
  rewrite exec_bind.
  pose proof (print_numbered_run 1 uris self w) as Hnum.
  destruct (exec h (print_numbered 1 uris self) w) as [[[r1 s1] w1] t1].
  destruct Hnum as (Hr & Hs & Hw & Hcalls).
  unfold returned, self_after, world_after, trace in Hr, Hs, Hw, Hcalls.
  cbn [fst snd] in Hr, Hs, Hw, Hcalls. subst r1 s1 w1.
  apply network_calls_silent in Hcalls.
  destruct name as [given |]; [destruct (truthy given) |];
    cbn -[String.eqb network_calls].
  2-3: destruct (h time_time w) as [[now | e] w1]; cbn -[String.eqb network_calls].
  all: try match goal with
       | |- context [h (agentcore_start_browser_session ?b ?n ?t ?x) ?w0] =>
           destruct (h (agentcore_start_browser_session b n t x) w0) as [[sid | e'] w2];
           [| destruct e']; cbn -[network_calls]
       end.
  all: unfold trace; cbn [snd]; repeat (autorewrite with traces; cbn [is_network]);
    rewrite ?Hcalls; reflexivity.
Qed.

(** C5, as amended.  For a locator that does not start with [s3://]:
    [verify_access] returns [False] without any call, and
    [create_browser_session] leaves the locator out of the request it
    sends; the request is sent all the same, with the locators that do
    start with [s3://], under the session name that was given or, when
    none was given, under the name made from the clock.  Only when no
    name was given and the clock cannot be read is no request sent. *)
Theorem bad_locator_never_sent `{Runtime} (uri : string) :
  startswith uri "s3://" = false ->
  (forall (self : S3Manager.t) (w : W),
      let out := exec h (S3Manager.verify_access uri self) w in
      returned out = Ok false /\ calls_of (trace out) = [] /\ world_after out = w)
  /\ (forall before after : list string,
         BrowserWithExtension.parse_extensions (before ++ uri :: after)
         = BrowserWithExtension.parse_extensions (before ++ after))
  /\ (forall (self : BrowserWithExtension.t) (before after : list string)
             (name : option string) (w : W),
         let start session_name :=
           [agentcore_start_browser_session "aws.browser.v1" session_name 1800
              (BrowserWithExtension.parse_extensions (before ++ after))] in
         let from_clock :=
           match fst (h time_time w) with
           | Ok now => start ("extension-demo-" +:+ pretty now)
           | Raise _ => []
           end in
         network_calls
           (trace (exec h (BrowserWithExtension.create_browser_session
                             (before ++ uri :: after) name self) w))
         = match name with
           | Some given => if truthy given then start given else from_clock
           | None => from_clock
           end).
Proof.
  intros Hbad.
  assert (Hdrop : forall before after : list string,
             BrowserWithExtension.parse_extensions (before ++ uri :: after)
             = BrowserWithExtension.parse_extensions (before ++ after)).
  { intros before after. rewrite !parse_extensions_app. cbn. rewrite Hbad. reflexivity. }
  split; [| split].
  - intros self w out. subst out.
    rewrite (verify_access_rejects h self uri w Hbad). cbn. auto.
  - exact Hdrop.
  - intros self before after name w start from_clock. subst start from_clock.
    rewrite (create_browser_session_request self _ name w). cbv zeta.
    rewrite Hdrop. reflexivity.
Qed.

(** C8, as amended.  [get_temporary_credentials] sends one token
    request with the given duration.  When it is answered, the result
    is the dictionary of the access key, the secret key and the session
    token of the answer, and of nothing else; when it raises, the same
    exception is raised to the caller, and no second request is made. *)
Theorem get_temporary_credentials_result
    (self : ExtensionSetup.t) (duration_seconds : Z) (w : W) :
  let out := exec h (ExtensionSetup.get_temporary_credentials duration_seconds self) w in
  calls_of (trace out) = [sts_get_session_token duration_seconds]
  /\ match fst (h (sts_get_session_token duration_seconds) w) with
     | Ok credentials =>
         returned out
         = Ok (<["AccessKeyId" := AccessKeyId credentials]>
               (<["SecretAccessKey" := SecretAccessKey credentials]>
                (<["SessionToken" := SessionToken credentials]> ∅)))
     | Raise e => returned out = Raise e
     end.
Proof.
  unfold ExtensionSetup.get_temporary_credentials. cbn.
  destruct (h (sts_get_session_token duration_seconds) w) as [[c | e] w1]; cbn;
    [| destruct e]; cbn; auto.
Qed.

End BrowserFacts.

Lemma close_session_witness :
  nothing_to_stop Cloud.respond stale_browser office = true
  /\ nothing_to_stop Cloud.respond idle_browser office = true
  /\ exec Cloud.respond (BrowserWithExtension.close_session stale_browser) office
     = ((Ok tt, stale_browser), office,
        [Printed (nl +:+ "[cyan]Closing browser session...[/cyan]");
         Called (agentcore_stop_browser_session "session-7");
         Printed "[yellow]⚠[/yellow] Error stopping session: no such session"])
  /\ returned (exec Cloud.respond (BrowserWithExtension.close_session idle_browser) office)
     = Ok tt
  /\ calls_of (trace (exec Cloud.respond
                        (BrowserWithExtension.close_session idle_browser) office)) = [].
Proof.
  assert (Hstale : nothing_to_stop Cloud.respond stale_browser office = true)
    by reflexivity.
  assert (Hidle : nothing_to_stop Cloud.respond idle_browser office = true)
    by reflexivity.
  split; [exact Hstale |]. split; [exact Hidle |].
  pose proof (close_session_without_session_is_noop
                Cloud.respond stale_browser office Hstale) as (H1 & H2 & _).
  pose proof (close_session_without_session_is_noop
                Cloud.respond idle_browser office Hidle) as (H3 & _ & H4).
  split; [reflexivity |]. split; [exact H3 |]. apply H4. reflexivity.
Defined.

(** C5, as the claim states it, fails for [create_browser_session]:
    given one locator that does not start with [s3://], it sends the
    start request (with no extension in it) and returns the details of
    an active session that lists the locator.  Given that locator
    beside a good one and no session name, as the demo calls it, it
    sends the request with the good one and lists both. *)
Lemma create_browser_session_keeps_going :
  let uri := "https://example.com/stealth-extension.zip" in
  let good := "s3://browser-extension-demo/extensions/stealth-extension.zip" in
  let out := exec Cloud.respond
               (BrowserWithExtension.create_browser_session [uri] (Some "demo")
                  idle_browser) office in
  let both := exec Cloud.respond
                (BrowserWithExtension.create_browser_session [uri; good] None
                   idle_browser) office in
  startswith uri "s3://" = false
  /\ returned out
     = Ok {| BrowserWithExtension.details_session_id := "session-0";
             BrowserWithExtension.details_region := "us-east-1";
             BrowserWithExtension.details_extensions := [uri];
             BrowserWithExtension.details_status := "active" |}
  /\ network_calls (trace out)
     = [agentcore_start_browser_session "aws.browser.v1" "demo" 1800 []]
  /\ returned both
     = Ok {| BrowserWithExtension.details_session_id := "session-0";
             BrowserWithExtension.details_region := "us-east-1";
             BrowserWithExtension.details_extensions := [uri; good];
             BrowserWithExtension.details_status := "active" |}
  /\ network_calls (trace both)
     = [agentcore_start_browser_session "aws.browser.v1" "extension-demo-1769684400" 1800
          [{| loc_bucket := "browser-extension-demo";
              loc_prefix := "extensions/stealth-extension.zip" |}]].
Proof. vm_compute. auto. Qed.

Lemma bad_locator_witness :
  let uri := "https://example.com/stealth-extension.zip" in
  let good := "s3://browser-extension-demo/extensions/stealth-extension.zip" in
  startswith uri "s3://" = false
  /\ returned (exec Cloud.respond (S3Manager.verify_access uri demo_bucket) office)
     = Ok false
  /\ network_calls
       (trace (exec Cloud.respond
                 (BrowserWithExtension.create_browser_session [uri; good] (Some "demo")
                    idle_browser) office))
     = [agentcore_start_browser_session "aws.browser.v1" "demo" 1800
          [{| loc_bucket := "browser-extension-demo";
              loc_prefix := "extensions/stealth-extension.zip" |}]]
  /\ network_calls
       (trace (exec Cloud.respond
                 (BrowserWithExtension.create_browser_session [uri; good] None
                    idle_browser) office))
     = [agentcore_start_browser_session "aws.browser.v1" "extension-demo-1769684400" 1800
          [{| loc_bucket := "browser-extension-demo";
              loc_prefix := "extensions/stealth-extension.zip" |}]].
Proof.
  intros uri good.
  assert (Hbad : startswith uri "s3://" = false) by reflexivity.
  pose proof (bad_locator_never_sent Cloud.respond uri Hbad) as (Hverify & _ & Hsend).
  split; [exact Hbad |]. split; [| split].
  - apply (Hverify demo_bucket office).
  - apply (Hsend idle_browser [] [good] (Some "demo") office).
  - etransitivity; [exact (Hsend idle_browser [] [good] None office) |].
    vm_compute. reflexivity.
Defined.

(** C8, as the claim states it, fails: the dictionary that
    [get_temporary_credentials] returns has no entry for the expiry,
    and the expiry of the answer is not among its values. *)
Lemma credentials_have_no_expiry :
  let out := exec Cloud.respond (ExtensionSetup.get_temporary_credentials 3600 setup_in_tmp)
               office in
  exists credentials : gmap string string,
    returned out = Ok credentials
    /\ credentials !! "Expiration" = None
    /\ size credentials = 3%nat
    /\ In (Printed "[dim]Expires at: 2026-01-29 12:00:00+00:00[/dim]") (trace out).
Proof.
  eexists. split; [reflexivity |]. split; [reflexivity |]. split.
  - vm_compute. reflexivity.
  - cbn. auto.
Qed.

(** ** Packaging *)

Section Walk.
Variables (keep skip : string -> bool).








End Walk.





Lemma resolve_app (nodes : list fsnode) (p q : list string) :
  q <> [] ->
  BedrockSummaryExtensionSetup.resolve nodes (p ++ q)
  = match BedrockSummaryExtensionSetup.resolve nodes p with
    | Some (BedrockSummaryExtensionSetup.FoundDir tree) =>
        BedrockSummaryExtensionSetup.resolve tree q
    | _ => None
    end.
Proof.
  intros Hq. revert nodes. induction p as [| c p IH]; intros nodes; cbn; [reflexivity |].
  destruct (find _ nodes) as [[name data | name children] |]; [| apply IH | reflexivity].
  destruct p; cbn; [| reflexivity]. destruct q; [congruence | reflexivity].
Qed.




Section Packaging.
Context {W : Type} (h : handler W) `{Runtime}.

(** Without an output path, [package_extension] reads the clock and
    goes on as it does for the path named after the time. *)
Lemma package_extension_default (self : ExtensionSetup.t) (w : W) :
  let out := exec h (ExtensionSetup.package_extension None self) w in
  match h time_time w with
  | (Ok now, w1) =>
      let named :=
        exec h (ExtensionSetup.package_extension
                  (Some ("bedrock-summary-extension-" +:+ pretty now +:+ ".zip")) self) w1 in
      returned out = returned named
      /\ calls_of (trace out) = time_time :: calls_of (trace named)
  | (Raise e, _) => returned out = Raise e /\ calls_of (trace out) = [time_time]
  end.
Proof.
  unfold ExtensionSetup.package_extension.
  cbn [bind pbind print get ret exec invoke].
  destruct (h time_time w) as [[now | e] w1]; [| cbn; auto].
  cbn [bind pbind print get ret exec invoke].
  match goal with
  | |- context [h (zipfile_open ?zip) w1] => destruct (h (zipfile_open zip) w1) as [r w0]
  end.
  match goal with
  | |- context [exec h ?p w0] => destruct (exec h p w0) as [[a w2] t]
  end.
  cbn. auto.
Qed.



End Packaging.



(** ** main.py *)

Section Orchestrator.
Context {W : Type} (h : handler W) `{Runtime}.

Lemma check_prerequisites_without_extensions (self : ExtensionDemo.t) (w : W) :
  ExtensionDemo.existing_extensions self = [] ->
  let out := exec h (ExtensionDemo.check_prerequisites self) w in
  self_after out = self
  /\ (returned out = Ok false \/ returned out = Raise KeyboardInterrupt)
  /\ network_calls (trace out)
     = match fst (h (boto3_client "sts" None) w) with
       | Ok _ => [sts_get_caller_identity]
       | Raise _ => []
       end.
Proof.
  intros Hnone. unfold ExtensionDemo.check_prerequisites,
    BrowserWithExtension.check_iam_permissions.
  destruct self as [bucket region exts skip zips uris browser].
  cbn in Hnone. subst exts. all_answers h; auto.
Qed.

Lemma cleanup_without_browser (self : ExtensionDemo.t) (w : W) :
  ExtensionDemo.browser self = None ->
  exec h (ExtensionDemo.cleanup self) w
  = ((Ok tt, self), w,
     [Printed (nl +:+ "[cyan]🧹 Cleaning up...[/cyan]");
      Printed ("[green]✓ Cleanup complete[/green]" +:+ nl)]).
Proof. intros Hnone. unfold ExtensionDemo.cleanup. cbn. rewrite Hnone. reflexivity. Qed.

(** Started without any extension path, [run] stops at the
    prerequisite check. *)
Lemma run_without_extensions_outcome (self : ExtensionDemo.t) (prepare_only : bool) (w : W) :
  ExtensionDemo.existing_extensions self = [] ->
  ExtensionDemo.browser self = None ->
  let out := exec h (ExtensionDemo.run prepare_only self) w in
  (returned out = Ok 1 \/ returned out = Ok 130)
  /\ network_calls (trace out)
     = match fst (h (boto3_client "sts" None) w) with
       | Ok _ => [sts_get_caller_identity]
       | Raise _ => []
       end.
Proof.
  intros Hnone Hbrowser.
  pose proof (check_prerequisites_without_extensions self w Hnone) as Hcheck.
  unfold ExtensionDemo.run, ExtensionDemo.print_header.
  rewrite exec_bind. cbn [print exec]. rewrite exec_try_finally.
  unfold ExtensionDemo.run_guarded. rewrite exec_try_except.
  unfold ExtensionDemo.run_steps. rewrite exec_bind.
  destruct (exec h (ExtensionDemo.check_prerequisites self) w) as [[[r s1] w1] t1].
  destruct Hcheck as (Hs & Hr & Hnet).
  unfold returned, self_after, trace in Hr, Hs, Hnet. cbn [fst snd] in Hr, Hs, Hnet.
  subst s1.
  destruct Hr as [-> | ->]; cbn -[network_calls ExtensionDemo.cleanup];
    rewrite (cleanup_without_browser self w1 Hbrowser);
    unfold returned, trace; cbn [fst snd].
  all: split; [auto |].
  all: autorewrite with traces; rewrite Hnet; cbn; autorewrite with traces; reflexivity.
Qed.
(** [ExtensionDemo.__init__] reads the environment at most, and leaves
    a demo object without browser. *)
Lemma demo_init_outcome {S} (bucket region : option string)
    (zips : option (list string)) (skip : bool) (s : S) (w : W) :
  let out := exec h (ExtensionDemo.__init__ bucket region zips skip s) w in
  network_calls (trace out) = []
  /\ match returned out with
     | Ok demo =>
         ExtensionDemo.existing_extensions demo = default [] zips
         /\ ExtensionDemo.browser demo = None
     | Raise e => True
     end.
Proof.
  unfold ExtensionDemo.__init__, or_environ.
  destruct bucket as [b |]; [destruct (truthy b) |];
    (destruct region as [r |]; [destruct (truthy r) |]);
    all_answers h; auto.
Qed.

Lemma main_without_extensions_outcome (args : ExtensionDemo.arguments) (w : W) :
  default [] (ExtensionDemo.arg_extension_zips args) = [] ->
  let out := exec h (ExtensionDemo.main args tt) w in
  (exit_status (returned out) = 1 \/ exit_status (returned out) = 130)
  /\ (network_calls (trace out) = []
      \/ network_calls (trace out) = [sts_get_caller_identity]).
Proof.
  intros Hnone. unfold ExtensionDemo.main. rewrite exec_bind.
  pose proof (demo_init_outcome (ExtensionDemo.arg_bucket args)
                (ExtensionDemo.arg_region args) (ExtensionDemo.arg_extension_zips args)
                (ExtensionDemo.arg_skip_credentials args) tt w) as [Hnet Hdemo].
  destruct (exec h (ExtensionDemo.__init__ _ _ _ _ tt) w) as [[[[demo | e] s1] w1] t1].
  2:{ unfold returned, trace in *. cbn [fst snd] in *.
      split; [destruct e; cbn; auto | left; exact Hnet]. }
  unfold returned, trace in Hnet, Hdemo. cbn [fst snd] in Hnet, Hdemo.
  destruct Hdemo as [Hexts Hbrowser]. rewrite Hnone in Hexts.
  rewrite exec_bind, exec_on_object.
  pose proof (run_without_extensions_outcome demo (ExtensionDemo.arg_prepare_only args) w1
                Hexts Hbrowser) as [Hcode Hcalls].
  destruct (exec h (ExtensionDemo.run (ExtensionDemo.arg_prepare_only args) demo) w1)
    as [[[r s2] w2] t2].
  unfold returned, trace in Hcode, Hcalls |- *. cbn [fst snd] in Hcode, Hcalls.
  destruct Hcode as [-> | ->]; cbn [exec ret fst snd exit_status];
    (split; [auto |]); rewrite app_nil_r, network_calls_app, Hnet, Hcalls;
    destruct (fst (h (boto3_client "sts" None) w1)); cbn; auto.
Qed.

(** C3, as amended.  Started without any extension path, [run] returns
    the exit code 1, or 130 when the identity check is interrupted, and
    makes one network call on the way: the caller-identity request of
    the prerequisite check (none when the STS client cannot be built).
    A command line without extension path ends with status 1 or 130,
    after that one network call at most.  No storage call and no
    browser-session call is made. *)
Theorem run_without_extensions
    (self : ExtensionDemo.t) (args : ExtensionDemo.arguments) (w : W) :
  ExtensionDemo.existing_extensions self = [] ->
  ExtensionDemo.browser self = None ->
  default [] (ExtensionDemo.arg_extension_zips args) = [] ->
  let ran := exec h (ExtensionDemo.run (ExtensionDemo.arg_prepare_only args) self) w in
  let out := exec h (ExtensionDemo.main args tt) w in
  (returned ran = Ok 1 \/ returned ran = Ok 130)
  /\ network_calls (trace ran)
     = match fst (h (boto3_client "sts" None) w) with
       | Ok _ => [sts_get_caller_identity]
       | Raise _ => []
       end
  /\ (exit_status (returned out) = 1 \/ exit_status (returned out) = 130)
  /\ (network_calls (trace out) = []
      \/ network_calls (trace out) = [sts_get_caller_identity]).
Proof.
  intros Hexts Hbrowser Hargs ran out.
  pose proof (run_without_extensions_outcome self (ExtensionDemo.arg_prepare_only args) w
                Hexts Hbrowser) as [Hcode Hcalls].
  pose proof (main_without_extensions_outcome args w Hargs) as [Hstatus Hnet].
  auto.
Qed.

End Orchestrator.

Section Pipeline.
Context {W : Type} (h : handler W) `{Runtime}.

Lemma run_steps_from_start (prepare_only : bool) :
  ExtensionDemo.run_steps prepare_only = steps_from prepare_only Prerequisites.
Proof. reflexivity. Qed.

(** After a stage that returned [True], the steps go on with the next stage. *)
Lemma steps_from_next (prepare_only : bool) (s s' : stage)
    (self : ExtensionDemo.t) (w : W) :
  next_stage prepare_only s = Some s' ->
  returned (exec h (stage_method s self) w) = Ok true ->
  exec h (steps_from prepare_only s self) w
  = let st := exec h (stage_method s self) w in
    let '(x, w2, t2) := exec h (steps_from prepare_only s' (self_after st)) (world_after st) in
    (x, w2, (trace st ++ t2)%list).
Proof.
  intros Hnext Hok.
  destruct s; cbn in Hnext; try discriminate;
    try (destruct prepare_only; [discriminate |]);
    injection Hnext as <-; cbn [stage_method] in *.
  all: unfold steps_from; rewrite exec_bind.
  all: match goal with
       | |- context [exec h (?m ?s0) ?w0] =>
           destruct (exec h (m s0) w0) as [[[r s1] w1] t1]
       end.
  all: unfold returned in Hok; cbn [fst snd] in Hok; subst r.
  all: cbn [negb returned self_after world_after trace fst snd]; reflexivity.
Qed.

Lemma reaches_run_steps (prepare_only : bool) (self : ExtensionDemo.t) (w : W)
    (s : stage) (self1 : ExtensionDemo.t) (w1 : W) (t1 : list event) :
  reaches h prepare_only self w s self1 w1 t1 ->
  exec h (ExtensionDemo.run_steps prepare_only self) w
  = let '(x, w2, t2) := exec h (steps_from prepare_only s self1) w1 in
    (x, w2, (t1 ++ t2)%list).
Proof.
  induction 1 as [| s s' self1 w1 t1 Hreach IH Hnext Hok].
  - rewrite run_steps_from_start.
    destruct (exec h (steps_from prepare_only Prerequisites self) w) as [[x w2] t2].
    reflexivity.
  - rewrite IH, (steps_from_next prepare_only s s' self1 w1 Hnext Hok). cbn zeta.
    destruct (exec h (steps_from prepare_only s' _) _) as [[x w2] t2].
    rewrite app_assoc. reflexivity.
Qed.
End Pipeline.

Section PipelineStages.
Context {W : Type} (h : handler W) `{Runtime}.

Lemma exec_on_browser {A} (m : M BrowserWithExtension.t A)
    (self : ExtensionDemo.t) (b : BrowserWithExtension.t) (w : W) :
  ExtensionDemo.browser self = Some b ->
  exec h (ExtensionDemo.on_browser m self) w
  = let '((r, b'), w1, t1) := exec h (m b) w in
    ((r, ExtensionDemo.set_browser self (Some b')), w1, t1).
Proof.
  intros Hb. unfold ExtensionDemo.on_browser. rewrite Hb, exec_pbind.
  destruct (exec h (m b) w) as [[[r b'] w1] t1]. cbn. rewrite app_nil_r. reflexivity.
Qed.

(** A session that [create_browser_session] reports is recorded in the object. *)
Lemma create_browser_session_records
    (b : BrowserWithExtension.t) (uris : list string) (name : option string) (w : W)
    (details : BrowserWithExtension.session_details) :
  let out := exec h (BrowserWithExtension.create_browser_session uris name b) w in
  returned out = Ok details ->
  is_Some (BrowserWithExtension.browser_session (self_after out)).
Proof.
  unfold BrowserWithExtension.create_browser_session.
  rewrite exec_bind. cbn [print exec].
  rewrite exec_bind. cbn [print exec].
  rewrite exec_bind.
  pose proof (print_numbered_run h 1 uris b w) as Hnum.
  destruct (exec h (print_numbered 1 uris b) w) as [[[r1 s1] w1] t1].
  destruct Hnum as (Hr & Hs & Hw & _).
  unfold returned, self_after, world_after in Hr, Hs, Hw.
  cbn [fst snd] in Hr, Hs, Hw. subst r1 s1 w1.
  destruct name as [n |]; [destruct (truthy n) |].
  all: all_answers h; intros Hret; try discriminate; eauto.
Qed.

Lemma verify_extension_loaded_run (b : BrowserWithExtension.t) (w : W) :
  let out := exec h (BrowserWithExtension.verify_extension_loaded b) w in
  self_after out = b /\ world_after out = w /\ calls_of (trace out) = []
  /\ exists answer, returned out = Ok answer.
Proof.
  unfold BrowserWithExtension.verify_extension_loaded. cbn.
  destruct (BrowserWithExtension.browser_session b); cbn; eauto 10.
Qed.

Lemma browser_init_self {S} (region : option string) (s : S) (w : W) :
  self_after (exec h (BrowserWithExtension.__init__ region s) w) = s.
Proof.
  unfold BrowserWithExtension.__init__, or_environ.
  destruct region as [r |]; [destruct (truthy r) |]; all_answers h; reflexivity.
Qed.

(** When [create_browser] returns [True], the demo holds a browser
    object with a session recorded. *)
Lemma create_browser_success (self : ExtensionDemo.t) (w : W) :
  let out := exec h (ExtensionDemo.create_browser self) w in
  returned out = Ok true ->
  exists b, ExtensionDemo.browser (self_after out) = Some b
            /\ is_Some (BrowserWithExtension.browser_session b).
Proof.
  unfold ExtensionDemo.create_browser.
  rewrite exec_try_except, exec_bind. cbn [get exec].
  rewrite exec_bind.
  pose proof (browser_init_self (Some (ExtensionDemo.region self)) self w) as Hinit.
  destruct (exec h (BrowserWithExtension.__init__ (Some (ExtensionDemo.region self)) self) w)
    as [[[[created | e] s1] w1] t1]; unfold self_after in Hinit; cbn [fst snd] in Hinit;
    subst s1.
  2:{ destruct e; cbn; intros; discriminate. }
  rewrite exec_bind. cbn [put exec]. rewrite exec_bind. cbn [get exec].
  rewrite exec_bind.
  rewrite (exec_on_browser _ _ created) by reflexivity.
  pose proof (create_browser_session_records created
                (ExtensionDemo.s3_uris (ExtensionDemo.set_browser self (Some created)))
                None w1) as Hrec.
  destruct (exec h (BrowserWithExtension.create_browser_session _ None created) w1)
    as [[[[details | e] b1] w2] t2].
  2:{ destruct e; cbn; intros; discriminate. }
  specialize (Hrec details eq_refl). unfold self_after in Hrec. cbn [fst snd] in Hrec.
  rewrite exec_bind.
  rewrite (exec_on_browser _ _ b1) by reflexivity.
  pose proof (verify_extension_loaded_run b1 w2) as (Hs & Hw & _ & [answer Hr]).
  destruct (exec h (BrowserWithExtension.verify_extension_loaded b1) w2)
    as [[[r3 b3] w3] t3].
  unfold returned, self_after, world_after in Hs, Hw, Hr. cbn [fst snd] in Hs, Hw, Hr.
  subst r3 b3 w3. cbn. intros _. eauto.
Qed.

Lemma test_extension_functionality_run (b : BrowserWithExtension.t) (url : string) (w : W) :
  is_Some (BrowserWithExtension.browser_session b) ->
  exists t, exec h (BrowserWithExtension.test_extension_functionality url b) w
            = ((Ok true, b), w, t).
Proof.
  intros [info Hinfo]. unfold BrowserWithExtension.test_extension_functionality.
  cbn. rewrite Hinfo. cbn. eauto.
Qed.

(** With a session recorded, [test_extension] returns [True]. *)
Lemma test_extension_succeeds (self : ExtensionDemo.t) (b : BrowserWithExtension.t) (w : W) :
  ExtensionDemo.browser self = Some b ->
  is_Some (BrowserWithExtension.browser_session b) ->
  returned (exec h (ExtensionDemo.test_extension self) w) = Ok true.
Proof.
  intros Hb Hsession. unfold ExtensionDemo.test_extension.
  rewrite exec_bind. cbn [print exec]. rewrite exec_bind. cbn [get exec].
  rewrite Hb. rewrite exec_bind.
  rewrite (exec_on_browser _ _ b _ Hb).
  destruct (test_extension_functionality_run b "https://aws.amazon.com" w Hsession)
    as [t ->].
  destruct (ExtensionDemo.skip_credentials self); reflexivity.
Qed.

Lemma reaches_test_extension (prepare_only : bool) (self : ExtensionDemo.t) (w : W)
    (self1 : ExtensionDemo.t) (w1 : W) (t1 : list event) :
  reaches h prepare_only self w TestExtension self1 w1 t1 ->
  returned (exec h (ExtensionDemo.test_extension self1) w1) = Ok true.
Proof.
  inversion 1 as [| s s' self0 w0 t0 Hreach Hnext Hok]; subst.
  destruct s; cbn in Hnext; try discriminate.
  - destruct prepare_only; discriminate.
  - cbn [stage_method] in *.
    destruct (create_browser_success self0 w0 Hok) as (b & Hb & Hsession).
    eapply test_extension_succeeds; eassumption.
Qed.

(** A stage that does not return [True] ends the steps: with 1 when it
    returned [False], with its exception when it raised. *)
Lemma failed_stage_ends_steps (prepare_only : bool) (s : stage)
    (self : ExtensionDemo.t) (w : W) :
  s <> TestExtension ->
  let st := exec h (stage_method s self) w in
  returned st <> Ok true ->
  exec h (steps_from prepare_only s self) w
  = ((match returned st with Ok _ => Ok 1 | Raise e => Raise e end, self_after st),
     world_after st, trace st).
Proof.
  intros Hs st Hfail. subst st.
  destruct s; try congruence; cbn [stage_method] in *.
  all: unfold steps_from; rewrite exec_bind.
  all: match goal with
       | |- context [exec h (?m ?s0) ?w0] =>
           destruct (exec h (m s0) w0) as [[[[[|] | e] s1] w1] t1]
       end.
  all: unfold returned in Hfail; cbn [fst snd] in Hfail; try congruence.
  all: cbn; rewrite ?app_nil_r; reflexivity.
Qed.
End PipelineStages.
Section PipelineRun.
Context {W : Type} (h : handler W) `{Runtime}.

Lemma cleanup_run (self : ExtensionDemo.t) (w : W) :
  let out := exec h (ExtensionDemo.cleanup self) w in
  (exists rest, trace out = Printed (nl +:+ "[cyan]🧹 Cleaning up...[/cyan]") :: rest)
  /\ calls_of (trace out) = cleanup_request self.
Proof.
  unfold ExtensionDemo.cleanup, cleanup_request. rewrite exec_bind. cbn [print exec].
  rewrite exec_bind. cbn [get exec].
  destruct (ExtensionDemo.browser self) as [b |] eqn:Hb; [| cbn; eauto].
  rewrite exec_bind, (exec_on_browser h _ _ b _ Hb).
  unfold BrowserWithExtension.close_session. cbn.
  destruct (BrowserWithExtension.active_session b) as [sid |]; cbn; [| eauto].
  destruct (h (agentcore_stop_browser_session sid) w) as [[[] | e] w1]; cbn; [eauto |].
  destruct e; cbn; eauto.
Qed.

(** The [finally] clause: what [run] does is what its guarded steps do,
    followed by [cleanup] on what they left. *)
Lemma run_is_guarded_then_cleanup (prepare_only : bool) (self : ExtensionDemo.t) (w : W) :
  let guarded := exec h (ExtensionDemo.run_guarded prepare_only self) w in
  let cleaned := exec h (ExtensionDemo.cleanup (self_after guarded)) (world_after guarded) in
  exec h (ExtensionDemo.run prepare_only self) w
  = ((match returned cleaned with Ok _ => returned guarded | Raise e => Raise e end,
      self_after cleaned),
     world_after cleaned,
     Printed ("[bold cyan]AgentCore Browser + Chrome Extension Demo[/bold cyan]" +:+ nl
              +:+ "Load Chrome Extensions into AWS AgentCore Browser")
       :: (trace guarded ++ trace cleaned)%list).
Proof.
  unfold ExtensionDemo.run, ExtensionDemo.print_header.
  rewrite exec_bind. cbn [print exec]. rewrite exec_try_finally.
  destruct (exec h (ExtensionDemo.run_guarded prepare_only self) w) as [[[r s1] w1] t1].
  cbn [self_after world_after returned trace fst snd].
  destruct (exec h (ExtensionDemo.cleanup s1) w1) as [[[rf s2] w2] t2].
  reflexivity.
Qed.

(** C6.  Whatever the guarded steps of [run] do (finish, fail, or get
    interrupted), [cleanup] runs after them on what they left: it prints
    its first line and sends the stop request of the session that is
    recorded as active, if any, and nothing else.  When a stage that
    the run has reached does not return [True], the guarded steps end
    with that stage: only the report of its exception, if it raised
    one, follows it before [cleanup]; the exit code is 1, or 130 for an
    interrupt, and the status of the process is not zero. *)
Theorem run_stops_at_first_failure_and_cleans_up
    (prepare_only : bool) (self : ExtensionDemo.t) (w : W) :
  let guarded := exec h (ExtensionDemo.run_guarded prepare_only self) w in
  let cleaned := exec h (ExtensionDemo.cleanup (self_after guarded)) (world_after guarded) in
  let out := exec h (ExtensionDemo.run prepare_only self) w in
  (exists header, trace out = Printed header :: (trace guarded ++ trace cleaned)%list)
  /\ self_after out = self_after cleaned
  /\ world_after out = world_after cleaned
  /\ returned out = match returned cleaned with
                    | Ok _ => returned guarded
                    | Raise e => Raise e
                    end
  /\ (exists rest,
         trace cleaned = Printed (nl +:+ "[cyan]🧹 Cleaning up...[/cyan]") :: rest)
  /\ calls_of (trace cleaned) = cleanup_request (self_after guarded)
  /\ (forall (s : stage) (self1 : ExtensionDemo.t) (w1 : W) (t1 : list event),
         reaches h prepare_only self w s self1 w1 t1 ->
         let failed := exec h (stage_method s self1) w1 in
         returned failed <> Ok true ->
         returned guarded = Ok (failure_code (returned failed))
         /\ trace guarded
            = (t1 ++ trace failed ++ failure_report (returned failed))%list
         /\ exit_status (returned out) <> 0).
Proof.
  intros guarded cleaned out.
  pose proof (run_is_guarded_then_cleanup prepare_only self w) as Hrun.
  fold guarded cleaned out in Hrun.
  pose proof (cleanup_run (self_after guarded) (world_after guarded)) as [Hfirst Hcalls].
  fold cleaned in Hfirst, Hcalls.
  assert (Hret : returned out = match returned cleaned with
                                | Ok _ => returned guarded
                                | Raise e => Raise e
                                end) by (rewrite Hrun; reflexivity).
  split; [rewrite Hrun; eexists; reflexivity |].
  split; [rewrite Hrun; reflexivity |].
  split; [rewrite Hrun; reflexivity |].
  split; [exact Hret |].
  split; [exact Hfirst |].
  split; [exact Hcalls |].
  intros s self1 w1 t1 Hreach failed Hfail.
  assert (Hguarded : returned guarded = Ok (failure_code (returned failed))
                     /\ trace guarded
                        = (t1 ++ trace failed ++ failure_report (returned failed))%list).
  { destruct (decide (s = TestExtension)) as [-> | Hs].
    { exfalso. apply Hfail. eapply reaches_test_extension. eassumption. }
    subst guarded. unfold ExtensionDemo.run_guarded.
    rewrite exec_try_except, (reaches_run_steps h prepare_only self w s self1 w1 t1 Hreach).
    rewrite (failed_stage_ends_steps h prepare_only s self1 w1 Hs Hfail).
    fold failed. destruct (returned failed) as [answer | e].
    - cbn. rewrite app_nil_r. auto.
    - destruct e; cbn; rewrite <- app_assoc; auto. }
  destruct Hguarded as [Hcode Htail]. split; [exact Hcode |]. split; [exact Htail |].
  rewrite Hret, Hcode. destruct (returned cleaned) as [u | e].
  - destruct (returned failed) as [answer | []]; cbn; lia.
  - destruct e; cbn; lia.
Qed.
End PipelineRun.

(** C3, as the claim states it, fails: a command line without
    [--extension-zip] ends with status 1, but only after the
    caller-identity request has gone to STS. *)
Lemma run_without_extensions_calls_sts :
  let out := exec Cloud.respond (ExtensionDemo.main no_arguments tt) office in
  exit_status (returned out) = 1
  /\ network_calls (trace out) = [sts_get_caller_identity].
Proof. vm_compute. auto. Qed.

Lemma run_without_extensions_witness :
  let ran := exec Cloud.respond (ExtensionDemo.run false demo_without_extensions) office in
  let out := exec Cloud.respond (ExtensionDemo.main no_arguments tt) office in
  ExtensionDemo.existing_extensions demo_without_extensions = []
  /\ ExtensionDemo.browser demo_without_extensions = None
  /\ default [] (ExtensionDemo.arg_extension_zips no_arguments) = []
  /\ (returned ran = Ok 1 \/ returned ran = Ok 130)
  /\ network_calls (trace ran) = [sts_get_caller_identity]
  /\ (exit_status (returned out) = 1 \/ exit_status (returned out) = 130).
Proof.
  intros ran out.
  pose proof (run_without_extensions Cloud.respond demo_without_extensions no_arguments
                office eq_refl eq_refl eq_refl) as (Hcode & Hcalls & Hstatus & _).
  split; [reflexivity |]. split; [reflexivity |]. split; [reflexivity |].
  split; [exact Hcode |]. split; [exact Hcalls | exact Hstatus].
Defined.

(** A run that is told to use the bucket of another account: the
    prerequisites and the preparation pass, the upload is refused, and
    the run ends there with status 1, after [cleanup]. *)
Lemma run_stops_witness :
  let self := demo_on_shared_bucket in
  let checked := exec Cloud.respond (ExtensionDemo.check_prerequisites self) office in
  let prepared := exec Cloud.respond (ExtensionDemo.prepare_extension (self_after checked))
                    (world_after checked) in
  let uploaded := exec Cloud.respond (ExtensionDemo.upload_to_s3 (self_after prepared))
                    (world_after prepared) in
  let out := exec Cloud.respond (ExtensionDemo.run false self) office in
  returned checked = Ok true
  /\ returned prepared = Ok true
  /\ returned uploaded = Ok false
  /\ exit_status (returned out) <> 0
  /\ network_calls (trace out)
     = [ sts_get_caller_identity;
         s3_head_bucket "shared-assets";
         s3_upload_file "bedrock-summary-extension-1769684400.zip" "shared-assets"
           "extensions/bedrock-summary-extension-1769684400.zip" "application/zip" ].
Proof.
  intros self checked prepared uploaded out.
  assert (H1 : returned checked = Ok true) by (vm_compute; reflexivity).
  assert (H2 : returned prepared = Ok true) by (vm_compute; reflexivity).
  assert (H3 : returned uploaded = Ok false) by (vm_compute; reflexivity).
  split; [exact H1 |]. split; [exact H2 |]. split; [exact H3 |]. split.
  - pose proof (run_stops_at_first_failure_and_cleans_up Cloud.respond false self office)
      as (_ & _ & _ & _ & _ & _ & Hstop).
    assert (Hreach : reaches Cloud.respond false self office Upload
                       (self_after prepared) (world_after prepared)
                       (([] ++ trace checked) ++ trace prepared)).
    { apply (reaches_next Cloud.respond false self office Prepare Upload
               (self_after checked) (world_after checked) ([] ++ trace checked));
        [| reflexivity | exact H2].
      apply (reaches_next Cloud.respond false self office Prerequisites Prepare
               self office []); [constructor | reflexivity | exact H1]. }
    apply (Hstop Upload _ _ _ Hreach).
    change (returned uploaded <> Ok true). rewrite H3. discriminate.
  - vm_compute. reflexivity.
Defined.

(** A run that succeeds: the session is stopped by [cleanup] once the
    user has pressed Enter. *)
Example run_to_the_end :
  let out := exec Cloud.respond (ExtensionDemo.run false demo_on_own_bucket) office in
  returned out = Ok 0
  /\ network_calls (trace out)
     = [ sts_get_caller_identity;
         s3_head_bucket "browser-extension-demo";
         s3_upload_file "bedrock-summary-extension-1769684400.zip"
           "browser-extension-demo"
           "extensions/bedrock-summary-extension-1769684400.zip" "application/zip";
         s3_head_object "browser-extension-demo"
           "extensions/bedrock-summary-extension-1769684400.zip";
         agentcore_start_browser_session "aws.browser.v1" "extension-demo-1769684401" 1800
           [{| loc_bucket := "browser-extension-demo";
               loc_prefix := "extensions/bedrock-summary-extension-1769684400.zip" |}];
         agentcore_stop_browser_session "session-0" ].
Proof. vm_compute. auto. Qed.

(** A run interrupted while the session starts: exit code 130, and
    [cleanup] finds no session to stop. *)
Example run_interrupted :
  let out := exec Cloud.respond (ExtensionDemo.run false demo_on_own_bucket)
               office_interrupted_at_start in
  returned out = Ok 130
  /\ List.skipn 42 (lines_of (trace out))
     = [ nl +:+ "[yellow]Interrupted by user[/yellow]";
         nl +:+ "[cyan]🧹 Cleaning up...[/cyan]";
         nl +:+ "[cyan]Closing browser session...[/cyan]";
         "[dim]No active session to close[/dim]";
         "[green]✓ Cleanup complete[/green]" +:+ nl ].
Proof. vm_compute. auto. Qed.

(** * Further properties *)

(** ** Reasoning over every environment *)

Lemma holds_exec {W A} (h : handler W) (allowed : call -> Prop) (post : A -> Prop)
    (p : prog A) (w : W) :
  holds allowed post p ->
  post (fst (fst (exec h p w)))
  /\ Forall allowed (calls_of (snd (exec h p w))).
Proof.
  revert w. induction p as [a | l k IH | c k IH]; intros w Hp; cbn in *.
  - split; [exact Hp | constructor].
  - specialize (IH w Hp). destruct (exec h k w) as [[a w1] t]. exact IH.
  - destruct Hp as [Hc Hk]. destruct (h c w) as [r w1].
    specialize (IH r w1 (Hk r)). destruct (exec h (k r) w1) as [[a w2] t].
    cbn in *. destruct IH as [Hpost Hcalls]. split; [exact Hpost |].
    constructor; assumption.
Qed.

Lemma holds_weaken {A} (allowed allowed' : call -> Prop) (post post' : A -> Prop)
    (p : prog A) :
  (forall c, allowed c -> allowed' c) ->
  (forall a, post a -> post' a) ->
  holds allowed post p -> holds allowed' post' p.
Proof.
  intros Hc Ha. induction p as [a | l k IH | c k IH]; cbn; [auto | auto |].
  intros [Hcall Hk]. split; [auto |]. intros r. apply IH, Hk.
Qed.

Lemma holds_pbind {A B} (allowed : call -> Prop) (mid : A -> Prop) (post : B -> Prop)
    (p : prog A) (f : A -> prog B) :
  holds allowed mid p ->
  (forall a, mid a -> holds allowed post (f a)) ->
  holds allowed post (pbind p f).
Proof.
  intros Hp Hf. induction p as [a | l k IH | c k IH]; cbn in *; [auto | auto |].
  destruct Hp as [Hc Hk]. split; [exact Hc |]. intros r. apply IH, Hk.
Qed.

Section HoldsM.
Context {S : Type} (allowed : call -> Prop).

Lemma holds_bind {A B} (mid : result A * S -> Prop) (post : result B * S -> Prop)
    (m : M S A) (f : A -> M S B) (s : S) :
  holds allowed mid (m s) ->
  (forall a s', mid (Ok a, s') -> holds allowed post (f a s')) ->
  (forall e s', mid (Raise e, s') -> post (Raise e, s')) ->
  holds allowed post (bind m f s).
Proof.
  intros Hm Hf He. unfold bind. eapply holds_pbind; [exact Hm |].
  intros [[a | e] s'] Hmid; cbn; auto.
Qed.

Lemma holds_try_except {A} (mid post : result A * S -> Prop)
    (m : M S A) (on_exn : exn -> option (M S A)) (s : S) :
  holds allowed mid (m s) ->
  (forall a s', mid (Ok a, s') -> post (Ok a, s')) ->
  (forall e s', mid (Raise e, s') ->
     match on_exn e with
     | Some handle => holds allowed post (handle s')
     | None => post (Raise e, s')
     end) ->
  holds allowed post (try_except m on_exn s).
Proof.
  intros Hm Hok He. unfold try_except. eapply holds_pbind; [exact Hm |].
  intros [[a | e] s'] Hmid; cbn; [auto |].
  specialize (He e s' Hmid). destruct (on_exn e); auto.
Qed.

Lemma holds_try_finally {A} (mid post : result A * S -> Prop)
    (m : M S A) (fin : M S unit) (s : S) :
  holds allowed mid (m s) ->
  (forall r s', mid (r, s') ->
     holds allowed
       (fun x => post (match fst x with Ok _ => r | Raise e => Raise e end, snd x))
       (fin s')) ->
  holds allowed post (try_finally m fin s).
Proof.
  intros Hm Hfin. unfold try_finally. eapply holds_pbind; [exact Hm |].
  intros [r s'] Hmid. eapply holds_pbind; [exact (Hfin r s' Hmid) |].
  intros [[u | e] s''] Hpost; cbn in *; exact Hpost.
Qed.

Lemma holds_on_object {T A} (mid : result A * T -> Prop) (post : result (A * T) * S -> Prop)
    (obj : T) (m : M T A) (s : S) :
  holds allowed mid (m obj) ->
  (forall a obj', mid (Ok a, obj') -> post (Ok (a, obj'), s)) ->
  (forall e obj', mid (Raise e, obj') -> post (Raise e, s)) ->
  holds allowed post (on_object obj m s).
Proof.
  intros Hm Hok He. unfold on_object. eapply holds_pbind; [exact Hm |].
  intros [[a | e] obj'] Hmid; cbn; [apply (Hok _ _ Hmid) | apply (He _ _ Hmid)].
Qed.
End HoldsM.

Lemma holds_anything {A} (p : prog A) : holds (fun _ => True) (fun _ => True) p.
Proof. induction p; cbn; auto. Qed.

(** Case analysis on the next comparison of strings. *)
Ltac next_code :=
  match goal with
  | |- context [String.eqb ?a ?b] =>
      let E := fresh "Hcode" in
      destruct (String.eqb a b) eqn:E; cbn -[String.eqb] in *;
      try (apply String.eqb_eq in E; subst)
  end.

(** ** Further properties of s3_manager.py *)

Section S3Requests.
Context {W : Type} (h : handler W).

(** X1.  [create_bucket] probes its own bucket with [head_bucket] and
    sends nothing else, or sends exactly one creation request for that
    bucket and region after the probe; the creation request is sent
    only when the probe failed with the error code 404. *)
Theorem create_bucket_requests (self : S3Manager.t) (w : W) :
  let out := exec h (S3Manager.create_bucket self) w in
  let probe := s3_head_bucket (S3Manager.bucket_name self) in
  calls_of (trace out) = [probe]
  \/ (calls_of (trace out) = [probe; create_request self]
      /\ exists message, fst (h probe w) = Raise (ClientError "404" message)).
Proof.
  unfold S3Manager.create_bucket, create_request. cbn -[String.eqb].
  next_answer h; [left; reflexivity | | left; reflexivity | left; reflexivity].
  destruct (String.eqb code "404") eqn:Hcode; cbn -[String.eqb].
  - apply String.eqb_eq in Hcode. subst. right. split; [| eexists; reflexivity].
    destruct (String.eqb (S3Manager.region self) "us-east-1"); cbn -[String.eqb];
      (next_answer h; [reflexivity | | reflexivity | reflexivity];
       repeat next_code; reflexivity).
  - left. next_code; reflexivity.
Qed.

(** X2.  [create_bucket] returns [False] only when the probe of the
    bucket failed with the code 404 and the creation request that
    followed was refused with the code [BucketAlreadyExists]. *)
Theorem create_bucket_false_means_name_taken (self : S3Manager.t) (w : W) :
  let out := exec h (S3Manager.create_bucket self) w in
  let probe := h (s3_head_bucket (S3Manager.bucket_name self)) w in
  returned out = Ok false ->
  exists missing refusal,
    fst probe = Raise (ClientError "404" missing)
    /\ fst (h (create_request self) (snd probe))
       = Raise (ClientError "BucketAlreadyExists" refusal).
Proof.
  unfold S3Manager.create_bucket, create_request. cbn -[String.eqb].
  next_answer h; try discriminate.
  destruct (String.eqb code "404") eqn:Hcode; cbn -[String.eqb];
    [| next_code; discriminate].
  apply String.eqb_eq in Hcode. subst.
  destruct (String.eqb (S3Manager.region self) "us-east-1"); cbn -[String.eqb];
    (next_answer h; try discriminate;
     destruct (String.eqb code "BucketAlreadyOwnedByYou"); cbn -[String.eqb];
     [discriminate |];
     destruct (String.eqb code "BucketAlreadyExists") eqn:Hcode; cbn -[String.eqb];
     [| discriminate];
     apply String.eqb_eq in Hcode; subst; intros _; eauto).
Qed.
End S3Requests.

(** ** The order of strings *)

Lemma string_leb_trans (a b c : string) :
  String.leb a b = true -> String.leb b c = true -> String.leb a c = true.
Proof.
  unfold String.leb. revert b c.
  induction a as [| x a IH]; intros [| y b] [| z c]; cbn; try congruence.
  unfold Ascii.compare.
  destruct (N.compare_spec (N_of_ascii x) (N_of_ascii y)) as [Hxy | Hxy | Hxy];
    destruct (N.compare_spec (N_of_ascii y) (N_of_ascii z)) as [Hyz | Hyz | Hyz];
    destruct (N.compare_spec (N_of_ascii x) (N_of_ascii z)) as [Hxz | Hxz | Hxz];
    try congruence; try lia.
  apply IH.
Qed.

Lemma string_leb_total (a b : string) : String.leb a b = false -> String.leb b a = true.
Proof.
  intros Hab. destruct (String.leb_total a b) as [H | H]; congruence.
Qed.

(** ** [list.sort(reverse=True)] *)

Lemma insert_desc_perm (x : string) (l : list string) : insert_desc x l ≡ₚ x :: l.
Proof.
  induction l as [| y l IH]; cbn; [reflexivity |].
  destruct (String.leb y x); [reflexivity |].
  rewrite IH. apply Permutation_swap.
Qed.

Lemma insert_desc_descending (x : string) (l : list string) :
  descending l -> descending (insert_desc x l).
Proof.
  unfold descending. induction 1 as [| y l Hl IH Hy]; cbn.
  - constructor; constructor.
  - destruct (String.leb y x) eqn:Hyx.
    + constructor; [constructor; assumption |].
      constructor; [exact Hyx |].
      eapply Forall_impl; [exact Hy |].
      intros z Hz. cbn in Hz. eapply string_leb_trans; eassumption.
    + constructor; [exact IH |].
      rewrite insert_desc_perm. constructor; [| exact Hy].
      apply string_leb_total, Hyx.
Qed.

Lemma sort_reverse_descending (l : list string) : descending (sort_reverse l).
Proof.
  induction l as [| x l IH]; cbn; [constructor | apply insert_desc_descending, IH].
Qed.

Lemma descending_split (l1 l2 : list string) (a b : string) :
  descending (l1 ++ l2)%list -> In a l1 -> In b l2 -> String.leb b a = true.
Proof.
  unfold descending. induction l1 as [| x l1 IH]; cbn; [tauto |].
  intros Hs [-> | Ha] Hb.
  - apply StronglySorted_inv in Hs as [_ Hx].
    rewrite Forall_forall in Hx. apply Hx. rewrite list_elem_of_In.
    apply in_or_app. auto.
  - apply StronglySorted_inv in Hs as [Hs _]. auto.
Qed.

(** X3.  After [extensions.sort(reverse=True)], no key of
    [extensions[keep_latest:]], the keys to delete, is greater than a
    key among the first [keep_latest], the keys that stay. *)
Theorem sort_reverse_keeps_greatest (keys : list string) (keep_latest : nat)
    (kept deleted : string) :
  In kept (firstn keep_latest (sort_reverse keys)) ->
  In deleted (skipn keep_latest (sort_reverse keys)) ->
  String.leb deleted kept = true.
Proof.
  intros Hk Hd.
  apply (descending_split (firstn keep_latest (sort_reverse keys))
           (skipn keep_latest (sort_reverse keys))); try assumption.
  rewrite firstn_skipn. apply sort_reverse_descending.
Qed.

Section S3Cleanup.
Context {W : Type} (h : handler W).

Lemma delete_each_run (self : S3Manager.t) (keys : list string)
    (s : S3Manager.t) (w : W) :
  let out := exec h (S3Manager.delete_each self keys s) w in
  returned out = Raise KeyboardInterrupt
  \/ (returned out = Ok tt
      /\ calls_of (trace out)
         = List.map (s3_delete_object (S3Manager.bucket_name self)) keys).
Proof.
  revert s w. induction keys as [| key keys IH]; intros s w.
  - right. cbn. auto.
  - cbn [S3Manager.delete_each]. rewrite exec_bind, exec_try_except. cbn.
    destruct (h (s3_delete_object (S3Manager.bucket_name self) key) w)
      as [[[] | [code message | | class message]] w1]; cbn.
    + specialize (IH s w1).
      destruct (exec h (S3Manager.delete_each self keys s) w1) as [[[r s2] w2] t2].
      cbn in *. destruct IH as [-> | [-> ->]]; auto.
    + specialize (IH s w1).
      destruct (exec h (S3Manager.delete_each self keys s) w1) as [[[r s2] w2] t2].
      cbn in *. destruct IH as [-> | [-> ->]]; auto.
    + left. reflexivity.
    + specialize (IH s w1).
      destruct (exec h (S3Manager.delete_each self keys s) w1) as [[[r s2] w2] t2].
      cbn in *. destruct IH as [-> | [-> ->]]; auto.
Qed.

Lemma length_insert_desc (x : string) (l : list string) :
  List.length (insert_desc x l) = Datatypes.S (List.length l).
Proof.
  induction l as [| y l IH]; cbn; [reflexivity |].
  destruct (String.leb y x); cbn; [reflexivity | rewrite IH; reflexivity].
Qed.

Lemma length_sort_reverse (l : list string) :
  List.length (sort_reverse l) = List.length l.
Proof.
  induction l as [| x l IH]; [reflexivity |].
  change (sort_reverse (x :: l)) with (insert_desc x (sort_reverse l)).
  rewrite length_insert_desc, IH. reflexivity.
Qed.

Lemma list_extensions_run (self : S3Manager.t) (w : W) :
  let out := exec h (S3Manager.list_extensions self) w in
  self_after out = self
  /\ calls_of (trace out) = [s3_list_objects_v2 (S3Manager.bucket_name self) "extensions/"].
Proof.
  unfold S3Manager.list_extensions. cbn.
  destruct (h (s3_list_objects_v2 (S3Manager.bucket_name self) "extensions/") w)
    as [[[keys |] | [code message | | class message]] w1]; cbn; auto.
Qed.

(** X4.  When [list_extensions] returns [keys],
    [cleanup_old_extensions] either lets a [KeyboardInterrupt] through
    or returns normally, and it has then sent the listing request
    followed by one delete request, in descending order, for every key
    after the [keep_latest] greatest ones.  So a delete that fails with
    an [Exception] does not stop the later ones, and nothing is deleted
    when there are at most [keep_latest] keys. *)
Theorem cleanup_old_extensions_deletes (self : S3Manager.t) (keep_latest : nat)
    (keys : list string) (w : W) :
  let listing := exec h (S3Manager.list_extensions self) w in
  let out := exec h (S3Manager.cleanup_old_extensions keep_latest self) w in
  returned listing = Ok keys ->
  returned out = Raise KeyboardInterrupt
  \/ (returned out = Ok tt
      /\ calls_of (trace out)
         = s3_list_objects_v2 (S3Manager.bucket_name self) "extensions/"
             :: List.map (s3_delete_object (S3Manager.bucket_name self))
                  (List.skipn keep_latest (sort_reverse keys))).
Proof.
  unfold S3Manager.cleanup_old_extensions.
  cbn [bind get pbind print exec].
  rewrite exec_bind.
  pose proof (list_extensions_run self w) as Hrun.
  destruct (exec h (S3Manager.list_extensions self) w) as [[[r s1] w1] t1].
  cbn [self_after trace returned fst snd] in *. destruct Hrun as [-> Hcalls].
  intros ->.
  destruct (List.length keys <=? keep_latest)%nat eqn:Hfew.
  - right. apply Nat.leb_le in Hfew.
    rewrite skipn_all2 by (rewrite length_sort_reverse; exact Hfew).
    cbn. rewrite calls_of_app, Hcalls. auto.
  - cbn [bind pbind print exec].
    change (pbind (S3Manager.delete_each self ?ks self) ?f)
      with (bind (S3Manager.delete_each self ks) (fun _ => print "[green]✓[/green] Cleanup complete") self).
    rewrite exec_bind.
    pose proof (delete_each_run self (List.skipn keep_latest (sort_reverse keys)) self w1)
      as Hdel.
    destruct (exec h (S3Manager.delete_each self (List.skipn keep_latest (sort_reverse keys)) self) w1)
      as [[[r2 s2] w2] t2].
    cbn [self_after trace returned fst snd] in *. destruct Hdel as [-> | [-> Hdel]]; cbn.
    + left. reflexivity.
    + right. split; [reflexivity |].
      rewrite !calls_of_app, Hcalls. cbn. rewrite calls_of_app, Hdel. cbn.
      rewrite app_nil_r. reflexivity.
Qed.
End S3Cleanup.

(** Case analysis on everything the environment may answer. *)
Ltac holds_cases :=
  repeat (cbn -[String.eqb In] in *;
          match goal with
          | |- _ /\ _ => split
          | |- forall _, _ => intro
          | r : result _ |- _ => destruct r
          | e : exn |- holds _ _ _ => destruct e
          | |- context [String.eqb ?a ?b] => destruct (String.eqb a b) eqn:?
          | b : bool |- holds _ _ _ => destruct b
          | o : option _ |- holds _ _ _ => destruct o
          end);
  cbn -[String.eqb In] in *.

Section S3Isolation.
Context `{Runtime}.
Variables (self : S3Manager.t) (extension_path : string).

Lemma holds_create_bucket (allowed : call -> Prop) :
  allowed (s3_head_bucket (S3Manager.bucket_name self)) ->
  allowed (create_request self) ->
  holds allowed (fun r => snd r = self) (S3Manager.create_bucket self).
Proof.
  unfold create_request. intros Hhead Hcreate.
  unfold S3Manager.create_bucket. holds_cases; auto.
Qed.

Lemma holds_upload_extension (allowed : call -> Prop) :
  allowed (path_stat_size extension_path) ->
  allowed (s3_upload_file extension_path (S3Manager.bucket_name self) (object_key_of extension_path)
             "application/zip") ->
  holds allowed
    (fun r => snd r = self /\ forall uri, fst r = Ok uri -> uri = (locator_of (S3Manager.bucket_name self) extension_path))
    (S3Manager.upload_extension extension_path None self).
Proof.
  intros Hstat Hupload. unfold S3Manager.upload_extension.
  holds_cases; auto; unfold locator_of, object_key_of; congruence.
Qed.

Lemma holds_verify_access (allowed : call -> Prop) :
  has_char "/" (S3Manager.bucket_name self) = false ->
  allowed (s3_head_object (S3Manager.bucket_name self) (object_key_of extension_path)) ->
  holds allowed (fun r => snd r = self) (S3Manager.verify_access (locator_of (S3Manager.bucket_name self) extension_path) self).
Proof.
  intros Hname Hhead. unfold S3Manager.verify_access, locator_of.
  cbn [bind pbind print].
  rewrite startswith_s3_uri, (parse_s3_uri_of_upload _ _ Hname).
  holds_cases; auto.
Qed.

Lemma holds_verify_access_any (allowed : call -> Prop) (uri : string) :
  (forall bucket key, allowed (s3_head_object bucket key)) ->
  holds allowed (fun r => snd r = self) (S3Manager.verify_access uri self).
Proof.
  intros Hhead. unfold S3Manager.verify_access.
  cbn [bind pbind print].
  destruct (startswith uri "s3://"), (S3Manager.parse_s3_uri uri) as [bucket key];
    holds_cases; auto.
Qed.

Lemma holds_setup_and_upload_with (allowed : call -> Prop) :
  allowed (s3_head_bucket (S3Manager.bucket_name self)) ->
  allowed (create_request self) ->
  allowed (path_stat_size extension_path) ->
  allowed (s3_upload_file extension_path (S3Manager.bucket_name self) (object_key_of extension_path)
             "application/zip") ->
  holds allowed (fun r => snd r = self) (S3Manager.verify_access (locator_of (S3Manager.bucket_name self) extension_path) self) ->
  holds allowed
    (fun r => snd r = self
              /\ forall uri, fst r = Ok (Some uri) -> uri = (locator_of (S3Manager.bucket_name self) extension_path))
    (S3Manager.setup_and_upload extension_path self).
Proof.
  intros Hhead Hcreate Hstat Hupload Hverify.
  unfold S3Manager.setup_and_upload. cbn [bind pbind print holds].
  eapply holds_pbind; [apply holds_create_bucket; assumption |].
  intros [[[|] | e] s] Hs; cbn [snd] in Hs; subst s; cbn -[S3Manager.upload_extension S3Manager.verify_access];
    [| split; [reflexivity | discriminate] | split; [reflexivity | discriminate]].
  pose (mid := fun r : result (option string) * S3Manager.t =>
                snd r = self /\ forall uri, fst r = Ok (Some uri) -> uri = (locator_of (S3Manager.bucket_name self) extension_path)).
  eapply (holds_pbind _ mid).
  { eapply (holds_try_except _ mid).
    - eapply holds_bind; [apply holds_upload_extension; assumption | |].
      + intros uri s [Hs Huri]; cbn [fst snd] in *; subst s. cbn.
        split; [reflexivity |]. intros uri' [= <-]. auto.
      + intros e s [Hs _]. split; [exact Hs | discriminate].
    - auto.
    - intros e s [Hs _]. cbn [snd] in Hs. subst s.
      destruct (is_Exception e); cbn; (split; [reflexivity | discriminate]). }
  intros [[[uri |] | e] s] [Hs Huri]; cbn [fst snd] in *; subst s;
    [| cbn; split; [reflexivity | discriminate] | cbn; split; [reflexivity | discriminate]].
  rewrite (Huri uri eq_refl).
  eapply holds_pbind; [exact Hverify |].
  intros [[[|] | e] s] Hs; cbn [snd] in Hs; subst s; cbn;
    (split; [reflexivity |]); congruence.
Qed.

Lemma holds_setup_and_upload (allowed : call -> Prop) :
  has_char "/" (S3Manager.bucket_name self) = false ->
  allowed (s3_head_bucket (S3Manager.bucket_name self)) ->
  allowed (create_request self) ->
  allowed (path_stat_size extension_path) ->
  allowed (s3_upload_file extension_path (S3Manager.bucket_name self) (object_key_of extension_path)
             "application/zip") ->
  allowed (s3_head_object (S3Manager.bucket_name self) (object_key_of extension_path)) ->
  holds allowed
    (fun r => snd r = self
              /\ forall uri, fst r = Ok (Some uri) -> uri = (locator_of (S3Manager.bucket_name self) extension_path))
    (S3Manager.setup_and_upload extension_path self).
Proof.
  intros Hname Hhead Hcreate Hstat Hupload Hobject.
  apply holds_setup_and_upload_with; try assumption.
  apply holds_verify_access; assumption.
Qed.
End S3Isolation.

Section S3Upload.
Context {W : Type} (h : handler W) `{Runtime}.

(** X5.  For a bucket name without a slash, whatever the environment
    answers, [setup_and_upload] only probes and creates its own bucket,
    reads the size of the given file, uploads that file to its own
    bucket under [extensions/<file name>], and looks up that same
    bucket and key. *)
Theorem setup_and_upload_stays_in_bucket
    (self : S3Manager.t) (extension_path : string) (w : W) :
  let object_key := "extensions/" +:+ path_name extension_path in
  let out := exec h (S3Manager.setup_and_upload extension_path self) w in
  has_char "/" (S3Manager.bucket_name self) = false ->
  Forall (fun c => In c [ s3_head_bucket (S3Manager.bucket_name self);
                          create_request self;
                          path_stat_size extension_path;
                          s3_upload_file extension_path (S3Manager.bucket_name self)
                            object_key "application/zip";
                          s3_head_object (S3Manager.bucket_name self) object_key ])
    (calls_of (trace out)).
Proof.
  intros object_key out Hname.
  eapply (holds_exec h _ _ _ w).
  apply (holds_setup_and_upload self extension_path); cbn; auto 10.
Qed.

(** X6.  For a bucket name without a slash, a locator that
    [setup_and_upload] returns is [s3://<bucket>/extensions/<file name>];
    the manager's fields are unchanged; and the loop of
    [create_browser_session] reads that locator back as that bucket and
    that key. *)
Theorem setup_and_upload_returns_own_locator
    (self : S3Manager.t) (extension_path : string) (w : W) (uri : string) :
  let object_key := "extensions/" +:+ path_name extension_path in
  let out := exec h (S3Manager.setup_and_upload extension_path self) w in
  has_char "/" (S3Manager.bucket_name self) = false ->
  returned out = Ok (Some uri) ->
  uri = "s3://" +:+ S3Manager.bucket_name self +:+ "/" +:+ object_key
  /\ self_after out = self
  /\ BrowserWithExtension.parse_extensions [uri]
     = [{| loc_bucket := S3Manager.bucket_name self; loc_prefix := object_key |}].
Proof.
  intros object_key out Hname Hout.
  destruct (holds_exec h (fun _ => True) _ _ w
              (holds_setup_and_upload self extension_path (fun _ => True)
                 Hname I I I I I)) as [[Hself Huri] _].
  specialize (Huri uri Hout). unfold locator_of, object_key_of in Huri.
  split; [exact Huri |]. split; [exact Hself |].
  rewrite Huri. cbn [BrowserWithExtension.parse_extensions].
  rewrite startswith_s3_uri, (parse_s3_uri_of_upload _ _ Hname). reflexivity.
Qed.
End S3Upload.

Section S3UploadFailure.
Context {W : Type} (h : handler W) `{Runtime}.

(** X7.  When [stat] on the local file raises, [upload_extension]
    makes no other call, so nothing is uploaded, and the same exception
    leaves it. *)
Theorem upload_extension_unreadable_file
    (self : S3Manager.t) (extension_path : string) (key : option string)
    (w : W) (e : exn) :
  let out := exec h (S3Manager.upload_extension extension_path key self) w in
  fst (h (path_stat_size extension_path) w) = Raise e ->
  returned out = Raise e
  /\ calls_of (trace out) = [path_stat_size extension_path].
Proof.
  unfold S3Manager.upload_extension. cbn.
  destruct (h (path_stat_size extension_path) w) as [r w1]. cbn. intros ->.
  destruct e; cbn; auto.
Qed.
End S3UploadFailure.

Lemma create_bucket_false_witness :
  returned (exec Cloud.respond (S3Manager.create_bucket shared_bucket)
              office_with_late_bucket) = Ok false
  /\ exists missing refusal,
       fst (Cloud.respond (s3_head_bucket "shared-assets") office_with_late_bucket)
       = Raise (ClientError "404" missing)
       /\ fst (Cloud.respond (create_request shared_bucket)
                 (snd (Cloud.respond (s3_head_bucket "shared-assets")
                         office_with_late_bucket)))
          = Raise (ClientError "BucketAlreadyExists" refusal).
Proof.
  split; [reflexivity |].
  apply (create_bucket_false_means_name_taken Cloud.respond shared_bucket
           office_with_late_bucket).
  reflexivity.
Defined.

Lemma upload_extension_unreadable_witness :
  fst (Cloud.respond (path_stat_size "missing.zip") office)
  = Raise (OtherException "FileNotFoundError" "missing.zip")
  /\ returned (exec Cloud.respond
                 (S3Manager.upload_extension "missing.zip" None demo_bucket) office)
     = Raise (OtherException "FileNotFoundError" "missing.zip")
  /\ calls_of (trace (exec Cloud.respond
                        (S3Manager.upload_extension "missing.zip" None demo_bucket)
                        office))
     = [path_stat_size "missing.zip"].
Proof.
  split; [reflexivity |].
  apply (upload_extension_unreadable_file Cloud.respond demo_bucket "missing.zip" None
           office).
  reflexivity.
Defined.

Lemma setup_and_upload_stays_in_bucket_witness :
  has_char "/" (S3Manager.bucket_name demo_bucket) = false
  /\ Forall (fun c => In c [ s3_head_bucket "browser-extension-demo";
                             create_request demo_bucket;
                             path_stat_size "stealth-extension.zip";
                             s3_upload_file "stealth-extension.zip"
                               "browser-extension-demo"
                               ("extensions/" +:+ path_name "stealth-extension.zip")
                               "application/zip";
                             s3_head_object "browser-extension-demo"
                               ("extensions/" +:+ path_name "stealth-extension.zip") ])
       (calls_of (trace (exec Cloud.respond
                           (S3Manager.setup_and_upload "stealth-extension.zip" demo_bucket)
                           office))).
Proof.
  split; [reflexivity |].
  apply (setup_and_upload_stays_in_bucket Cloud.respond demo_bucket
           "stealth-extension.zip" office).
  reflexivity.
Defined.

Lemma setup_and_upload_locator_witness :
  has_char "/" (S3Manager.bucket_name demo_bucket) = false
  /\ returned (exec Cloud.respond
                 (S3Manager.setup_and_upload "stealth-extension.zip" demo_bucket) office)
     = Ok (Some "s3://browser-extension-demo/extensions/stealth-extension.zip")
  /\ BrowserWithExtension.parse_extensions
       ["s3://browser-extension-demo/extensions/stealth-extension.zip"]
     = [{| loc_bucket := "browser-extension-demo";
           loc_prefix := "extensions/stealth-extension.zip" |}].
Proof.
  split; [reflexivity |]. split; [reflexivity |].
  apply (setup_and_upload_returns_own_locator Cloud.respond demo_bucket
           "stealth-extension.zip" office
           "s3://browser-extension-demo/extensions/stealth-extension.zip");
    reflexivity.
Defined.

Lemma cleanup_old_extensions_witness :
  let out := exec Cloud.respond (S3Manager.cleanup_old_extensions 3 demo_bucket)
               office_with_versions in
  returned (exec Cloud.respond (S3Manager.list_extensions demo_bucket)
              office_with_versions)
  = Ok ["extensions/ext-1769684300.zip"; "extensions/ext-1769684500.zip";
        "extensions/ext-1769684100.zip"; "extensions/ext-1769684200.zip";
        "extensions/ext-1769684400.zip"]
  /\ (returned out = Raise KeyboardInterrupt
      \/ (returned out = Ok tt
          /\ calls_of (trace out)
             = [ s3_list_objects_v2 "browser-extension-demo" "extensions/";
                 s3_delete_object "browser-extension-demo" "extensions/ext-1769684200.zip";
                 s3_delete_object "browser-extension-demo" "extensions/ext-1769684100.zip" ])).
Proof.
  split; [vm_compute; reflexivity |].
  apply (cleanup_old_extensions_deletes Cloud.respond demo_bucket 3
           ["extensions/ext-1769684300.zip"; "extensions/ext-1769684500.zip";
            "extensions/ext-1769684100.zip"; "extensions/ext-1769684200.zip";
            "extensions/ext-1769684400.zip"] office_with_versions).
  vm_compute. reflexivity.
Defined.

Lemma sort_reverse_keeps_greatest_witness :
  let keys := ["extensions/ext-1769684300.zip"; "extensions/ext-1769684500.zip";
               "extensions/ext-1769684100.zip"; "extensions/ext-1769684200.zip";
               "extensions/ext-1769684400.zip"] in
  In "extensions/ext-1769684300.zip" (firstn 3 (sort_reverse keys))
  /\ In "extensions/ext-1769684200.zip" (skipn 3 (sort_reverse keys))
  /\ String.leb "extensions/ext-1769684200.zip" "extensions/ext-1769684300.zip" = true.
Proof.
  intros keys.
  assert (Hkept : In "extensions/ext-1769684300.zip" (firstn 3 (sort_reverse keys)))
    by (vm_compute; auto).
  assert (Hdeleted : In "extensions/ext-1769684200.zip" (skipn 3 (sort_reverse keys)))
    by (vm_compute; auto).
  split; [exact Hkept |]. split; [exact Hdeleted |].
  exact (sort_reverse_keeps_greatest keys 3 _ _ Hkept Hdeleted).
Defined.

(** ** Further properties of browser_with_extension.py *)

Lemma holds_print_numbered {St} (allowed : call -> Prop) (start : nat)
    (xs : list string) (s : St) :
  holds allowed (fun r => r = (Ok tt, s)) (print_numbered start xs s).
Proof.
  revert start. induction xs as [| x xs IH]; intros start; cbn; [reflexivity |].
  apply IH.
Qed.

Section BrowserSession.
Context {W : Type} (h : handler W).

Lemma holds_create_browser_session
    (self : BrowserWithExtension.t) (uris : list string) (name : option string) :
  holds (fun _ => True)
    (fun r =>
       match fst r with
       | Ok details =>
           (exists session_name,
              snd r = {| BrowserWithExtension.region := BrowserWithExtension.region self;
                         BrowserWithExtension.browser_session :=
                           Some {| BrowserWithExtension.info_session_id :=
                                     BrowserWithExtension.details_session_id details;
                                   BrowserWithExtension.info_session_name := session_name;
                                   BrowserWithExtension.info_region :=
                                     BrowserWithExtension.region self |};
                         BrowserWithExtension.session_id :=
                           Some (BrowserWithExtension.details_session_id details) |})
           /\ BrowserWithExtension.details_region details = BrowserWithExtension.region self
           /\ BrowserWithExtension.details_extensions details = uris
           /\ BrowserWithExtension.details_status details = "active"
       | Raise _ => snd r = self
       end)
    (BrowserWithExtension.create_browser_session uris name self).
Proof.
  unfold BrowserWithExtension.create_browser_session.
  cbn [bind pbind print holds].
  eapply holds_pbind; [apply holds_print_numbered |].
  intros r ->. cbn [bind pbind print holds get].
  destruct name as [n |]; [destruct (truthy n) |]; holds_cases; eauto.
Qed.

Lemma create_browser_session_effect
    (self : BrowserWithExtension.t) (uris : list string) (name : option string) (w : W) :
  let out := exec h (BrowserWithExtension.create_browser_session uris name self) w in
  match returned out with
  | Ok details =>
      BrowserWithExtension.session_id (self_after out)
      = Some (BrowserWithExtension.details_session_id details)
      /\ option_map BrowserWithExtension.info_session_id
           (BrowserWithExtension.browser_session (self_after out))
         = Some (BrowserWithExtension.details_session_id details)
  | Raise _ => self_after out = self
  end.
Proof.
  intros out.
  destruct (holds_exec h _ _ _ w
              (holds_create_browser_session self uris name)) as [Hpost _].
  fold out in Hpost. unfold returned, self_after.
  destruct (fst (fst out)) as [[details |] b]; cbn in *; [| exact Hpost].
  destruct Hpost as ([session_name ->] & _). cbn. auto.
Qed.

(** X8.  When [create_browser_session] returns, the object records the
    returned session identifier both in [session_id] and in
    [browser_session], its region is unchanged, and the details carry
    that region, the locators as they were given and the status
    [active].  When it raises, the fields of the object are unchanged. *)
Theorem create_browser_session_outcome
    (self : BrowserWithExtension.t) (uris : list string) (name : option string) (w : W) :
  let out := exec h (BrowserWithExtension.create_browser_session uris name self) w in
  match returned out with
  | Ok details =>
      BrowserWithExtension.session_id (self_after out)
      = Some (BrowserWithExtension.details_session_id details)
      /\ option_map BrowserWithExtension.info_session_id
           (BrowserWithExtension.browser_session (self_after out))
         = Some (BrowserWithExtension.details_session_id details)
      /\ BrowserWithExtension.region (self_after out) = BrowserWithExtension.region self
      /\ BrowserWithExtension.details_region details = BrowserWithExtension.region self
      /\ BrowserWithExtension.details_extensions details = uris
      /\ BrowserWithExtension.details_status details = "active"
  | Raise _ => self_after out = self
  end.
Proof.
  intros out.
  destruct (holds_exec h _ _ _ w
              (holds_create_browser_session self uris name)) as [Hpost _].
  fold out in Hpost. unfold returned, self_after.
  destruct (fst (fst out)) as [[details |] b]; cbn in *; [| exact Hpost].
  destruct Hpost as ([session_name ->] & Hregion & Huris & Hstatus). cbn. auto 10.
Qed.

Lemma close_session_request (self : BrowserWithExtension.t) (sid : string) (w : W) :
  BrowserWithExtension.active_session self = Some sid ->
  calls_of (trace (exec h (BrowserWithExtension.close_session self) w))
  = [agentcore_stop_browser_session sid].
Proof.
  intros Hactive. unfold BrowserWithExtension.close_session.
  cbn -[BrowserWithExtension.active_session]. rewrite Hactive. cbn.
  destruct (h (agentcore_stop_browser_session sid) w)
    as [[[] | [code message | | class message]] w1]; reflexivity.
Qed.

(** X9.  After [create_browser_session] returned details with a
    non-empty session identifier, [close_session] on the same object
    sends exactly one stop request, for that identifier; when the
    service accepts it, [close_session] returns and both session fields
    are [None] again. *)
Theorem create_then_close_stops_that_session
    (self : BrowserWithExtension.t) (uris : list string) (name : option string) (w : W)
    (details : BrowserWithExtension.session_details) :
  let created := exec h (BrowserWithExtension.create_browser_session uris name self) w in
  let closed := exec h (BrowserWithExtension.close_session (self_after created))
                  (world_after created) in
  let stop := agentcore_stop_browser_session
                (BrowserWithExtension.details_session_id details) in
  returned created = Ok details ->
  truthy (BrowserWithExtension.details_session_id details) = true ->
  calls_of (trace closed) = [stop]
  /\ (fst (h stop (world_after created)) = Ok tt ->
      returned closed = Ok tt
      /\ BrowserWithExtension.browser_session (self_after closed) = None
      /\ BrowserWithExtension.session_id (self_after closed) = None).
Proof.
  intros created closed stop Hcreated Hid.
  pose proof (create_browser_session_effect self uris name w) as Hout.
  cbv zeta in Hout. fold created in Hout. rewrite Hcreated in Hout.
  destruct Hout as (Hsid & Hinfo).
  assert (Hactive : BrowserWithExtension.active_session (self_after created)
                    = Some (BrowserWithExtension.details_session_id details)).
  { unfold BrowserWithExtension.active_session. rewrite Hsid.
    destruct (BrowserWithExtension.browser_session (self_after created));
      [| discriminate].
    rewrite Hid. reflexivity. }
  split; [apply close_session_request, Hactive |].
  intros Hstop. subst closed.
  set (b := self_after created) in *. set (w1 := world_after created) in *.
  clearbody b w1. unfold BrowserWithExtension.close_session.
  cbn -[BrowserWithExtension.active_session]. rewrite Hactive. cbn. fold stop.
  destruct (h stop w1) as [r w2]. cbn in Hstop. subst r.
  cbn. auto.
Qed.

(** X10.  If [browser_session] and [session_id] are both unset, or
    both set with the same identifier, they still are after
    [create_browser_session], [close_session],
    [verify_extension_loaded] and [test_extension_functionality],
    whether the method returns or raises. *)
Theorem session_fields_stay_in_step (self : BrowserWithExtension.t) (w : W) :
  in_step self = true ->
  (forall uris name,
      in_step (self_after (exec h (BrowserWithExtension.create_browser_session uris name
                                     self) w)) = true)
  /\ in_step (self_after (exec h (BrowserWithExtension.close_session self) w)) = true
  /\ in_step (self_after (exec h (BrowserWithExtension.verify_extension_loaded self) w))
     = true
  /\ (forall test_url,
         in_step (self_after (exec h (BrowserWithExtension.test_extension_functionality
                                        test_url self) w)) = true).
Proof.
  intros Hstep. split; [| split; [| split]].
  - intros uris name.
    pose proof (create_browser_session_effect self uris name w) as Hout.
    cbv zeta in Hout.
    destruct (returned (exec h (BrowserWithExtension.create_browser_session uris name self) w))
      as [details |].
    + destruct Hout as (Hsid & Hinfo). unfold in_step. rewrite Hsid.
      destruct (BrowserWithExtension.browser_session _) as [info |]; [| discriminate].
      cbn in Hinfo. injection Hinfo as ->. apply String.eqb_refl.
    + rewrite Hout. exact Hstep.
  - unfold BrowserWithExtension.close_session.
    cbn -[BrowserWithExtension.active_session].
    destruct (BrowserWithExtension.active_session self) as [sid |]; cbn; [| exact Hstep].
    destruct (h (agentcore_stop_browser_session sid) w)
      as [[[] | [code message | | class message]] w1]; cbn; auto.
  - unfold BrowserWithExtension.verify_extension_loaded. cbn.
    destruct (BrowserWithExtension.browser_session self); exact Hstep.
  - intros test_url. unfold BrowserWithExtension.test_extension_functionality. cbn.
    destruct (BrowserWithExtension.browser_session self); exact Hstep.
Qed.

(** X11.  On an object whose two session fields go together,
    [get_session_info] returns [None] exactly when [close_session]
    would find no active session, and otherwise the identifier, the
    region and the status [active]: it never reports [closed].  It
    makes no call, prints nothing and changes nothing. *)
Theorem get_session_info_reports (self : BrowserWithExtension.t) (w : W) :
  let out := exec h (BrowserWithExtension.get_session_info self) w in
  in_step self = true ->
  returned out
  = Ok (option_map
          (fun sid => {| BrowserWithExtension.report_session_id := sid;
                         BrowserWithExtension.report_region :=
                           BrowserWithExtension.region self;
                         BrowserWithExtension.report_status := "active" |})
          (BrowserWithExtension.active_session self))
  /\ self_after out = self
  /\ trace out = [].
Proof.
  unfold in_step, BrowserWithExtension.get_session_info,
    BrowserWithExtension.active_session. cbn.
  destruct (BrowserWithExtension.browser_session self) as [info |],
    (BrowserWithExtension.session_id self) as [sid |]; try discriminate; intros _.
  - destruct (truthy sid); cbn; auto.
  - cbn. auto.
Qed.
End BrowserSession.

Lemma create_then_close_witness :
  let created := exec Cloud.respond
                   (BrowserWithExtension.create_browser_session
                      ["s3://browser-extension-demo/extensions/stealth-extension.zip"]
                      (Some "demo") idle_browser) office in
  let closed := exec Cloud.respond
                  (BrowserWithExtension.close_session (self_after created))
                  (world_after created) in
  let details := {| BrowserWithExtension.details_session_id := "session-0";
                    BrowserWithExtension.details_region := "us-east-1";
                    BrowserWithExtension.details_extensions :=
                      ["s3://browser-extension-demo/extensions/stealth-extension.zip"];
                    BrowserWithExtension.details_status := "active" |} in
  returned created = Ok details
  /\ truthy "session-0" = true
  /\ calls_of (trace closed) = [agentcore_stop_browser_session "session-0"]
  /\ returned closed = Ok tt
  /\ BrowserWithExtension.browser_session (self_after closed) = None
  /\ BrowserWithExtension.session_id (self_after closed) = None.
Proof.
  intros created closed details.
  assert (Hcreated : returned created = Ok details) by (vm_compute; reflexivity).
  assert (Hid : truthy (BrowserWithExtension.details_session_id details) = true)
    by reflexivity.
  pose proof (create_then_close_stops_that_session Cloud.respond idle_browser
                ["s3://browser-extension-demo/extensions/stealth-extension.zip"]
                (Some "demo") office details Hcreated Hid) as [Hcalls Hstop].
  split; [exact Hcreated |]. split; [exact Hid |]. split; [exact Hcalls |].
  apply Hstop. vm_compute. reflexivity.
Defined.

Lemma session_fields_witness :
  in_step stale_browser = true
  /\ in_step (self_after (exec Cloud.respond
                            (BrowserWithExtension.create_browser_session [] None
                               stale_browser) office)) = true
  /\ in_step (self_after (exec Cloud.respond
                            (BrowserWithExtension.close_session stale_browser) office))
     = true.
Proof.
  assert (Hstep : in_step stale_browser = true) by reflexivity.
  pose proof (session_fields_stay_in_step Cloud.respond stale_browser office Hstep)
    as (Hcreate & Hclose & _).
  split; [exact Hstep |]. split; [apply Hcreate | exact Hclose].
Defined.

Lemma get_session_info_witness :
  in_step stale_browser = true
  /\ returned (exec Cloud.respond (BrowserWithExtension.get_session_info stale_browser)
                 office)
     = Ok (Some {| BrowserWithExtension.report_session_id := "session-7";
                   BrowserWithExtension.report_region := "us-east-1";
                   BrowserWithExtension.report_status := "active" |}).
Proof.
  assert (Hstep : in_step stale_browser = true) by reflexivity.
  split; [exact Hstep |].
  apply (get_session_info_reports Cloud.respond stale_browser office Hstep).
Defined.

(** ** Further properties of setup_extension.py *)

Lemma str_replace_absent (s old new : string) :
  occurs old s = false -> str_replace s old new = s.
Proof.
  unfold str_replace. induction s as [| c s IH]; [reflexivity |].
  cbn [occurs replace_from]. intros Hs. apply orb_false_iff in Hs as [Hhere Hlater].
  rewrite Hhere, (IH Hlater). reflexivity.
Qed.

Lemma match_called_process_error {X} (class : string) (a b : X) :
  match class with
  | "CalledProcessError" => a
  | _ => b
  end = if String.eqb class "CalledProcessError" then a else b.
Proof.
  repeat (destruct class as [| [[] [] [] [] [] [] [] []] class]; try reflexivity).
Qed.

Lemma in_calls_of_middle (c : call) (t1 t2 : list event) :
  In c (calls_of (t1 ++ Called c :: t2)).
Proof.
  rewrite calls_of_app. apply in_or_app. right. left. reflexivity.
Qed.

(** Case analysis on everything the environment may answer and on
    every dictionary lookup. *)
Ltac holds_lookup_cases :=
  repeat (cbn -[String.eqb In lookup] in *;
          match goal with
          | |- _ /\ _ => split
          | |- forall _, _ => intro
          | r : result _ |- _ => destruct r
          | e : exn |- holds _ _ _ => destruct e
          | |- context [String.eqb ?a ?b] => destruct (String.eqb a b) eqn:?
          | |- context [@lookup _ _ _ _ ?k ?m] => destruct (@lookup _ _ _ _ k m) eqn:?
          | b : bool |- holds _ _ _ => destruct b
          end);
  cbn -[String.eqb In lookup] in *.

Lemma local_calls_no_network (t : list event) :
  Forall (fun c => service_of c = Local) (calls_of t) -> network_calls t = [].
Proof.
  unfold network_calls. induction 1 as [| c l Hc _ IH]; [reflexivity |].
  cbn. destruct c; try discriminate; exact IH.
Qed.

Lemma written_paths_forall (P : string -> Prop) (t : list event) :
  Forall (fun c => match c with write_text p _ => P p | _ => True end) (calls_of t) ->
  Forall P (written_paths t).
Proof.
  unfold written_paths. induction 1 as [| c l Hc _ IH]; [constructor |].
  destruct c; cbn; try exact IH. constructor; assumption.
Qed.

Lemma written_paths_none (t : list event) :
  Forall (fun c => match c with write_text _ _ => False | _ => True end) (calls_of t) ->
  written_paths t = [].
Proof.
  unfold written_paths. induction 1 as [| c l Hc _ IH]; [reflexivity |].
  destruct c; cbn; try exact IH. destruct Hc.
Qed.

Section ExtensionSetupFacts.
Context {W : Type} (h : handler W).

(** X12.  When the path is not a regular file with the suffix [.zip]
    and is not a directory, [use_existing_extension] raises
    [ValueError] after the two probes; nothing is extracted or copied. *)
Theorem use_existing_extension_rejects
    (self : ExtensionSetup.t) (extension_path : string) (is_file : bool) (w : W) :
  let probe := h (path_is_file extension_path) w in
  let out := exec h (ExtensionSetup.use_existing_extension extension_path self) w in
  fst probe = Ok is_file ->
  is_file && String.eqb (path_suffix extension_path) ".zip" = false ->
  fst (h (path_is_dir extension_path) (snd probe)) = Ok false ->
  returned out
  = Raise (OtherException "ValueError" ("Invalid extension path: " +:+ extension_path))
  /\ calls_of (trace out) = [path_is_file extension_path; path_is_dir extension_path].
Proof.
  unfold ExtensionSetup.use_existing_extension. cbn -[String.eqb].
  destruct (h (path_is_file extension_path) w) as [r w1]. cbn -[String.eqb].
  intros -> Hzip. rewrite Hzip. cbn.
  destruct (h (path_is_dir extension_path) w1) as [r w2]. cbn. intros ->. cbn. auto.
Qed.

(** X13.  When [git clone] raises, [download_extension_from_github]
    makes no other call and the same exception leaves it, whatever its
    class. *)
Theorem download_stops_at_failed_clone (self : ExtensionSetup.t) (w : W) (e : exn) :
  let clone := subprocess_run
                 ["git"; "clone"; "--depth"; "1";
                  "https://github.com/" +:+ ExtensionSetup.GITHUB_REPO +:+ ".git";
                  path_join (ExtensionSetup.work_dir self) "repo"] None in
  let out := exec h (ExtensionSetup.download_extension_from_github self) w in
  fst (h clone w) = Raise e ->
  returned out = Raise e /\ calls_of (trace out) = [clone].
Proof.
  unfold ExtensionSetup.download_extension_from_github. cbn -[String.eqb].
  match goal with |- context [h ?c w] => destruct (h c w) as [r w1] end.
  cbn -[String.eqb]. intros ->. cbn -[String.eqb].
  destruct e as [code message | | class message]; cbn -[String.eqb]; auto.
  rewrite match_called_process_error.
  destruct (String.eqb class "CalledProcessError"); cbn; auto.
Qed.

(** For a given output path, [package_extension] closes the archive if
    and only if opening it succeeded. *)
Lemma package_extension_closes_given `{Runtime}
    (self : ExtensionSetup.t) (output_path : string) (w : W) :
  let out := exec h (ExtensionSetup.package_extension (Some output_path) self) w in
  In (zipfile_close output_path) (calls_of (trace out))
  <-> fst (h (zipfile_open output_path) w) = Ok tt.
Proof.
  unfold ExtensionSetup.package_extension.
  cbn [bind pbind print get ret exec invoke].
  destruct (h (zipfile_open output_path) w) as [[[] | e] w1] eqn:Hopen.
  - split; [reflexivity | intros _].
    rewrite exec_bind, exec_try_finally.
    match goal with
    | |- context [exec h (bind ?m ?f self) w1] =>
        destruct (exec h (bind m f self) w1) as [[[r s1] w2] t1]
    end.
    cbn [invoke exec]. destruct (h (zipfile_close output_path) w2) as [rc w3].
    assert (Hin : forall t2, In (zipfile_close output_path)
                    (calls_of (Printed "[cyan]Packaging extension...[/cyan]"
                                 :: Called (zipfile_open output_path)
                                 :: ((t1 ++ [Called (zipfile_close output_path)])
                                       ++ t2)%list))).
    { intros t2. rewrite <- app_assoc.
      apply (in_calls_of_middle (zipfile_close output_path) (_ :: _ :: t1)). }
    destruct rc as [[] | ec], r as [[] | e]; cbn [trace snd fst];
      try (specialize (Hin []); rewrite app_nil_r in Hin; exact Hin).
    match goal with
    | |- context [exec h ?p w3] => destruct (exec h p w3) as [[x w4] t3]
    end.
    apply Hin.
  - cbn. split; [intros [Hx | []]; discriminate | discriminate].
Qed.

(** X14.  [package_extension] closes the archive if and only if
    opening it succeeded, whatever the walk and the writes in between
    do.  The archive is the given output path or, without one, the path
    named after the clock; when the clock cannot be read, nothing is
    opened and nothing is closed. *)
Theorem package_extension_closes_archive `{Runtime}
    (self : ExtensionSetup.t) (output_path : option string) (w : W) :
  let out := exec h (ExtensionSetup.package_extension output_path self) w in
  match output_path with
  | Some zip =>
      In (zipfile_close zip) (calls_of (trace out))
      <-> fst (h (zipfile_open zip) w) = Ok tt
  | None =>
      match h time_time w with
      | (Ok now, w1) =>
          let zip := "bedrock-summary-extension-" +:+ pretty now +:+ ".zip" in
          In (zipfile_close zip) (calls_of (trace out))
          <-> fst (h (zipfile_open zip) w1) = Ok tt
      | (Raise _, _) => calls_of (trace out) = [time_time]
      end
  end.
Proof.
  destruct output_path as [zip |]; cbv zeta.
  - apply package_extension_closes_given.
  - pose proof (package_extension_default h self w) as Hdefault.
    destruct (h time_time w) as [[now | e] w1]; cbv zeta in Hdefault.
    + destruct Hdefault as (_ & ->).
      rewrite <- (package_extension_closes_given self _ w1).
      split; [intros [Hclock | Hin]; [discriminate | exact Hin] | intros Hin; right; exact Hin].
    + apply Hdefault.
Qed.

Lemma holds_configure_extension_credentials
    (allowed : call -> Prop) (self : ExtensionSetup.t) (credentials : gmap string string) :
  (forall c, service_of c = Local ->
             match c with
             | write_text p _ =>
                 p = path_join (ExtensionSetup.extension_dir self) "popup.js"
                 \/ p = path_join (ExtensionSetup.extension_dir self) "popup.html"
             | _ => True
             end -> allowed c) ->
  holds allowed (fun r => snd r = self)
    (ExtensionSetup.configure_extension_credentials credentials self).
Proof.
  intros Hall. unfold ExtensionSetup.configure_extension_credentials, dict_item.
  holds_lookup_cases; try reflexivity; apply Hall; cbn; auto.
Qed.

(** X15.  Whatever the environment answers,
    [configure_extension_credentials] writes no file other than
    [popup.js] and [popup.html] of the extension directory, makes no
    network call and leaves the fields of the object unchanged. *)
Theorem configure_credentials_writes_only_popup_files
    (self : ExtensionSetup.t) (credentials : gmap string string) (w : W) :
  let out := exec h (ExtensionSetup.configure_extension_credentials credentials self) w in
  Forall (fun p => p = path_join (ExtensionSetup.extension_dir self) "popup.js"
                   \/ p = path_join (ExtensionSetup.extension_dir self) "popup.html")
    (written_paths (trace out))
  /\ network_calls (trace out) = []
  /\ self_after out = self.
Proof.
  intros out.
  pose (allowed := fun c =>
          service_of c = Local
          /\ match c with
             | write_text p _ =>
                 p = path_join (ExtensionSetup.extension_dir self) "popup.js"
                 \/ p = path_join (ExtensionSetup.extension_dir self) "popup.html"
             | _ => True
             end).
  destruct (holds_exec h allowed _ _ w
              (holds_configure_extension_credentials allowed self credentials
                 (fun c Hc Hw => conj Hc Hw))) as [Hself Hcalls].
  fold out in Hself, Hcalls. split; [| split; [| exact Hself]].
  - apply written_paths_forall. eapply Forall_impl; [exact Hcalls |].
    intros c [_ Hc]. exact Hc.
  - apply local_calls_no_network. eapply Forall_impl; [exact Hcalls |].
    intros c [Hc _]. exact Hc.
Qed.

(** X16.  When the credentials lack one of the three keys,
    [configure_extension_credentials] writes no file at all. *)
Theorem configure_credentials_incomplete_writes_nothing
    (self : ExtensionSetup.t) (credentials : gmap string string) (w : W) :
  let out := exec h (ExtensionSetup.configure_extension_credentials credentials self) w in
  credentials !! "AccessKeyId" = None
  \/ credentials !! "SecretAccessKey" = None
  \/ credentials !! "SessionToken" = None ->
  written_paths (trace out) = [].
Proof.
  intros out Hmissing.
  assert (Hholds : holds (fun c => match c with write_text _ _ => False | _ => True end)
                     (fun _ => True)
                     (ExtensionSetup.configure_extension_credentials credentials self)).
  { unfold ExtensionSetup.configure_extension_credentials, dict_item.
    holds_lookup_cases; try exact I; destruct Hmissing as [Hm | [Hm | Hm]]; congruence. }
  destruct (holds_exec h _ _ _ w Hholds) as [_ Hcalls].
  apply written_paths_none, Hcalls.
Qed.

(** X17.  With complete credentials, a manifest, a readable
    [popup.js] and a [popup.html] whose text does not contain
    [<body>], [configure_extension_credentials] writes [popup.js] as
    the credentials block followed by the original script, and writes
    [popup.html] back unchanged. *)
Theorem configure_credentials_page_without_body_tag
    (self : ExtensionSetup.t) (credentials : gmap string string) (w : W)
    (access_key secret_key token : string) (m : manifest) (script page : string) :
  let manifest_path := path_join (ExtensionSetup.extension_dir self) "manifest.json" in
  let popup_js_path := path_join (ExtensionSetup.extension_dir self) "popup.js" in
  let popup_html_path := path_join (ExtensionSetup.extension_dir self) "popup.html" in
  let rewritten := ExtensionSetup.credentials_injection access_key secret_key token
                   +:+ script in
  let out := exec h (ExtensionSetup.configure_extension_credentials credentials self) w in
  credentials !! "AccessKeyId" = Some access_key ->
  credentials !! "SecretAccessKey" = Some secret_key ->
  credentials !! "SessionToken" = Some token ->
  follows h w [ answered (path_exists manifest_path) (Ok true);
                answered (json_load manifest_path) (Ok m);
                answered (path_exists popup_js_path) (Ok true);
                answered (read_text popup_js_path) (Ok script);
                answered (write_text popup_js_path rewritten) (Ok tt);
                answered (path_exists popup_html_path) (Ok true);
                answered (read_text popup_html_path) (Ok page) ] ->
  occurs "<body>" page = false ->
  calls_of (trace out)
  = [ path_exists manifest_path; json_load manifest_path;
      path_exists popup_js_path; read_text popup_js_path;
      write_text popup_js_path rewritten;
      path_exists popup_html_path; read_text popup_html_path;
      write_text popup_html_path page ].
Proof.
  intros manifest_path popup_js_path popup_html_path rewritten out Ha Hs Ht Hscript Hpage.
  subst out manifest_path popup_js_path popup_html_path rewritten.
  unfold ExtensionSetup.configure_extension_credentials, dict_item.
  rewrite Ha, Hs, Ht. cbn [follows answered] in Hscript.
  destruct Hscript as (H1 & H2 & H3 & H4 & H5 & H6 & H7 & _).
  cbn -[String.eqb lookup str_replace ExtensionSetup.credentials_injection
        ExtensionSetup.credentials_script].
  repeat match goal with
         | Hx : fst (h ?c ?w0) = _ |- context [h ?c ?w0] =>
             destruct (h c w0) as [? ?]; cbn [fst snd] in *; subst;
             cbn -[String.eqb lookup str_replace ExtensionSetup.credentials_injection
                   ExtensionSetup.credentials_script] in *
         end.
  rewrite (str_replace_absent _ _ _ Hpage).
  match goal with
  | |- context [h ?c ?w0] => destruct (h c w0) as [[[] | e] ?]; reflexivity
  end.
Qed.
End ExtensionSetupFacts.

Section ExtensionSetupServices.
Context `{Runtime}.
Variable allowed : call -> Prop.
Hypothesis local_allowed : forall c, service_of c = Local -> allowed c.

Lemma holds_write_entries {St} (zip top : string) (entries : list (list string * string))
    (s : St) :
  holds allowed (fun r => snd r = s) (ExtensionSetup.write_entries zip top entries s).
Proof using local_allowed.
  induction entries as [| [components data] entries IH]; cbn; [reflexivity |].
  split; [apply local_allowed; reflexivity |].
  intros [[] | e]; cbn; [exact IH | reflexivity].
Qed.

Lemma holds_package_extension (output_path : option string) (self : ExtensionSetup.t) :
  holds allowed (fun r => snd r = self)
    (ExtensionSetup.package_extension output_path self).
Proof using local_allowed.
  assert (Hrest : forall p,
             holds allowed (fun r : result string * ExtensionSetup.t => snd r = self)
                   (bind (invoke (zipfile_open p))
                      (fun _ =>
                         bind (try_finally
                                 (bind (invoke (os_walk (ExtensionSetup.extension_dir self)))
                                    (fun tree =>
                                       ExtensionSetup.write_entries p
                                         (ExtensionSetup.extension_dir self)
                                         (ExtensionSetup.archive_entries tree)))
                                 (invoke (zipfile_close p)))
                           (fun _ =>
                              st_size <- invoke (path_stat_size p) ;;
                              print ("[green]✓[/green] Extension packaged: " +:+ p) ;;
                              print ("[dim]Size: " +:+ format_mb st_size +:+ " MB[/dim]") ;;
                              (if exceeds_10_mb st_size then
                                 print "[yellow]⚠ Warning: Extension size exceeds 10 MB limit[/yellow]"
                               else ret tt) ;;
                              ret p)) self)).
  { intros p. cbn [bind pbind invoke holds].
    split; [apply local_allowed; reflexivity |].
    intros [[] | e]; cbn [pbind holds]; [| reflexivity].
    eapply holds_pbind.
    - apply (holds_try_finally allowed (fun r => snd r = self) (fun r => snd r = self)).
      + cbn [bind pbind invoke holds]. split; [apply local_allowed; reflexivity |].
        intros [tree | e]; cbn [pbind holds]; [apply holds_write_entries | reflexivity].
      + intros r s Hs. cbn in Hs. subst s. cbn.
        split; [apply local_allowed; reflexivity |]. intros [[] | e]; reflexivity.
    - intros [[[] | e] s] Hs; cbn in Hs; subst s; cbn; [| reflexivity].
      split; [apply local_allowed; reflexivity |].
      intros [size | e]; cbn; [| reflexivity].
      destruct (exceeds_10_mb size); reflexivity. }
  unfold ExtensionSetup.package_extension.
  destruct output_path as [p |]; cbn [bind pbind print get ret holds invoke].
  - apply Hrest.
  - split; [apply local_allowed; reflexivity |].
    intros [timestamp | e]; cbn [pbind holds]; [apply Hrest | reflexivity].
Qed.

Lemma holds_use_existing_extension (extension_path : string) (self : ExtensionSetup.t) :
  holds allowed (fun r => snd r = self)
    (ExtensionSetup.use_existing_extension extension_path self).
Proof using local_allowed.
  unfold ExtensionSetup.use_existing_extension.
  holds_cases; try reflexivity; apply local_allowed; reflexivity.
Qed.

Lemma holds_download_extension_from_github (self : ExtensionSetup.t) :
  holds allowed (fun r => snd r = self)
    (ExtensionSetup.download_extension_from_github self).
Proof using local_allowed.
  unfold ExtensionSetup.download_extension_from_github.
  cbn [bind pbind print get holds].
  apply (holds_try_except allowed (fun r => snd r = self)).
  - holds_cases; try reflexivity; apply local_allowed; reflexivity.
  - intros a s Hs. exact Hs.
  - intros e s Hs. cbn in Hs. subst s.
    destruct e as [code message | | class message]; try reflexivity.
    rewrite match_called_process_error.
    destruct (String.eqb class "CalledProcessError"); reflexivity.
Qed.

Lemma holds_get_temporary_credentials (duration_seconds : Z) (self : ExtensionSetup.t) :
  allowed (sts_get_session_token duration_seconds) ->
  holds allowed (fun r => snd r = self)
    (ExtensionSetup.get_temporary_credentials duration_seconds self).
Proof.
  intros Hsts. unfold ExtensionSetup.get_temporary_credentials.
  holds_cases; auto.
Qed.

Lemma holds_extension_setup_prepare
    (existing_extension : option string) (skip_credentials : bool)
    (self : ExtensionSetup.t) :
  (skip_credentials = false -> allowed (sts_get_session_token 3600)) ->
  holds allowed (fun r => snd r = self)
    (ExtensionSetup.prepare_extension existing_extension skip_credentials self).
Proof using local_allowed.
  intros Hsts. unfold ExtensionSetup.prepare_extension.
  cbn [bind pbind print holds].
  eapply holds_pbind.
  { destruct existing_extension as [p |];
      [apply holds_use_existing_extension | apply holds_download_extension_from_github]. }
  intros [[dir | e] s] Hs; cbn in Hs; subst s; cbn [holds]; [| reflexivity].
  eapply holds_pbind.
  { destruct skip_credentials; cbn [negb].
    - cbn. instantiate (1 := fun r => snd r = self). reflexivity.
    - eapply holds_bind; [apply holds_get_temporary_credentials; auto | |].
      + intros credentials s Hs. cbn in Hs. subst s.
        apply holds_configure_extension_credentials.
        intros c Hc _. apply local_allowed, Hc.
      + intros e s Hs. exact Hs. }
  intros [[[] | e] s] Hs; cbn in Hs; subst s; cbn [holds]; [| reflexivity].
  eapply holds_pbind; [apply holds_package_extension |].
  intros [[zip_path | e] s] Hs; cbn in Hs; subst s; reflexivity.
Qed.
End ExtensionSetupServices.

(** X18.  Whatever the environment answers, every call of
    [ExtensionSetup.prepare_extension] is local, or is the request for
    a session token of 3600 seconds, which is sent only when
    [skip_credentials] is false.  The fields of the object are
    unchanged. *)
Theorem extension_setup_prepare_services {W} (h : handler W) `{Runtime}
    (existing_extension : option string) (skip_credentials : bool)
    (self : ExtensionSetup.t) (w : W) :
  let out := exec h (ExtensionSetup.prepare_extension existing_extension skip_credentials
                       self) w in
  Forall (fun c => service_of c = Local
                   \/ (skip_credentials = false /\ c = sts_get_session_token 3600))
    (calls_of (trace out))
  /\ self_after out = self.
Proof.
  intros out.
  destruct (holds_exec h _ _ _ w
              (holds_extension_setup_prepare
                 (fun c => service_of c = Local
                           \/ (skip_credentials = false /\ c = sts_get_session_token 3600))
                 (fun c Hc => or_introl Hc)
                 existing_extension skip_credentials self
                 (fun Hskip => or_intror (conj Hskip eq_refl)))) as [Hself Hcalls].
  auto.
Qed.

Lemma use_existing_extension_rejects_witness :
  let w := Cloud.with_disk office (<["extension.crx" := 2048]> (Cloud.files office))
             (Cloud.archives office) (Cloud.trees office) in
  let out := exec Cloud.respond
               (ExtensionSetup.use_existing_extension "extension.crx" setup_in_tmp) w in
  fst (Cloud.respond (path_is_file "extension.crx") w) = Ok true
  /\ true && String.eqb (path_suffix "extension.crx") ".zip" = false
  /\ returned out
     = Raise (OtherException "ValueError" "Invalid extension path: extension.crx")
  /\ calls_of (trace out) = [path_is_file "extension.crx"; path_is_dir "extension.crx"].
Proof.
  intros w out.
  assert (Hfile : fst (Cloud.respond (path_is_file "extension.crx") w) = Ok true)
    by reflexivity.
  assert (Hzip : true && String.eqb (path_suffix "extension.crx") ".zip" = false)
    by reflexivity.
  split; [exact Hfile |]. split; [exact Hzip |].
  apply (use_existing_extension_rejects Cloud.respond setup_in_tmp "extension.crx" true w
           Hfile Hzip).
  reflexivity.
Defined.

Lemma download_stops_witness :
  let clone := subprocess_run
                 ["git"; "clone"; "--depth"; "1";
                  "https://github.com/aws-samples/amazon-bedrock-summary-client-for-chrome.git";
                  "/tmp/extension_1/repo"] None in
  let out := exec Cloud.respond
               (ExtensionSetup.download_extension_from_github setup_in_tmp) office in
  fst (Cloud.respond clone office) = Raise (OtherException "FileNotFoundError" "git")
  /\ returned out = Raise (OtherException "FileNotFoundError" "git")
  /\ calls_of (trace out) = [clone].
Proof.
  intros clone out.
  assert (Hclone : fst (Cloud.respond clone office)
                   = Raise (OtherException "FileNotFoundError" "git")) by reflexivity.
  split; [exact Hclone |].
  exact (download_stops_at_failed_clone Cloud.respond setup_in_tmp office _ Hclone).
Defined.

Lemma configure_credentials_incomplete_witness :
  let credentials : gmap string string :=
    <["AccessKeyId" := "ASIAEXAMPLE"]> (<["SecretAccessKey" := "secret"]> ∅) in
  credentials !! "SessionToken" = None
  /\ written_paths
       (trace (exec Workstation.respond
                 (ExtensionSetup.configure_extension_credentials credentials setup_in_tmp)
                 desk)) = [].
Proof.
  intros credentials.
  assert (Hmissing : credentials !! "SessionToken" = None) by reflexivity.
  split; [exact Hmissing |].
  apply (configure_credentials_incomplete_writes_nothing Workstation.respond
           setup_in_tmp credentials desk).
  right. right. exact Hmissing.
Defined.

Lemma configure_credentials_page_witness :
  let credentials : gmap string string :=
    <["AccessKeyId" := "ASIAEXAMPLE"]>
    (<["SecretAccessKey" := "secret"]> (<["SessionToken" := "token"]> ∅)) in
  let page := "<html><body class='popup'><p>Summary</p></body></html>" in
  let out := exec Workstation.respond
               (ExtensionSetup.configure_extension_credentials credentials setup_in_tmp)
               desk in
  occurs "<body>" page = false
  /\ In (write_text "/tmp/extension_1/extension/popup.html" page) (calls_of (trace out))
  /\ In (write_text "/tmp/extension_1/extension/popup.js"
           (ExtensionSetup.credentials_injection "ASIAEXAMPLE" "secret" "token"
            +:+ "let i = 0;"))
        (calls_of (trace out)).
Proof.
  intros credentials page out.
  assert (Hpage : occurs "<body>" page = false) by reflexivity.
  split; [exact Hpage |].
  assert (Hcalls := configure_credentials_page_without_body_tag Workstation.respond
                      setup_in_tmp credentials desk "ASIAEXAMPLE" "secret" "token"
                      {| manifest_name := Some "Bedrock Summary"; manifest_version := None |}
                      "let i = 0;" page).
  cbv zeta in Hcalls. fold out in Hcalls.
  rewrite Hcalls; [cbn; auto 10 | reflexivity | reflexivity | reflexivity | | exact Hpage].
  cbn. repeat split; reflexivity.
Defined.

(** ** Further properties of setup_bedrock_summary_extension.py *)

Lemma exists_manifest_dir (repo : option (list fsnode)) (d : list string) :
  BedrockSummaryExtensionSetup.exists_ repo (d ++ ["manifest.json"])%list = true ->
  BedrockSummaryExtensionSetup.exists_ repo d = true.
Proof.
  destruct repo as [nodes |]; [| discriminate]. cbn.
  rewrite resolve_app by discriminate.
  destruct (BedrockSummaryExtensionSetup.resolve nodes d) as [[data | tree] |];
    [discriminate | reflexivity | discriminate].
Qed.

(** X19.  [find_build_output] returns the first of [dist], [build],
    [out] and the repository root that holds [manifest.json]. *)
Theorem find_build_output_first_match (repo : option (list fsnode))
    (before after : list (list string)) (d : list string) :
  [["dist"]; ["build"]; ["out"]; []] = (before ++ d :: after)%list ->
  Forall (fun c => BedrockSummaryExtensionSetup.exists_ repo (c ++ ["manifest.json"])%list
                   = false) before ->
  BedrockSummaryExtensionSetup.exists_ repo (d ++ ["manifest.json"])%list = true ->
  BedrockSummaryExtensionSetup.find_build_output repo = d.
Proof.
  intros Hsplit Hbefore Hd. unfold BedrockSummaryExtensionSetup.find_build_output.
  rewrite Hsplit. clear Hsplit.
  induction Hbefore as [| c before Hc _ IH]; cbn [app find].
  - rewrite Hd, (exists_manifest_dir repo d Hd). reflexivity.
  - rewrite Hc, andb_false_r. exact IH.
Qed.

Lemma find_build_output_cases (repo : option (list fsnode)) :
  let candidates := [["dist"]; ["build"]; ["out"]; []] in
  let d := BedrockSummaryExtensionSetup.find_build_output repo in
  (In d candidates
   /\ BedrockSummaryExtensionSetup.exists_ repo (d ++ ["manifest.json"])%list = true)
  \/ (Forall (fun c => BedrockSummaryExtensionSetup.exists_ repo
                         (c ++ ["manifest.json"])%list = false) candidates
      /\ d = ["dist"]).
Proof.
  intros candidates d. subst d. unfold BedrockSummaryExtensionSetup.find_build_output.
  fold candidates. destruct (find _ candidates) as [c |] eqn:Hfind.
  - left. apply find_some in Hfind as [Hin Hc].
    apply andb_true_iff in Hc as [_ Hc]. auto.
  - right. split; [| reflexivity]. apply List.Forall_forall. intros c Hc.
    pose proof (find_none _ _ Hfind c Hc) as Hx. cbn beta in Hx.
    destruct (BedrockSummaryExtensionSetup.exists_ repo (c ++ ["manifest.json"])%list)
      eqn:Hm; [| reflexivity].
    rewrite (exists_manifest_dir repo c Hm) in Hx. discriminate.
Qed.

(** X20.  [package_extension] of the build script returns [None] if
    and only if none of [dist], [build], [out] and the repository root
    holds [manifest.json]. *)
Theorem package_extension_gives_up_without_manifest (repo : option (list fsnode)) :
  BedrockSummaryExtensionSetup.package_extension repo = None
  <-> Forall (fun d => BedrockSummaryExtensionSetup.exists_ repo (d ++ ["manifest.json"])%list
                       = false)
        [["dist"]; ["build"]; ["out"]; []].
Proof.
  unfold BedrockSummaryExtensionSetup.package_extension.
  destruct (find_build_output_cases repo) as [[Hin Hm] | [Hall Hd]].
  - set (d := BedrockSummaryExtensionSetup.find_build_output repo) in *. clearbody d.
    rewrite (exists_manifest_dir repo d Hm). cbn [negb]. rewrite Hm. cbn [negb].
    split.
    + destruct repo as [nodes |];
        [destruct (BedrockSummaryExtensionSetup.resolve nodes d) as [[|] |] |];
        discriminate.
    + intros Hall. rewrite List.Forall_forall in Hall.
      specialize (Hall d Hin). cbn beta in Hall. congruence.
  - rewrite Hd. split; [intros _; exact Hall | intros _].
    rewrite List.Forall_forall in Hall.
    assert (Hnone : BedrockSummaryExtensionSetup.exists_ repo
                      ((if negb (BedrockSummaryExtensionSetup.exists_ repo ["dist"])
                        then [] else ["dist"]) ++ ["manifest.json"])%list = false).
    { destruct (negb _); apply Hall; cbn; auto. }
    rewrite Hnone. reflexivity.
Qed.

Lemma find_build_output_witness :
  [["dist"]; ["build"]; ["out"]; []] = ([["dist"]] ++ ["build"] :: [["out"]; []])%list
  /\ Forall (fun c => BedrockSummaryExtensionSetup.exists_ (Some built_repository)
                        (c ++ ["manifest.json"])%list = false) [["dist"]]
  /\ BedrockSummaryExtensionSetup.exists_ (Some built_repository)
       (["build"] ++ ["manifest.json"])%list = true
  /\ BedrockSummaryExtensionSetup.find_build_output (Some built_repository) = ["build"].
Proof.
  assert (Hbefore : Forall (fun c => BedrockSummaryExtensionSetup.exists_
                                       (Some built_repository)
                                       (c ++ ["manifest.json"])%list = false) [["dist"]])
    by (repeat constructor).
  split; [reflexivity |]. split; [exact Hbefore |]. split; [reflexivity |].
  exact (find_build_output_first_match (Some built_repository) [["dist"]] [["out"]; []]
           ["build"] eq_refl Hbefore eq_refl).
Defined.

Lemma index_split (sub s : string) (i : nat) :
  String.index 0 sub s = Some i ->
  substring 0 i s +:+ drop_chars i s = s
  /\ String.prefix sub (drop_chars i s) = true.
Proof.
  revert i. induction s as [| c s IH]; intros i; cbn [String.index].
  - destruct sub; [| discriminate]. intros [= <-]. split; reflexivity.
  - destruct (String.prefix sub (String c s)) eqn:Hhere.
    + intros [= <-]. split; [reflexivity | exact Hhere].
    + destruct (String.index 0 sub s) as [j |]; [| discriminate].
      intros [= <-]. destruct (IH j eq_refl) as [Hsplit Hprefix].
      cbn [substring drop_chars]. rewrite append_cons, Hsplit. auto.
Qed.

(** Case analysis as in [holds_lookup_cases], with the texts left folded. *)
Ltac holds_text_cases :=
  repeat (cbn -[String.eqb In lookup str_replace substring drop_chars
                BedrockSummaryExtensionSetup.str_find
                BedrockSummaryExtensionSetup.credentials_init
                BedrockSummaryExtensionSetup.default_rule
                BedrockSummaryExtensionSetup.default_regex
                BedrockSummaryExtensionSetup.old_body
                BedrockSummaryExtensionSetup.new_body
                BedrockSummaryExtensionSetup.old_parse
                BedrockSummaryExtensionSetup.new_parse
                BedrockSummaryExtensionSetup.dq] in *;
          match goal with
          | |- _ /\ _ => split
          | |- forall _, _ => intro
          | r : result _ |- _ => destruct r
          | e : exn |- holds _ _ _ => destruct e
          | |- context [@lookup _ _ _ _ ?k ?m] => destruct (@lookup _ _ _ _ k m) eqn:?
          | b : bool |- holds _ _ _ => destruct b
          end);
  cbn -[String.eqb In lookup str_replace substring drop_chars
        BedrockSummaryExtensionSetup.str_find
        BedrockSummaryExtensionSetup.credentials_init
        BedrockSummaryExtensionSetup.default_rule
        BedrockSummaryExtensionSetup.default_regex
        BedrockSummaryExtensionSetup.old_body
        BedrockSummaryExtensionSetup.new_body
        BedrockSummaryExtensionSetup.old_parse
        BedrockSummaryExtensionSetup.new_parse
        BedrockSummaryExtensionSetup.dq] in *.

Lemma holds_inject_credentials_to_source
    (allowed : call -> Prop) (self : BedrockSummaryExtensionSetup.t)
    (credentials : gmap string string) :
  (forall c, service_of c = Local ->
             match c with
             | write_text p _ =>
                 p = path_join (BedrockSummaryExtensionSetup.repo_dir self) "sdk.js"
                 \/ (p = path_join (BedrockSummaryExtensionSetup.repo_dir self) "popup.js"
                     /\ is_Some (credentials !! "AccessKeyId")
                     /\ is_Some (credentials !! "SecretAccessKey")
                     /\ is_Some (credentials !! "SessionToken"))
             | _ => True
             end -> allowed c) ->
  holds allowed (fun r => snd r = self)
    (BedrockSummaryExtensionSetup.inject_credentials_to_source credentials self).
Proof.
  intros Hall. unfold BedrockSummaryExtensionSetup.inject_credentials_to_source, dict_item.
  holds_text_cases; try reflexivity; apply Hall; cbn; auto 10.
Qed.

Lemma holds_build_extension
    (allowed : call -> Prop) (self : BedrockSummaryExtensionSetup.t)
    (credentials : option (gmap string string)) :
  (forall c, service_of c = Local ->
             match c with
             | write_text p _ =>
                 p = path_join (BedrockSummaryExtensionSetup.repo_dir self) "sdk.js"
                 \/ p = path_join (BedrockSummaryExtensionSetup.repo_dir self) "popup.js"
             | _ => True
             end -> allowed c) ->
  holds allowed (fun r => snd r = self)
    (BedrockSummaryExtensionSetup.build_extension credentials self).
Proof.
  intros Hall. unfold BedrockSummaryExtensionSetup.build_extension.
  cbn [bind pbind print holds].
  eapply (holds_pbind _ (fun r => snd r = self)).
  { destruct credentials as [given |]; [destruct (decide (given = ∅)) |];
      try reflexivity.
    apply holds_inject_credentials_to_source.
    intros c Hc Hw. apply Hall; [exact Hc |]. destruct c; try exact I.
    destruct Hw as [Hw | [Hw _]]; auto. }
  intros [[[] | e] s] Hs; cbn in Hs; subst s; [| reflexivity].
  cbn [bind pbind print holds get].
  eapply (holds_try_except _ (fun r => snd r = self)).
  - cbn. split; [apply Hall; [reflexivity | exact I] |].
    intros [[] | e]; reflexivity.
  - intros b s Hs. exact Hs.
  - intros e s Hs. cbn in Hs. subst s.
    destruct e as [code message | | class message]; try reflexivity.
    rewrite match_called_process_error.
    destruct (String.eqb class "CalledProcessError"); reflexivity.
Qed.

Section BedrockBuild.
Context {W : Type} (h : handler W).

(** X21.  [install_dependencies], and [build_extension] without
    credentials, each run exactly one command in the repository
    directory; they return [True] when it succeeds, [False] when it
    raises [CalledProcessError], and let any other exception through.
    [build_extension] with an empty dictionary does what it does
    without credentials. *)
Theorem npm_steps_outcome (self : BedrockSummaryExtensionSetup.t) (w : W) :
  let repo := Some (BedrockSummaryExtensionSetup.repo_dir self) in
  let installed := exec h (BedrockSummaryExtensionSetup.install_dependencies self) w in
  let built := exec h (BedrockSummaryExtensionSetup.build_extension None self) w in
  let built_with_empty :=
    exec h (BedrockSummaryExtensionSetup.build_extension (Some ∅) self) w in
  (calls_of (trace installed) = [subprocess_run ["npm"; "install"] repo]
   /\ returned installed
      = npm_outcome (fst (h (subprocess_run ["npm"; "install"] repo) w)))
  /\ (calls_of (trace built) = [subprocess_run ["npm"; "run"; "build"] repo]
      /\ returned built
         = npm_outcome (fst (h (subprocess_run ["npm"; "run"; "build"] repo) w)))
  /\ built_with_empty = built.
Proof.
  intros repo installed built built_with_empty.
  subst repo installed built built_with_empty.
  split; [| split; [| reflexivity]].
  - unfold BedrockSummaryExtensionSetup.install_dependencies. cbn -[String.eqb].
    match goal with
    | |- context [h ?c w] => destruct (h c w) as [[[] | e] w1]
    end; cbn -[String.eqb]; [auto |].
    destruct e as [code message | | class message]; cbn -[String.eqb]; auto.
    rewrite match_called_process_error.
    destruct (String.eqb class "CalledProcessError"); cbn; auto.
  - unfold BedrockSummaryExtensionSetup.build_extension. cbn -[String.eqb].
    match goal with
    | |- context [h ?c w] => destruct (h c w) as [[[] | e] w1]
    end; cbn -[String.eqb]; [auto |].
    destruct e as [code message | | class message]; cbn -[String.eqb]; auto.
    rewrite match_called_process_error.
    destruct (String.eqb class "CalledProcessError"); cbn; auto.
Qed.

(** X22.  Whatever the environment answers, [build_extension] makes
    only local calls, writes no file other than [sdk.js] and
    [popup.js] of the repository directory, and leaves the fields of
    the object unchanged. *)
Theorem build_extension_touches_two_sources
    (self : BedrockSummaryExtensionSetup.t) (credentials : option (gmap string string))
    (w : W) :
  let out := exec h (BedrockSummaryExtensionSetup.build_extension credentials self) w in
  Forall (fun c => service_of c = Local) (calls_of (trace out))
  /\ Forall (fun p => p = path_join (BedrockSummaryExtensionSetup.repo_dir self) "sdk.js"
                      \/ p = path_join (BedrockSummaryExtensionSetup.repo_dir self)
                               "popup.js")
       (written_paths (trace out))
  /\ self_after out = self.
Proof.
  intros out.
  pose (allowed := fun c =>
          service_of c = Local
          /\ match c with
             | write_text p _ =>
                 p = path_join (BedrockSummaryExtensionSetup.repo_dir self) "sdk.js"
                 \/ p = path_join (BedrockSummaryExtensionSetup.repo_dir self) "popup.js"
             | _ => True
             end).
  destruct (holds_exec h allowed _ _ w
              (holds_build_extension allowed self credentials
                 (fun c Hc Hw => conj Hc Hw))) as [Hself Hcalls].
  fold out in Hself, Hcalls. split; [| split; [| exact Hself]].
  - eapply Forall_impl; [exact Hcalls |]. intros c [Hc _]. exact Hc.
  - apply written_paths_forall. eapply Forall_impl; [exact Hcalls |].
    intros c [_ Hc]. exact Hc.
Qed.

(** X23.  When the credentials lack one of the three keys,
    [inject_credentials_to_source] never writes [popup.js]: the only
    file it may write is [sdk.js]. *)
Theorem inject_incomplete_credentials_spares_popup
    (self : BedrockSummaryExtensionSetup.t) (credentials : gmap string string) (w : W) :
  let out := exec h (BedrockSummaryExtensionSetup.inject_credentials_to_source
                       credentials self) w in
  credentials !! "AccessKeyId" = None
  \/ credentials !! "SecretAccessKey" = None
  \/ credentials !! "SessionToken" = None ->
  Forall (fun p => p = path_join (BedrockSummaryExtensionSetup.repo_dir self) "sdk.js")
    (written_paths (trace out)).
Proof.
  intros out Hmissing.
  pose (allowed := fun c =>
          match c with
          | write_text p _ =>
              p = path_join (BedrockSummaryExtensionSetup.repo_dir self) "sdk.js"
          | _ => True
          end).
  assert (Hholds : holds allowed (fun r => snd r = self)
                     (BedrockSummaryExtensionSetup.inject_credentials_to_source
                        credentials self)).
  { apply holds_inject_credentials_to_source. intros c _ Hw.
    destruct c; try exact I. cbn. destruct Hw as [Hw | (_ & Ha & Hs & Ht)]; [exact Hw |].
    destruct Ha as [a Ha], Hs as [s Hs], Ht as [t Ht].
    destruct Hmissing as [Hm | [Hm | Hm]]; congruence. }
  destruct (holds_exec h allowed _ _ w Hholds) as [_ Hcalls].
  apply written_paths_forall, Hcalls.
Qed.

(** X24.  With complete credentials, no [sdk.js] and a readable
    [popup.js], [inject_credentials_to_source] writes [popup.js] once:
    the text after the two replacements, split in two with the
    credentials block in between.  The first part is empty, or the
    second starts with [let i = 0;]. *)
Theorem inject_puts_credentials_before_counter
    (self : BedrockSummaryExtensionSetup.t) (credentials : gmap string string) (w : W)
    (access_key secret_key token script : string) :
  let sdk_js_path := path_join (BedrockSummaryExtensionSetup.repo_dir self) "sdk.js" in
  let popup_js_path := path_join (BedrockSummaryExtensionSetup.repo_dir self) "popup.js" in
  let replaced :=
    str_replace
      (str_replace script "regexp = currentSetting?.regexp || '';"
         ("regexp = currentSetting?.regexp || '"
          +:+ BedrockSummaryExtensionSetup.default_regex +:+ "';"))
      "if (currentHost) {" BedrockSummaryExtensionSetup.default_rule in
  let out := exec h (BedrockSummaryExtensionSetup.inject_credentials_to_source
                       credentials self) w in
  credentials !! "AccessKeyId" = Some access_key ->
  credentials !! "SecretAccessKey" = Some secret_key ->
  credentials !! "SessionToken" = Some token ->
  follows h w [ answered (path_exists sdk_js_path) (Ok false);
                answered (path_exists popup_js_path) (Ok true);
                answered (read_text popup_js_path) (Ok script) ] ->
  exists before after,
    replaced = before +:+ after
    /\ calls_of (trace out)
       = [ path_exists sdk_js_path; path_exists popup_js_path; read_text popup_js_path;
           write_text popup_js_path
             (before
              +:+ BedrockSummaryExtensionSetup.credentials_init access_key secret_key token
              +:+ after) ]
    /\ (before = EmptyString \/ startswith after "let i = 0;" = true).
Proof.
  intros sdk_js_path popup_js_path replaced out Ha Hs Ht Hscript.
  subst out sdk_js_path popup_js_path.
  unfold BedrockSummaryExtensionSetup.inject_credentials_to_source, dict_item.
  rewrite Ha, Hs, Ht. cbn [follows answered] in Hscript.
  destruct Hscript as (H1 & H2 & H3 & _).
  cbn -[String.eqb lookup str_replace substring drop_chars
        BedrockSummaryExtensionSetup.str_find
        BedrockSummaryExtensionSetup.credentials_init
        BedrockSummaryExtensionSetup.default_rule
        BedrockSummaryExtensionSetup.default_regex].
  repeat match goal with
         | Hx : fst (h ?c ?w0) = _ |- context [h ?c ?w0] =>
             destruct (h c w0) as [? ?]; cbn [fst snd] in *; subst;
             cbn -[String.eqb lookup str_replace substring drop_chars
                   BedrockSummaryExtensionSetup.str_find
                   BedrockSummaryExtensionSetup.credentials_init
                   BedrockSummaryExtensionSetup.default_rule
                   BedrockSummaryExtensionSetup.default_regex] in *
         end.
  fold replaced.
  assert (Hput : exists before after,
             replaced = before +:+ after
             /\ match BedrockSummaryExtensionSetup.str_find replaced "let i = 0;" with
                | Some import_end =>
                    if (0 <? import_end)%nat
                    then substring 0 import_end replaced
                         +:+ BedrockSummaryExtensionSetup.credentials_init
                               access_key secret_key token
                         +:+ drop_chars import_end replaced
                    else BedrockSummaryExtensionSetup.credentials_init
                           access_key secret_key token +:+ replaced
                | None => BedrockSummaryExtensionSetup.credentials_init
                            access_key secret_key token +:+ replaced
                end
                = before
                  +:+ BedrockSummaryExtensionSetup.credentials_init
                        access_key secret_key token
                  +:+ after
             /\ (before = EmptyString \/ startswith after "let i = 0;" = true)).
  { unfold BedrockSummaryExtensionSetup.str_find.
    destruct (String.index 0 "let i = 0;" replaced) as [i |] eqn:Hfind.
    - destruct (0 <? i)%nat.
      + destruct (index_split _ _ _ Hfind) as [Hsplit Hprefix].
        exists (substring 0 i replaced), (drop_chars i replaced).
        split; [symmetry; exact Hsplit |]. split; [reflexivity |]. right. exact Hprefix.
      + exists EmptyString, replaced. auto.
    - exists EmptyString, replaced. auto. }
  destruct Hput as (before & after & Hsplit & Htext & Hwhere).
  exists before, after. split; [exact Hsplit |]. split; [| exact Hwhere].
  match goal with
  | |- context [write_text ?p ?text] =>
      replace text
        with (before
              +:+ BedrockSummaryExtensionSetup.credentials_init access_key secret_key token
              +:+ after)
        by (symmetry; exact Htext)
  end.
  match goal with
  | |- context [h ?c ?w0] => destruct (h c w0) as [[[] | e] ?]; reflexivity
  end.
Qed.
End BedrockBuild.

Lemma inject_incomplete_credentials_witness :
  let credentials : gmap string string :=
    <["AccessKeyId" := "ASIAEXAMPLE"]> (<["SecretAccessKey" := "secret"]> ∅) in
  let out := exec Workstation.respond
               (BedrockSummaryExtensionSetup.inject_credentials_to_source credentials
                  checkout) desk_with_checkout in
  credentials !! "SessionToken" = None
  /\ Forall (fun p => p = path_join (BedrockSummaryExtensionSetup.repo_dir checkout)
                            "sdk.js")
       (written_paths (trace out))
  /\ written_paths (trace out)
     = ["/home/demo/amazon-bedrock-summary-client-for-chrome/sdk.js"]
  /\ returned out = Raise (OtherException "KeyError" "SessionToken").
Proof.
  intros credentials out.
  assert (Hmissing : credentials !! "SessionToken" = None) by reflexivity.
  split; [exact Hmissing |]. split; [| split; vm_compute; reflexivity].
  apply (inject_incomplete_credentials_spares_popup Workstation.respond checkout
           credentials desk_with_checkout).
  right. right. exact Hmissing.
Defined.

Lemma inject_position_witness :
  let credentials : gmap string string :=
    <["AccessKeyId" := "ASIAEXAMPLE"]>
    (<["SecretAccessKey" := "secret"]> (<["SessionToken" := "token"]> ∅)) in
  let sdk_js_path := "/home/demo/amazon-bedrock-summary-client-for-chrome/sdk.js" in
  let popup_js_path := "/home/demo/amazon-bedrock-summary-client-for-chrome/popup.js" in
  let w := Workstation.with_texts desk_with_checkout
             (delete sdk_js_path (Workstation.texts desk_with_checkout)) in
  let out := exec Workstation.respond
               (BedrockSummaryExtensionSetup.inject_credentials_to_source credentials
                  checkout) w in
  follows Workstation.respond w
    [ answered (path_exists sdk_js_path) (Ok false);
      answered (path_exists popup_js_path) (Ok true);
      answered (read_text popup_js_path)
        (Ok "import sdk from './sdk.js';let i = 0;if (currentHost) {}") ]
  /\ exists before after,
       str_replace
         (str_replace "import sdk from './sdk.js';let i = 0;if (currentHost) {}"
            "regexp = currentSetting?.regexp || '';"
            ("regexp = currentSetting?.regexp || '"
             +:+ BedrockSummaryExtensionSetup.default_regex +:+ "';"))
         "if (currentHost) {" BedrockSummaryExtensionSetup.default_rule
       = before +:+ after
       /\ calls_of (trace out)
          = [ path_exists (path_join (BedrockSummaryExtensionSetup.repo_dir checkout)
                             "sdk.js");
              path_exists (path_join (BedrockSummaryExtensionSetup.repo_dir checkout)
                             "popup.js");
              read_text (path_join (BedrockSummaryExtensionSetup.repo_dir checkout)
                           "popup.js");
              write_text (path_join (BedrockSummaryExtensionSetup.repo_dir checkout)
                            "popup.js")
                (before
                 +:+ BedrockSummaryExtensionSetup.credentials_init
                       "ASIAEXAMPLE" "secret" "token"
                 +:+ after) ]
       /\ (before = EmptyString \/ startswith after "let i = 0;" = true).
Proof.
  intros credentials sdk_js_path popup_js_path w out.
  assert (Hscript : follows Workstation.respond w
                      [ answered (path_exists sdk_js_path) (Ok false);
                        answered (path_exists popup_js_path) (Ok true);
                        answered (read_text popup_js_path)
                          (Ok "import sdk from './sdk.js';let i = 0;if (currentHost) {}") ])
    by (cbn; repeat split; reflexivity).
  split; [exact Hscript |].
  exact (inject_puts_credentials_before_counter Workstation.respond checkout credentials w
           "ASIAEXAMPLE" "secret" "token"
           "import sdk from './sdk.js';let i = 0;if (currentHost) {}"
           eq_refl eq_refl eq_refl Hscript).
Defined.

(** ** Further properties of main.py *)

Lemma holds_for_each {St X R} (allowed : call -> Prop) (inv : St -> Prop)
    (xs : list X) (body : X -> M St (option R)) (s : St) :
  inv s ->
  (forall x s', inv s' -> holds allowed (fun r => inv (snd r)) (body x s')) ->
  holds allowed (fun r => inv (snd r)) (for_each xs body s).
Proof.
  intros Hs Hbody. revert s Hs. induction xs as [| x xs IH]; intros s Hs; cbn [for_each].
  - exact Hs.
  - eapply holds_bind; [apply Hbody, Hs | |].
    + intros [v |] s' Hs'; cbn in *; [exact Hs' | apply IH, Hs'].
    + intros e s' Hs'. exact Hs'.
Qed.

Section DemoServices.
Context `{Runtime}.
Variable allowed : call -> Prop.
Hypothesis outside_browser : forall c, service_of c <> Browser -> allowed c.

Lemma holds_check_prerequisites (self : ExtensionDemo.t) :
  holds allowed (fun r => snd r = self) (ExtensionDemo.check_prerequisites self).
Proof using outside_browser.
  unfold ExtensionDemo.check_prerequisites, BrowserWithExtension.check_iam_permissions.
  holds_cases; try reflexivity; try (apply outside_browser; discriminate).
  all: destruct (ExtensionDemo.existing_extensions self) as [| ext exts];
    [reflexivity |].
  all: holds_cases; try reflexivity; try (apply outside_browser; discriminate).
  all: (eapply holds_pbind;
        [ apply (holds_for_each allowed (fun s => s = self)); [reflexivity |];
          intros x s' ->;
          holds_cases; try reflexivity; apply outside_browser; discriminate
        | intros [[[answer |] | e] s] Hs; cbn in *; exact Hs ]).
Qed.

Lemma set_extension_zips_same (self : ExtensionDemo.t) :
  ExtensionDemo.set_extension_zips self (ExtensionDemo.extension_zips self) = self.
Proof. destruct self; reflexivity. Qed.

Lemma set_s3_uris_same (self : ExtensionDemo.t) :
  ExtensionDemo.set_s3_uris self (ExtensionDemo.s3_uris self) = self.
Proof. destruct self; reflexivity. Qed.

Lemma holds_prepare_each (paths : list string) (self : ExtensionDemo.t) :
  holds allowed
    (fun r => exists zips,
         snd r = ExtensionDemo.set_extension_zips self
                   (ExtensionDemo.extension_zips self ++ zips)%list
         /\ (fst r = Ok tt -> List.length zips = List.length paths))
    (ExtensionDemo.prepare_each paths self).
Proof using outside_browser.
  revert self. induction paths as [| path paths IH]; intros self.
  - cbn. exists []. rewrite app_nil_r, set_extension_zips_same. auto.
  - assert (Hstay : forall (e : exn),
               exists zips,
                 self = ExtensionDemo.set_extension_zips self
                          (ExtensionDemo.extension_zips self ++ zips)%list
                 /\ (Raise e = Ok tt -> List.length zips = List.length (path :: paths))).
    { intros e. exists []. rewrite app_nil_r, set_extension_zips_same.
      split; [reflexivity | discriminate]. }
    cbn [ExtensionDemo.prepare_each bind get pbind].
    eapply (holds_pbind _ (fun r => snd r = self)).
    { unfold ExtensionSetup.__init__.
      holds_cases; try reflexivity; apply outside_browser; discriminate. }
    intros [[setup | e] s] Hs; cbn in Hs; subst s; [| apply Hstay].
    eapply (holds_pbind _ (fun r => snd r = self)).
    { eapply holds_on_object.
      - apply (holds_extension_setup_prepare allowed).
        + intros c Hc. apply outside_browser. congruence.
        + intros _. apply outside_browser. discriminate.
      - reflexivity.
      - reflexivity. }
    intros [[[zip setup'] | e] s] Hs; cbn in Hs; subst s; [| apply Hstay].
    cbn [bind get put pbind fst].
    eapply holds_weaken; [intros c Hc; exact Hc | | apply IH].
    intros [r s] (zips & Hs & Hlen). cbn [fst snd] in *. subst s.
    exists (zip :: zips). split.
    + cbn. rewrite <- app_assoc. reflexivity.
    + intros Hr. cbn. rewrite (Hlen Hr). reflexivity.
Qed.

Lemma holds_demo_prepare_extension (self : ExtensionDemo.t) :
  holds allowed
    (fun r => (exists zips,
                  snd r = ExtensionDemo.set_extension_zips self
                            (ExtensionDemo.extension_zips self ++ zips)%list
                  /\ (fst r = Ok true ->
                      List.length zips
                      = List.length (ExtensionDemo.existing_extensions self)))
              /\ (forall e, fst r = Raise e -> e = KeyboardInterrupt))
    (ExtensionDemo.prepare_extension self).
Proof using outside_browser.
  unfold ExtensionDemo.prepare_extension.
  eapply (holds_try_except allowed
            (fun r => exists zips,
                 snd r = ExtensionDemo.set_extension_zips self
                           (ExtensionDemo.extension_zips self ++ zips)%list
                 /\ (fst r = Ok true ->
                     List.length zips
                     = List.length (ExtensionDemo.existing_extensions self)))).
  - cbn [bind get pbind]. eapply holds_pbind; [apply holds_prepare_each |].
    intros [[[] | e] s] (zips & Hs & Hlen); cbn [holds fst snd] in *;
      exists zips; (split; [exact Hs |]); [auto | discriminate].
  - intros b s Hs. split; [exact Hs | discriminate].
  - intros e s (zips & Hs & _). cbn [fst snd] in *.
    destruct e; cbn.
    + split; [| discriminate]. exists zips. split; [exact Hs | discriminate].
    + split; [| intros e' [= <-]; reflexivity].
      exists zips. split; [exact Hs | discriminate].
    + split; [| discriminate]. exists zips. split; [exact Hs | discriminate].
Qed.

Lemma holds_s3_init {St} (bucket_name : string) (region : option string) (s : St) :
  holds allowed
    (fun r => snd r = s
              /\ forall manager, fst r = Ok manager ->
                                 S3Manager.bucket_name manager = bucket_name)
    (S3Manager.__init__ bucket_name region s).
Proof using outside_browser.
  unfold S3Manager.__init__, or_environ.
  destruct region as [region |]; [destruct (truthy region) |].
  all: holds_cases; try reflexivity; try (apply outside_browser; discriminate);
    try discriminate.
  all: match goal with Hx : Ok _ = Ok _ |- _ => injection Hx as <-; reflexivity end.
Qed.

Lemma holds_setup_and_upload_any (manager : S3Manager.t) (extension_zip : string) :
  holds allowed
    (fun r => snd r = manager
              /\ forall uri, fst r = Ok (Some uri) ->
                             uri = locator_of (S3Manager.bucket_name manager) extension_zip)
    (S3Manager.setup_and_upload extension_zip manager).
Proof using outside_browser.
  apply holds_setup_and_upload_with.
  - apply outside_browser. discriminate.
  - apply outside_browser. unfold create_request.
    destruct (String.eqb (S3Manager.region manager) "us-east-1"); discriminate.
  - apply outside_browser. discriminate.
  - apply outside_browser. discriminate.
  - apply holds_verify_access_any. intros bucket key. apply outside_browser. discriminate.
Qed.

Lemma holds_cleanup_old_extensions (keep_latest : nat) (manager : S3Manager.t) :
  holds allowed (fun r => snd r = manager)
    (S3Manager.cleanup_old_extensions keep_latest manager).
Proof using outside_browser.
  assert (Hdelete : forall keys,
             holds allowed (fun r => snd r = manager)
               (S3Manager.delete_each manager keys manager)).
  { induction keys as [| key keys IH]; [reflexivity |].
    cbn [S3Manager.delete_each].
    eapply (holds_bind _ (fun r => snd r = manager)).
    - holds_cases; try reflexivity; apply outside_browser; discriminate.
    - intros [] s Hs. cbn in Hs. subst s. exact IH.
    - intros e s Hs. exact Hs. }
  unfold S3Manager.cleanup_old_extensions.
  cbn [bind get pbind print holds].
  eapply (holds_pbind _ (fun r => snd r = manager)).
  { unfold S3Manager.list_extensions.
    holds_cases; try reflexivity; apply outside_browser; discriminate. }
  intros [[keys | e] s] Hs; cbn in Hs; subst s; [| reflexivity].
  destruct (List.length keys <=? keep_latest)%nat; [reflexivity |].
  cbn [bind pbind print holds].
  eapply holds_pbind; [apply Hdelete |].
  intros [[[] | e] s] Hs; cbn in Hs; subst s; reflexivity.
Qed.

Lemma holds_upload_each (manager : S3Manager.t) (zips : list string)
    (self : ExtensionDemo.t) :
  holds allowed
    (fun r => exists uris,
         snd r = ExtensionDemo.set_s3_uris self (ExtensionDemo.s3_uris self ++ uris)%list
         /\ (fst r = Ok None ->
             uris = List.map (locator_of (S3Manager.bucket_name manager)) zips)
         /\ fst r <> Ok (Some true))
    (ExtensionDemo.upload_each manager zips self).
Proof using outside_browser.
  revert self. induction zips as [| zip zips IH]; intros self.
  - cbn. exists []. rewrite app_nil_r, set_s3_uris_same.
    split; [reflexivity |]. split; [reflexivity | discriminate].
  - assert (Hstay : forall r : result (option bool),
               r <> Ok None -> r <> Ok (Some true) ->
               exists uris,
                 self = ExtensionDemo.set_s3_uris self
                          (ExtensionDemo.s3_uris self ++ uris)%list
                 /\ (r = Ok None ->
                     uris = List.map (locator_of (S3Manager.bucket_name manager))
                              (zip :: zips))
                 /\ r <> Ok (Some true)).
    { intros r Hr Ht. exists []. rewrite app_nil_r, set_s3_uris_same.
      split; [reflexivity |]. split; [intros Hx; destruct (Hr Hx) | exact Ht]. }
    cbn [ExtensionDemo.upload_each].
    eapply (holds_bind _
              (fun r => snd r = self
                        /\ forall uri manager',
                             fst r = Ok (Some uri, manager') ->
                             uri = locator_of (S3Manager.bucket_name manager) zip)).
    { eapply holds_on_object.
      - apply holds_setup_and_upload_any.
      - intros a manager' [_ Huri]. split; [reflexivity |].
        intros uri m' [= -> _]. apply Huri. reflexivity.
      - intros e manager' _. split; [reflexivity | discriminate]. }
    + intros [[uri |] manager'] s [Hs Huri]; cbn [fst snd] in *; subst s;
        [| apply Hstay; discriminate].
      destruct (truthy uri); [| apply Hstay; discriminate].
      cbn [bind get put pbind].
      eapply holds_weaken; [intros c Hc; exact Hc | | apply IH].
      intros [r s] (uris & Hs & Hall & Ht). cbn [fst snd] in *. subst s.
      exists (uri :: uris). split; [| split; [| exact Ht]].
      * cbn. rewrite <- app_assoc. reflexivity.
      * intros Hr. rewrite (Hall Hr), (Huri uri manager' eq_refl). reflexivity.
    + intros e s [Hs _]. cbn [fst snd] in *. subst s. apply Hstay; discriminate.
Qed.

Lemma holds_upload_to_s3 (self : ExtensionDemo.t) :
  holds allowed
    (fun r => (exists uris,
                  snd r = ExtensionDemo.set_s3_uris self
                            (ExtensionDemo.s3_uris self ++ uris)%list
                  /\ (fst r = Ok true ->
                      uris = List.map (locator_of (ExtensionDemo.bucket_name self))
                               (ExtensionDemo.extension_zips self)))
              /\ (forall e, fst r = Raise e -> e = KeyboardInterrupt))
    (ExtensionDemo.upload_to_s3 self).
Proof using outside_browser.
  pose (mid := fun r : result bool * ExtensionDemo.t =>
                 exists uris,
                   snd r = ExtensionDemo.set_s3_uris self
                             (ExtensionDemo.s3_uris self ++ uris)%list
                   /\ (fst r = Ok true ->
                       uris = List.map (locator_of (ExtensionDemo.bucket_name self))
                                (ExtensionDemo.extension_zips self))).
  assert (Hself : forall r : result bool, r <> Ok true -> mid (r, self)).
  { intros r Hr. exists []. cbn. rewrite app_nil_r, set_s3_uris_same.
    split; [reflexivity | intros Hx; destruct (Hr Hx)]. }
  unfold ExtensionDemo.upload_to_s3.
  eapply (holds_try_except allowed mid).
  - cbn [bind get pbind].
    eapply holds_pbind; [apply holds_s3_init |].
    intros [[manager | e] s] [Hs Hname]; cbn [fst snd] in *; subst s;
      [| apply Hself; discriminate].
    specialize (Hname manager eq_refl).
    eapply holds_pbind; [apply (holds_upload_each manager) |].
    intros [[[answer |] | e] s] (uris & Hs & Hall & Ht); cbn [fst snd] in *; subst s.
    + destruct answer; [destruct Ht; reflexivity |].
      cbn. exists uris. split; [reflexivity | discriminate].
    + assert (Hdone : mid (Ok true, ExtensionDemo.set_s3_uris self
                                      (ExtensionDemo.s3_uris self ++ uris)%list)).
      { exists uris. split; [reflexivity |]. intros _.
        rewrite (Hall eq_refl), Hname. reflexivity. }
      assert (Hfail : forall (r : result bool), r <> Ok true ->
                        mid (r, ExtensionDemo.set_s3_uris self
                                  (ExtensionDemo.s3_uris self ++ uris)%list)).
      { intros r Hr. exists uris. split; [reflexivity |]. intros Hx. destruct (Hr Hx). }
      cbn [bind pbind invoke holds].
      split; [apply outside_browser; discriminate |].
      intros [[|] | e]; cbn [pbind holds bind ret]; [| exact Hdone | apply Hfail; discriminate].
      eapply (holds_pbind _
                (fun r => snd r = ExtensionDemo.set_s3_uris self
                                    (ExtensionDemo.s3_uris self ++ uris)%list)).
      { eapply holds_bind.
        - eapply (holds_on_object allowed (fun r => snd r = manager)
                    (fun r => snd r = ExtensionDemo.set_s3_uris self
                                        (ExtensionDemo.s3_uris self ++ uris)%list)).
          + apply holds_cleanup_old_extensions.
          + reflexivity.
          + reflexivity.
        - intros a s Hs. exact Hs.
        - intros e s Hs. exact Hs. }
      intros [[[] | e] s] Hs; cbn [fst snd] in *; subst s; cbn;
        [exact Hdone | apply Hfail; discriminate].
    + cbn. exists uris. split; [reflexivity | discriminate].
  - intros b s Hs. split; [exact Hs | discriminate].
  - intros e s (uris & Hs & _). cbn [fst snd] in *.
    destruct e; cbn.
    + split; [| discriminate]. exists uris. split; [exact Hs | discriminate].
    + split; [| intros e' [= <-]; reflexivity].
      exists uris. split; [exact Hs | discriminate].
    + split; [| discriminate]. exists uris. split; [exact Hs | discriminate].
Qed.

Lemma holds_cleanup_without_browser (self : ExtensionDemo.t) :
  ExtensionDemo.browser self = None ->
  holds allowed (fun r => r = (Ok tt, self)) (ExtensionDemo.cleanup self).
Proof.
  intros Hb. unfold ExtensionDemo.cleanup. cbn. rewrite Hb. reflexivity.
Qed.

Lemma holds_run_steps_prepare_only (self : ExtensionDemo.t) :
  holds allowed
    (fun r => ExtensionDemo.browser (snd r) = ExtensionDemo.browser self)
    (ExtensionDemo.run_steps true self).
Proof using outside_browser.
  unfold ExtensionDemo.run_steps.
  eapply holds_bind; [apply holds_check_prerequisites | |].
  2: { intros e s Hs. cbn in Hs. subst s. reflexivity. }
  intros [|] s Hs; cbn in Hs; subst s; cbn [negb]; [| reflexivity].
  eapply holds_bind; [apply holds_demo_prepare_extension | |].
  2: { intros e s [(zips & Hs & _) _]. cbn in Hs. subst s. reflexivity. }
  intros [|] s [(zips & Hs & _) _]; cbn in Hs; subst s; cbn [negb]; [| reflexivity].
  eapply holds_bind; [apply holds_upload_to_s3 | |].
  2: { intros e s [(uris & Hs & _) _]. cbn in Hs. subst s. reflexivity. }
  intros [|] s [(uris & Hs & _) _]; cbn in Hs; subst s; cbn [negb]; [| reflexivity].
  cbn [bind pbind print holds get].
  eapply holds_pbind; [apply holds_print_numbered |].
  intros r ->. reflexivity.
Qed.

Lemma holds_run_prepare_only (self : ExtensionDemo.t) :
  ExtensionDemo.browser self = None ->
  holds allowed (fun r => ExtensionDemo.browser (snd r) = None)
    (ExtensionDemo.run true self).
Proof using outside_browser.
  intros Hb. unfold ExtensionDemo.run, ExtensionDemo.print_header.
  cbn [bind pbind print holds].
  eapply (holds_try_finally allowed (fun r => ExtensionDemo.browser (snd r) = None)).
  - unfold ExtensionDemo.run_guarded.
    eapply (holds_try_except allowed (fun r => ExtensionDemo.browser (snd r) = None)).
    + eapply holds_weaken; [intros c Hc; exact Hc | | apply holds_run_steps_prepare_only].
      intros r Hr. cbn in Hr. rewrite Hr. exact Hb.
    + intros a s Hs. exact Hs.
    + intros e s Hs. destruct e; exact Hs.
  - intros r s Hs. cbn [snd] in Hs.
    eapply holds_weaken; [intros c Hc; exact Hc | | apply holds_cleanup_without_browser, Hs].
    intros x ->. exact Hs.
Qed.
End DemoServices.

Section DemoOutcome.
Context {W : Type} (h : handler W) `{Runtime}.

(** X25.  Started on a demo object without a browser,
    [run(prepare_only=True)] never calls the browser service, whatever
    the environment answers, and [self.browser] is still [None] when it
    ends. *)
Theorem prepare_only_never_calls_browser_service (self : ExtensionDemo.t) (w : W) :
  let out := exec h (ExtensionDemo.run true self) w in
  ExtensionDemo.browser self = None ->
  Forall (fun c => service_of c <> Browser) (calls_of (trace out))
  /\ ExtensionDemo.browser (self_after out) = None.
Proof.
  intros out Hb.
  destruct (holds_exec h _ _ _ w
              (holds_run_prepare_only (fun c => service_of c <> Browser)
                 (fun c Hc => Hc) self Hb)) as [Hpost Hcalls].
  auto.
Qed.

(** X26.  When [upload_to_s3] returns [True], the only change to the
    demo object is that [s3_uris] has been extended, in order, by the
    locator [s3://<bucket_name>/extensions/<file name>] of every
    archive in [extension_zips]. *)
Theorem upload_to_s3_records_locators (self : ExtensionDemo.t) (w : W) :
  let out := exec h (ExtensionDemo.upload_to_s3 self) w in
  returned out = Ok true ->
  self_after out
  = ExtensionDemo.set_s3_uris self
      (ExtensionDemo.s3_uris self
         ++ List.map (locator_of (ExtensionDemo.bucket_name self))
              (ExtensionDemo.extension_zips self))%list.
Proof.
  intros out Hout.
  destruct (holds_exec h _ _ _ w
              (holds_upload_to_s3 (fun _ => True) (fun c _ => I) self))
    as [[(uris & Hs & Huris) _] _].
  fold out in Hs, Huris. unfold self_after. rewrite Hs, (Huris Hout). reflexivity.
Qed.

(** X27.  When [prepare_extension] of the demo returns [True], the
    only change to the demo object is that [extension_zips] has been
    extended by as many paths as there are [existing_extensions]. *)
Theorem demo_prepare_extension_collects (self : ExtensionDemo.t) (w : W) :
  let out := exec h (ExtensionDemo.prepare_extension self) w in
  returned out = Ok true ->
  exists zips,
    List.length zips = List.length (ExtensionDemo.existing_extensions self)
    /\ self_after out
       = ExtensionDemo.set_extension_zips self
           (ExtensionDemo.extension_zips self ++ zips)%list.
Proof.
  intros out Hout.
  destruct (holds_exec h _ _ _ w
              (holds_demo_prepare_extension (fun _ => True) (fun c _ => I) self))
    as [[(zips & Hs & Hlen) _] _].
  exists zips. split; [apply Hlen, Hout | exact Hs].
Qed.
End DemoOutcome.

Section DemoExit.
Context `{Runtime}.

Lemma holds_close_session (b : BrowserWithExtension.t) :
  holds (fun _ => True)
    (fun r => forall e, fst r = Raise e -> e = KeyboardInterrupt)
    (BrowserWithExtension.close_session b).
Proof.
  unfold BrowserWithExtension.close_session.
  cbn -[BrowserWithExtension.active_session].
  destruct (BrowserWithExtension.active_session b) as [sid |]; cbn; [| discriminate].
  split; [exact I |].
  intros [[] | [code message | | class message]]; cbn; try discriminate.
  intros e [= <-]. reflexivity.
Qed.

Lemma holds_cleanup (self : ExtensionDemo.t) :
  holds (fun _ => True)
    (fun r => forall e, fst r = Raise e -> e = KeyboardInterrupt)
    (ExtensionDemo.cleanup self).
Proof.
  unfold ExtensionDemo.cleanup. cbn [bind pbind print holds get].
  destruct (ExtensionDemo.browser self) as [b |] eqn:Hb; [| cbn; discriminate].
  eapply (holds_pbind _ (fun x => forall e, fst x = Raise e -> e = KeyboardInterrupt)).
  { unfold ExtensionDemo.on_browser. rewrite Hb.
    eapply holds_pbind; [apply holds_close_session |].
    intros [r b'] Hr. exact Hr. }
  intros [[[] | e] s] Hr; cbn in *; [discriminate | exact Hr].
Qed.

Lemma holds_run_steps_codes (prepare_only : bool) (self : ExtensionDemo.t) :
  holds (fun _ => True) (fun r => forall code, fst r = Ok code -> code = 0 \/ code = 1)
    (ExtensionDemo.run_steps prepare_only self).
Proof.
  pose (post := fun r : result Z * ExtensionDemo.t =>
                  forall code, fst r = Ok code -> code = 0 \/ code = 1).
  assert (Hfail : forall e s, post (Raise e, s)) by (intros e s0 code; discriminate).
  assert (Hone : forall s, post (Ok 1, s)) by (intros s0 code [= <-]; auto).
  assert (Hzero : forall s, post (Ok 0, s)) by (intros s0 code [= <-]; auto).
  unfold ExtensionDemo.run_steps. fold post.
  eapply holds_bind; [apply holds_anything | | intros e ? _; apply Hfail].
  intros [|] s _; cbn [negb]; [| apply Hone].
  eapply holds_bind; [apply holds_anything | | intros e ? _; apply Hfail].
  intros [|] s1 _; cbn [negb]; [| apply Hone].
  eapply holds_bind; [apply holds_anything | | intros e ? _; apply Hfail].
  intros [|] s2 _; cbn [negb]; [| apply Hone].
  destruct prepare_only.
  - cbn [bind pbind print holds get].
    eapply holds_pbind; [apply (holds_print_numbered (fun _ => True)) |].
    intros r ->. cbn. apply Hzero.
  - eapply holds_bind; [apply holds_anything | | intros e ? _; apply Hfail].
    intros [|] s3 _; cbn [negb]; [| apply Hone].
    eapply holds_bind; [apply holds_anything | | intros e ? _; apply Hfail].
    intros tested s4 _.
    eapply holds_bind; [apply holds_anything | | intros e ? _; apply Hfail].
    intros [] s5 _. cbn [bind pbind print holds].
    eapply holds_pbind; [apply holds_anything |].
    intros [[[] | e] s6] _; cbn; [apply Hzero | apply Hfail].
Qed.

Lemma holds_run (prepare_only : bool) (self : ExtensionDemo.t) :
  holds (fun _ => True)
    (fun r => In (fst r) [Ok 0; Ok 1; Ok 130; Raise KeyboardInterrupt])
    (ExtensionDemo.run prepare_only self).
Proof.
  unfold ExtensionDemo.run, ExtensionDemo.print_header.
  cbn [bind pbind print holds].
  eapply (holds_try_finally _ (fun r => In (fst r) [Ok 0; Ok 1; Ok 130])).
  - unfold ExtensionDemo.run_guarded.
    eapply holds_try_except; [apply holds_run_steps_codes | |].
    + intros code s Hcode. destruct (Hcode code eq_refl) as [-> | ->]; cbn; auto.
    + intros e s _. destruct e; cbn; auto.
  - intros r s Hr.
    eapply holds_weaken; [intros c Hc; exact Hc | | apply holds_cleanup].
    intros [[[] | e] s'] He; cbn in *.
    + intuition.
    + rewrite (He e eq_refl). auto.
Qed.
End DemoExit.

(** X28.  Whatever the environment answers, [run] returns 0, 1 or
    130, or lets a [KeyboardInterrupt] through; the exit status of the
    process is then 0, 1 or 130. *)
Theorem run_exit_codes {W} (h : handler W) `{Runtime}
    (prepare_only : bool) (self : ExtensionDemo.t) (w : W) :
  let out := exec h (ExtensionDemo.run prepare_only self) w in
  In (returned out) [Ok 0; Ok 1; Ok 130; Raise KeyboardInterrupt]
  /\ In (exit_status (returned out)) [0; 1; 130].
Proof.
  intros out.
  destruct (holds_exec h _ _ _ w (holds_run prepare_only self)) as [Hpost _].
  assert (Hcode : In (returned out) [Ok 0; Ok 1; Ok 130; Raise KeyboardInterrupt])
    by exact Hpost.
  split; [exact Hcode |].
  destruct Hcode as [<- | [<- | [<- | [<- | []]]]]; cbn; auto.
Qed.

Section StageExceptions.
Context {W : Type} (h : handler W) `{Runtime}.

Lemma holds_create_browser (self : ExtensionDemo.t) :
  holds (fun _ => True) (fun r => forall e, fst r = Raise e -> e = KeyboardInterrupt)
    (ExtensionDemo.create_browser self).
Proof.
  unfold ExtensionDemo.create_browser.
  eapply (holds_try_except _ (fun _ => True)); [apply holds_anything | |].
  - intros b s _. discriminate.
  - intros e s _. destruct e; cbn; try discriminate.
    intros e [= <-]. reflexivity.
Qed.

(** X29.  The only exception that can leave the stages
    [prepare_extension], [upload_to_s3] and [create_browser] of the
    demo is [KeyboardInterrupt]. *)
Theorem stages_catch_exceptions (self : ExtensionDemo.t) (w : W) :
  (forall e, returned (exec h (ExtensionDemo.prepare_extension self) w) = Raise e ->
             e = KeyboardInterrupt)
  /\ (forall e, returned (exec h (ExtensionDemo.upload_to_s3 self) w) = Raise e ->
                e = KeyboardInterrupt)
  /\ (forall e, returned (exec h (ExtensionDemo.create_browser self) w) = Raise e ->
                e = KeyboardInterrupt).
Proof.
  split; [| split].
  - destruct (holds_exec h _ _ _ w
                (holds_demo_prepare_extension (fun _ => True) (fun c _ => I) self))
      as [[_ Hraise] _]. exact Hraise.
  - destruct (holds_exec h _ _ _ w
                (holds_upload_to_s3 (fun _ => True) (fun c _ => I) self))
      as [[_ Hraise] _]. exact Hraise.
  - destruct (holds_exec h _ _ _ w (holds_create_browser self)) as [Hraise _].
    exact Hraise.
Qed.
End StageExceptions.

Section Prerequisites.
Context {W : Type} (h : handler W).

(** X30.  [check_prerequisites] returns [True] only if there is at
    least one extension path, the STS client was created, the caller's
    identity was returned, and every extension path, asked in order,
    was then reported to exist. *)
Theorem check_prerequisites_true_means_all_present (self : ExtensionDemo.t) (w : W) :
  let out := exec h (ExtensionDemo.check_prerequisites self) w in
  returned out = Ok true ->
  ExtensionDemo.existing_extensions self <> []
  /\ exists identity,
       follows h w
         (answered (boto3_client "sts" None) (Ok tt)
            :: answered sts_get_caller_identity (Ok identity)
            :: List.map (fun ext => answered (path_exists ext) (Ok true))
                 (ExtensionDemo.existing_extensions self)).
Proof.
  unfold ExtensionDemo.check_prerequisites, BrowserWithExtension.check_iam_permissions.
  cbn -[for_each].
  destruct (h (boto3_client "sts" None) w) as [[[] | e] w1] eqn:Hclient;
    cbn -[for_each]; [| destruct e; cbn; discriminate].
  destruct (h sts_get_caller_identity w1) as [[identity | e] w2] eqn:Hidentity;
    cbn -[for_each]; [| destruct e; cbn; discriminate].
  destruct (ExtensionDemo.existing_extensions self) as [| ext exts] eqn:Hexts;
    [cbn; discriminate |].
  match goal with
  | |- context [for_each (ext :: exts) ?body] =>
      assert (Hloop : forall paths w0,
                 match returned (exec h (for_each paths body self) w0) with
                 | Ok None =>
                     follows h w0
                       (List.map (fun ext => answered (path_exists ext) (Ok true)) paths)
                 | Ok (Some answer) => answer = false
                 | Raise _ => True
                 end)
  end.
  { induction paths as [| path paths IH]; intros w0; [exact I |].
    cbn -[for_each]. cbn [for_each]. rewrite exec_bind. cbn -[for_each].
    destruct (h (path_exists path) w0) as [[[|] | e] w3] eqn:Hpath; cbn -[for_each];
      [| reflexivity | exact I].
    specialize (IH w3).
    destruct (exec h (for_each paths _ self) w3) as [[[r s3] w4] t3].
    cbn in *. destruct r as [[answer |] | e]; [exact IH | auto | exact I]. }
  specialize (Hloop (ext :: exts) w2).
  rewrite exec_bind.
  destruct (exec h (for_each (ext :: exts) _ self) w2) as [[[r s3] w3] t3].
  cbn in Hloop. destruct r as [[answer |] | e]; cbn.
  - subst answer. discriminate.
  - intros _. split; [discriminate |]. exists identity.
    cbn [follows answered]. auto.
  - discriminate.
Qed.
End Prerequisites.

Lemma check_prerequisites_witness :
  returned (exec Cloud.respond (ExtensionDemo.check_prerequisites demo_on_own_bucket)
              office) = Ok true
  /\ ExtensionDemo.existing_extensions demo_on_own_bucket <> []
  /\ exists identity,
       follows Cloud.respond office
         (answered (boto3_client "sts" None) (Ok tt)
            :: answered sts_get_caller_identity (Ok identity)
            :: List.map (fun ext => answered (path_exists ext) (Ok true))
                 (ExtensionDemo.existing_extensions demo_on_own_bucket)).
Proof.
  assert (Hout : returned (exec Cloud.respond
                             (ExtensionDemo.check_prerequisites demo_on_own_bucket) office)
                 = Ok true) by (vm_compute; reflexivity).
  split; [exact Hout |].
  exact (check_prerequisites_true_means_all_present Cloud.respond demo_on_own_bucket
           office Hout).
Defined.

Lemma prepare_only_witness :
  let out := exec Cloud.respond (ExtensionDemo.run true demo_on_own_bucket) office in
  ExtensionDemo.browser demo_on_own_bucket = None
  /\ Forall (fun c => service_of c <> Browser) (calls_of (trace out))
  /\ ExtensionDemo.browser (self_after out) = None
  /\ returned out = Ok 0.
Proof.
  intros out.
  assert (Hb : ExtensionDemo.browser demo_on_own_bucket = None) by reflexivity.
  pose proof (prepare_only_never_calls_browser_service Cloud.respond demo_on_own_bucket
                office Hb) as [Hcalls Hafter].
  split; [exact Hb |]. split; [exact Hcalls |]. split; [exact Hafter |].
  vm_compute. reflexivity.
Defined.

Lemma upload_to_s3_witness :
  let out := exec Cloud.respond (ExtensionDemo.upload_to_s3 demo_with_archive) office in
  returned out = Ok true
  /\ ExtensionDemo.s3_uris (self_after out)
     = ["s3://browser-extension-demo/extensions/stealth-extension.zip"].
Proof.
  intros out.
  assert (Hout : returned out = Ok true) by (vm_compute; reflexivity).
  split; [exact Hout |].
  pose proof (upload_to_s3_records_locators Cloud.respond demo_with_archive office Hout)
    as Hafter.
  cbv zeta in Hafter. fold out in Hafter. rewrite Hafter. reflexivity.
Defined.

Lemma demo_prepare_extension_witness :
  returned (exec Cloud.respond (ExtensionDemo.prepare_extension demo_on_own_bucket) office)
  = Ok true
  /\ exists zips,
       List.length zips = List.length (ExtensionDemo.existing_extensions demo_on_own_bucket)
       /\ self_after (exec Cloud.respond
                        (ExtensionDemo.prepare_extension demo_on_own_bucket) office)
          = ExtensionDemo.set_extension_zips demo_on_own_bucket
              (ExtensionDemo.extension_zips demo_on_own_bucket ++ zips)%list.
Proof.
  assert (Hout : returned (exec Cloud.respond
                             (ExtensionDemo.prepare_extension demo_on_own_bucket) office)
                 = Ok true) by (vm_compute; reflexivity).
  split; [exact Hout |].
  exact (demo_prepare_extension_collects Cloud.respond demo_on_own_bucket office Hout).
Defined.
